(** * aprs_agent: the audio dynamics chain, the level meters and the
      stream endpoints, embedded from the Go sources.

    The Go code works on little-endian 16-bit PCM held in [[]byte]
    slices and on [float64] parameters.  Bytes are [Byte.byte], the
    decoded samples are [Z] with the 16-bit wrap-around written out, and
    [float64] is Rocq's primitive binary64 [float], so every definition
    below evaluates with the arithmetic the Go program runs on. *)

From Stdlib Require Import ZArith List Bool Lia String.
From Stdlib Require Import Strings.Byte Uint63 Floats.
Import ListNotations.

Local Open Scope Z_scope.

(** ** Go run-time values *)

Module Go.

(** What a call can end in: a value, or a run-time panic. *)
Inductive panic : Set :=
| IndexOutOfRange (index len : Z)
| MakesliceLenOutOfRange.

Inductive outcome (A : Type) : Type :=
| Ret (a : A)
| Panics (p : panic).
Arguments Ret {A} a.
Arguments Panics {A} p.

Definition bind {A B : Type} (m : outcome A) (k : A -> outcome B) : outcome B :=
  match m with
  | Ret a => k a
  | Panics p => Panics p
  end.

(** [int16(x)]: keep the low 16 bits, read as two's complement. *)
Definition wrap16 (z : Z) : Z := (z + 32768) mod 65536 - 32768.

(** [int] is 64 bits wide on the platforms the agent is built for. *)
Definition maxInt : Z := 9223372036854775807.
Definition wrapInt (z : Z) : Z :=
  (z + 9223372036854775808) mod 18446744073709551616 - 9223372036854775808.

(** [int16(b)] for a [byte] b, and [byte(x)] for an [int16] x. *)
Definition byteVal (b : byte) : Z := Z.of_N (Byte.to_N b).
Definition byteOf (z : Z) : byte :=
  match Byte.of_N (Z.to_N (z mod 256)) with
  | Some b => b
  | None => x00
  end.

(** [int16(data[j]) | int16(data[j+1])<<8] *)
Definition readSample (b0 b1 : byte) : Z :=
  Z.lor (byteVal b0) (wrap16 (Z.shiftl (byteVal b1) 8)).

(** [byte(s & 0xFF)] and [byte((s >> 8) & 0xFF)] *)
Definition lowByte (s : Z) : byte := byteOf (Z.land s 255).
Definition highByte (s : Z) : byte := byteOf (Z.land (Z.shiftr s 8) 255).

(** [float64(n)] for an integer that fits 63 bits. *)
Definition floatOfZ (z : Z) : float :=
  if z <? 0 then PrimFloat.opp (PrimFloat.of_uint63 (Uint63.of_Z (- z)))
  else PrimFloat.of_uint63 (Uint63.of_Z z).

(** The integer part of a float, fraction discarded (truncation towards
    zero); [None] for infinities and NaN. *)
Definition truncate (f : float) : option Z :=
  match Prim2SF f with
  | S754_zero _ => Some 0
  | S754_finite s m e =>
      let a := Z.shiftl (Zpos m) e in
      Some (if s then - a else a)
  | S754_infinity _ | S754_nan => None
  end.

(** What the Go program takes from outside its own sources: [math.Pow],
    [math.Log10], and the result of converting to [int16] a float that
    [int16] cannot represent, which the language leaves to the
    implementation. *)
Class Runtime : Type := {
  Pow : float -> float -> float;
  Log10 : float -> float;
  int16Unrepresentable : float -> Z
}.

(** [int16(f)] for a [float64] f. *)
Definition int16OfFloat `{Runtime} (f : float) : Z :=
  match truncate f with
  | Some z =>
      if (-32768 <=? z) && (z <=? 32767) then z
      else wrap16 (int16Unrepresentable f)
  | None => wrap16 (int16Unrepresentable f)
  end.

(** [make([]byte, n)]: a negative length panics; how much memory there
    is to allocate is not modelled. *)
Definition makeBytes (n : Z) : outcome (list byte) :=
  if (n <? 0) || (maxInt <? n) then Panics MakesliceLenOutOfRange
  else Ret (repeat x00 (Z.to_nat n)).

(** The samples a byte block holds, for stating properties; a trailing
    odd byte holds no sample. *)
Fixpoint samples (data : list byte) : list Z :=
  match data with
  | b0 :: b1 :: rest => readSample b0 b1 :: samples rest
  | _ => []
  end.

(** The little-endian bytes of a list of samples. *)
Fixpoint bytesOf (ss : list Z) : list byte :=
  match ss with
  | [] => []
  | s :: rest => lowByte s :: highByte s :: bytesOf rest
  end.

End Go.
Import Go.

(** ** The order of [float64] values

    A finite binary64 value is [m * 2^e] with [e >= -1074], so scaling by
    [2^1074] turns every finite value into an integer; the infinities
    sit beyond every finite value and NaN has no place in the order. *)

Definition unit1074 : Z := 2 ^ 1074.
Definition infOrd : Z := 2 ^ 2200.

Definition SFord (x : spec_float) : option Z :=
  match x with
  | S754_nan => None
  | S754_infinity s => Some (if s then - infOrd else infOrd)
  | S754_zero _ => Some 0
  | S754_finite s m e =>
      let v := Zpos m * 2 ^ (e + 1074) in
      Some (if s then - v else v)
  end.

Definition ord (f : float) : option Z := SFord (Prim2SF f).

(** [x] is the integer [k], held exactly. *)
Definition holdsInt (x : spec_float) (k : Z) : bool :=
  match x with
  | S754_zero _ => k =? 0
  | S754_finite false m e =>
      (e <=? 0) && (-1074 <=? e) && (Zpos m =? Z.shiftl k (- e))
  | _ => false
  end.

(** [p] holds of the [n] integers from [z] on. *)
Fixpoint allFrom (n : nat) (z : Z) (p : Z -> bool) : bool :=
  match n with
  | O => true
  | S n' => p z && allFrom n' (z + 1) p
  end.

Notation "x <- m ;; k" := (bind m (fun x => k))
  (at level 61, m at next level, right associativity).
Notation "' p <- m ;; k" := (bind m (fun p => k))
  (at level 61, p pattern, m at next level, right associativity).

Local Open Scope float_scope.

(** ** audio/aprs_processor.go *)

Record APRSProcessor : Type := {
  noiseGateThreshold : float;
  compressionRatio : float;
  peakThreshold : float;
  isNoiseGateEnabled : bool;
  isCompressorEnabled : bool;
  isLimiterEnabled : bool;
  peakLevel : float;
  rmsLevel : float;
  clippingCount : Z
}.

Definition NewAPRSProcessor : APRSProcessor := {|
  noiseGateThreshold := -40.0;
  compressionRatio := 4.0;
  peakThreshold := -3.0;
  isNoiseGateEnabled := true;
  isCompressorEnabled := true;
  isLimiterEnabled := true;
  peakLevel := 0;
  rmsLevel := 0;
  clippingCount := 0%Z
|}.

Section Processor.
Context `{Runtime}.

(** The loop of [calculateLevels]: [j] is the index of [data]'s head in
    the whole block of [n] bytes. *)
Fixpoint levelsLoop (n j : Z) (data : list byte) (sum peak : float)
  : outcome (float * float) :=
  match data with
  | [] => Ret (sum, peak)
  | [_] => Panics (IndexOutOfRange (j + 1)%Z n)
  | b0 :: b1 :: rest =>
      let sample := readSample b0 b1 in
      let sampleAbs := abs (floatOfZ sample) in
      let sum := sum + sampleAbs * sampleAbs in
      let peak := if peak <? sampleAbs then sampleAbs else peak in
      levelsLoop n (j + 2)%Z rest sum peak
  end.

Definition levelOf (magnitude : float) : float :=
  if 0 <? magnitude then 20 * Log10 (magnitude / 32767.0) else -96.0.

Definition setLevels (ap : APRSProcessor) (peak rms : float) : APRSProcessor :=
  {| noiseGateThreshold := noiseGateThreshold ap;
     compressionRatio := compressionRatio ap;
     peakThreshold := peakThreshold ap;
     isNoiseGateEnabled := isNoiseGateEnabled ap;
     isCompressorEnabled := isCompressorEnabled ap;
     isLimiterEnabled := isLimiterEnabled ap;
     peakLevel := peak;
     rmsLevel := rms;
     clippingCount := clippingCount ap |}.

Definition calculateLevels (ap : APRSProcessor) (data : list byte)
  : outcome APRSProcessor :=
  let n := Z.of_nat (List.length data) in
  if (n =? 0)%Z then Ret (setLevels ap (-96.0) (-96.0))
  else
    let sampleCount := (n / 2)%Z in
    '(sum, peak) <- levelsLoop n 0%Z data 0 0 ;;
    let rms := sqrt (sum / floatOfZ sampleCount) in
    Ret (setLevels ap (levelOf peak) (levelOf rms)).

(** The loops of the three stages rewrite the block in place, two bytes
    an iteration; each is given here by the block it leaves, the bytes of
    this iteration first and those of the iterations that follow after
    them. *)
Fixpoint noiseGateLoop (threshold : float) (n j : Z) (data : list byte)
  : outcome (list byte) :=
  match data with
  | [] => Ret []
  | [_] => Panics (IndexOutOfRange (j + 1)%Z n)
  | b0 :: b1 :: rest =>
      let sample := readSample b0 b1 in
      let sampleAbs := abs (floatOfZ sample) in
      if sampleAbs <? threshold then
        rest' <- noiseGateLoop threshold n (j + 2)%Z rest ;;
        Ret (x00 :: x00 :: rest')
      else
        rest' <- noiseGateLoop threshold n (j + 2)%Z rest ;;
        Ret (b0 :: b1 :: rest')
  end.

Definition noiseGateLinear (ap : APRSProcessor) : float :=
  Pow 10 (noiseGateThreshold ap / 20.0) * 32767.0.

Definition applyNoiseGate (ap : APRSProcessor) (data : list byte)
  : outcome (list byte) :=
  let threshold := noiseGateLinear ap in
  noiseGateLoop threshold (Z.of_nat (List.length data)) 0%Z data.

(** The body of the compressor's branch for one sample above the knee. *)
Definition compressSample (threshold ratio : float) (sample : Z) : Z :=
  let sampleAbs := abs (floatOfZ sample) in
  let excess := sampleAbs - threshold in
  let compressedExcess := excess / ratio in
  let newSample := threshold + compressedExcess in
  let newSample := if (sample <? 0)%Z then - newSample else newSample in
  let newSample :=
    if 32767 <? newSample then 32767
    else if newSample <? -32768 then -32768
    else newSample in
  int16OfFloat newSample.

Fixpoint compressorLoop (threshold ratio : float) (n j : Z) (data : list byte)
  : outcome (list byte) :=
  match data with
  | [] => Ret []
  | [_] => Panics (IndexOutOfRange (j + 1)%Z n)
  | b0 :: b1 :: rest =>
      let sample := readSample b0 b1 in
      let sampleAbs := abs (floatOfZ sample) in
      if threshold <? sampleAbs then
        let newSampleInt16 := compressSample threshold ratio sample in
        rest' <- compressorLoop threshold ratio n (j + 2)%Z rest ;;
        Ret (lowByte newSampleInt16 :: highByte newSampleInt16 :: rest')
      else
        rest' <- compressorLoop threshold ratio n (j + 2)%Z rest ;;
        Ret (b0 :: b1 :: rest')
  end.

(** The fixed -20 dB knee. *)
Definition kneeLinear : float := Pow 10 (-20.0 / 20.0) * 32767.0.

Definition applyCompressor (ap : APRSProcessor) (data : list byte)
  : outcome (list byte) :=
  let threshold := kneeLinear in
  let ratio := compressionRatio ap in
  compressorLoop threshold ratio (Z.of_nat (List.length data)) 0%Z data.

(** The sample the limiter writes for one that exceeds the ceiling. *)
Definition clipSample (threshold : float) (sample : Z) : Z :=
  if (0 <? sample)%Z then int16OfFloat threshold
  else wrap16 (- int16OfFloat threshold).

(** The loop of [applyLimiter], threading [ap.clippingCount]. *)
Fixpoint limiterLoop (threshold : float) (n j : Z) (data : list byte)
  (count : Z) : outcome (list byte * Z) :=
  match data with
  | [] => Ret ([], count)
  | [_] => Panics (IndexOutOfRange (j + 1)%Z n)
  | b0 :: b1 :: rest =>
      let sample := readSample b0 b1 in
      let sampleAbs := abs (floatOfZ sample) in
      if threshold <? sampleAbs then
        let sample := clipSample threshold sample in
        let count := wrapInt (count + 1) in
        ' (rest', count') <- limiterLoop threshold n (j + 2)%Z rest count ;;
        Ret (lowByte sample :: highByte sample :: rest', count')
      else
        ' (rest', count') <- limiterLoop threshold n (j + 2)%Z rest count ;;
        Ret (b0 :: b1 :: rest', count')
  end.

Definition ceilingLinear (ap : APRSProcessor) : float :=
  Pow 10 (peakThreshold ap / 20.0) * 32767.0.

Definition setClippingCount (ap : APRSProcessor) (count : Z) : APRSProcessor :=
  {| noiseGateThreshold := noiseGateThreshold ap;
     compressionRatio := compressionRatio ap;
     peakThreshold := peakThreshold ap;
     isNoiseGateEnabled := isNoiseGateEnabled ap;
     isCompressorEnabled := isCompressorEnabled ap;
     isLimiterEnabled := isLimiterEnabled ap;
     peakLevel := peakLevel ap;
     rmsLevel := rmsLevel ap;
     clippingCount := count |}.

Definition applyLimiter (ap : APRSProcessor) (data : list byte)
  : outcome (APRSProcessor * list byte) :=
  let threshold := ceilingLinear ap in
  ' (data', count) <-
    limiterLoop threshold (Z.of_nat (List.length data)) 0%Z data (clippingCount ap) ;;
  Ret (setClippingCount ap count, data').

(** [ProcessAudio] copies its input, so the caller's block is left as it
    was and the copy is what the stages rewrite. *)
Definition ProcessAudio (ap : APRSProcessor) (input : list byte)
  (sampleRate channels : Z) : outcome (APRSProcessor * list byte) :=
  let output := input in
  ap <- calculateLevels ap output ;;
  output <- (if isNoiseGateEnabled ap then applyNoiseGate ap output
             else Ret output) ;;
  output <- (if isCompressorEnabled ap then applyCompressor ap output
             else Ret output) ;;
  if isLimiterEnabled ap then applyLimiter ap output
  else Ret (ap, output).

End Processor.

Definition SetNoiseGateThreshold (ap : APRSProcessor) (threshold : float)
  : APRSProcessor :=
  {| noiseGateThreshold := threshold;
     compressionRatio := compressionRatio ap;
     peakThreshold := peakThreshold ap;
     isNoiseGateEnabled := isNoiseGateEnabled ap;
     isCompressorEnabled := isCompressorEnabled ap;
     isLimiterEnabled := isLimiterEnabled ap;
     peakLevel := peakLevel ap;
     rmsLevel := rmsLevel ap;
     clippingCount := clippingCount ap |}.

Definition SetCompressionRatio (ap : APRSProcessor) (ratio : float)
  : APRSProcessor :=
  {| noiseGateThreshold := noiseGateThreshold ap;
     compressionRatio := ratio;
     peakThreshold := peakThreshold ap;
     isNoiseGateEnabled := isNoiseGateEnabled ap;
     isCompressorEnabled := isCompressorEnabled ap;
     isLimiterEnabled := isLimiterEnabled ap;
     peakLevel := peakLevel ap;
     rmsLevel := rmsLevel ap;
     clippingCount := clippingCount ap |}.

Definition SetPeakThreshold (ap : APRSProcessor) (threshold : float)
  : APRSProcessor :=
  {| noiseGateThreshold := noiseGateThreshold ap;
     compressionRatio := compressionRatio ap;
     peakThreshold := threshold;
     isNoiseGateEnabled := isNoiseGateEnabled ap;
     isCompressorEnabled := isCompressorEnabled ap;
     isLimiterEnabled := isLimiterEnabled ap;
     peakLevel := peakLevel ap;
     rmsLevel := rmsLevel ap;
     clippingCount := clippingCount ap |}.

Definition EnableNoiseGate (ap : APRSProcessor) (enabled : bool) : APRSProcessor :=
  {| noiseGateThreshold := noiseGateThreshold ap;
     compressionRatio := compressionRatio ap;
     peakThreshold := peakThreshold ap;
     isNoiseGateEnabled := enabled;
     isCompressorEnabled := isCompressorEnabled ap;
     isLimiterEnabled := isLimiterEnabled ap;
     peakLevel := peakLevel ap;
     rmsLevel := rmsLevel ap;
     clippingCount := clippingCount ap |}.

Definition EnableCompressor (ap : APRSProcessor) (enabled : bool) : APRSProcessor :=
  {| noiseGateThreshold := noiseGateThreshold ap;
     compressionRatio := compressionRatio ap;
     peakThreshold := peakThreshold ap;
     isNoiseGateEnabled := isNoiseGateEnabled ap;
     isCompressorEnabled := enabled;
     isLimiterEnabled := isLimiterEnabled ap;
     peakLevel := peakLevel ap;
     rmsLevel := rmsLevel ap;
     clippingCount := clippingCount ap |}.

Definition EnableLimiter (ap : APRSProcessor) (enabled : bool) : APRSProcessor :=
  {| noiseGateThreshold := noiseGateThreshold ap;
     compressionRatio := compressionRatio ap;
     peakThreshold := peakThreshold ap;
     isNoiseGateEnabled := isNoiseGateEnabled ap;
     isCompressorEnabled := isCompressorEnabled ap;
     isLimiterEnabled := enabled;
     peakLevel := peakLevel ap;
     rmsLevel := rmsLevel ap;
     clippingCount := clippingCount ap |}.

Definition GetPeakLevel (ap : APRSProcessor) : float := peakLevel ap.
Definition GetRMSLevel (ap : APRSProcessor) : float := rmsLevel ap.
Definition GetClippingCount (ap : APRSProcessor) : Z := clippingCount ap.

Definition ResetClippingCount (ap : APRSProcessor) : APRSProcessor :=
  {| noiseGateThreshold := noiseGateThreshold ap;
     compressionRatio := compressionRatio ap;
     peakThreshold := peakThreshold ap;
     isNoiseGateEnabled := isNoiseGateEnabled ap;
     isCompressorEnabled := isCompressorEnabled ap;
     isLimiterEnabled := isLimiterEnabled ap;
     peakLevel := peakLevel ap;
     rmsLevel := rmsLevel ap;
     clippingCount := 0%Z |}.

Local Close Scope float_scope.

(** ** config/config.go: the configuration the endpoints read *)

Record InputConfig : Type := {
  inDeviceName : string;
  inSampleRate : Z;
  inChannels : Z;
  inBufferSize : Z;
  inGain : float;
  inFormat : string
}.

Record OutputConfig : Type := {
  outDeviceName : string;
  outSampleRate : Z;
  outChannels : Z;
  outBufferSize : Z;
  outVolume : float;
  outFormat : string
}.

Record Config : Type := {
  AudioInput : InputConfig;
  AudioOutput : OutputConfig
}.

(** ** Errors

    The Go code builds every error with [fmt.Errorf]; one constructor
    stands for each message, named after what the message says. *)
Inductive error : Set :=
| InputAlreadyRunning      (* Input.Start: audio input is already running *)
| OutputAlreadyRunning     (* Output.Start: audio output is already running *)
| ManagerAlreadyRunning    (* Manager.StartInput: audio manager is already running *)
| InputNotStarted          (* Manager.StartOutput: audio input stream not started *)
| OutputNotRunning         (* Output.PlayAudio: audio output is not running *)
| QueueFull                (* Output.PlayAudio: audio queue is full *)
| UpdateWhileRunning       (* UpdateConfig: cannot update the configuration while running *)
| GainOutOfRange           (* Input.SetGain: gain must be within 0.0-2.0 *)
| VolumeOutOfRange         (* Output.SetVolume: volume must be within 0.0-1.0 *)
| NoDefaultDevice          (* Start: getting the default device failed *)
| DeviceNotSupported (deviceName : string)
| NoDeviceContext          (* Start: the device manager has no malgo context *)
| InitDeviceFailed         (* Start: creating the device failed *)
| StartDeviceFailed        (* Start: starting the device failed *)
| StartInputFailed (cause : error)     (* Manager.StartInput wraps the cause *)
| StartOutputFailed (cause : error)    (* Manager.StartOutput wraps the cause *)
| UpdateInputFailed (cause : error)    (* Manager.UpdateConfig wraps the cause *)
| UpdateOutputFailed (cause : error)   (* Manager.UpdateConfig wraps the cause *)
| InitContextFailed        (* NewDeviceManager: initialising the audio context failed *)
| EnumerateDevicesFailed   (* NewDeviceManager: enumerating the audio devices failed *)
| CreateDeviceManagerFailed (cause : error). (* NewManager wraps the cause *)

(** What the device catalogue and the malgo driver answer during one call
    of [Start]: both are outside the repository. *)
Record Driver : Type := {
  GetDefaultDevice : string -> option string;
  IsDeviceSupported : string -> string -> Z -> Z -> string -> bool;
  GetContext : bool;
  InitDevice : bool;
  DeviceStart : bool
}.

(** ** The gain and volume loops

    [Input.applyGain] and [Output.applyVolume] run the same loop over a
    block: every sample is multiplied by the factor, limited to the
    16-bit range, converted back to [int16] and written over the two
    bytes it was read from. *)

Section Scale.
Context `{Runtime}.

(** The body of the loop for one sample. *)
Definition scaleSample (factor : float) (sample : Z) : Z :=
  let adjusted := (floatOfZ sample * factor)%float in
  let adjusted :=
    if (32767 <? adjusted)%float then 32767%float
    else if (adjusted <? -32768)%float then (-32768)%float
    else adjusted in
  int16OfFloat adjusted.

Fixpoint scaleLoop (factor : float) (n j : Z) (data : list byte)
  : outcome (list byte) :=
  match data with
  | [] => Ret []
  | [_] => Panics (IndexOutOfRange (j + 1) n)
  | b0 :: b1 :: rest =>
      let sample := readSample b0 b1 in
      let adjustedSample := scaleSample factor sample in
      rest' <- scaleLoop factor n (j + 2) rest ;;
      Ret (lowByte adjustedSample :: highByte adjustedSample :: rest')
  end.

End Scale.

(** [copy(dst, src)]: the first [min(len(dst), len(src))] bytes of [dst]
    are overwritten with those of [src]; the rest of [dst] stays. *)
Definition copyBytes (dst src : list byte) : list byte :=
  firstn (List.length dst) src ++ skipn (List.length src) dst.

(** ** audio/input.go *)

Module Input.

Record t : Type := {
  config : Config;
  device : bool;
  isRunning : bool;
  level : float;
  gain : float;
  buffer : list byte
}.

Definition NewInput (cfg : Config) : outcome t :=
  buffer <- makeBytes
    (wrapInt (wrapInt (inBufferSize (AudioInput cfg) * inChannels (AudioInput cfg)) * 2)) ;;
  Ret {| config := cfg;
         device := false;
         isRunning := false;
         level := 0.0%float;
         gain := inGain (AudioInput cfg);
         buffer := buffer |}.

Definition Start (i : t) (drv : Driver) : t * option error :=
  if isRunning i then (i, Some InputAlreadyRunning)
  else
    let lookup :=
      if String.eqb (inDeviceName (AudioInput (config i))) ""
      then GetDefaultDevice drv "input"
      else Some (inDeviceName (AudioInput (config i))) in
    match lookup with
    | None => (i, Some NoDefaultDevice)
    | Some deviceName =>
        if negb (IsDeviceSupported drv deviceName "input"
                   (inSampleRate (AudioInput (config i)))
                   (inChannels (AudioInput (config i)))
                   (inFormat (AudioInput (config i))))
        then (i, Some (DeviceNotSupported deviceName))
        else if negb (GetContext drv) then (i, Some NoDeviceContext)
        else if negb (InitDevice drv) then (i, Some InitDeviceFailed)
        else if negb (DeviceStart drv) then (i, Some StartDeviceFailed)
        else
          ({| config := config i;
              device := true;
              isRunning := true;
              level := level i;
              gain := gain i;
              buffer := buffer i |}, None)
    end.

Definition Stop (i : t) : t * option error :=
  if negb (isRunning i) then (i, None)
  else
    ({| config := config i;
        device := false;
        isRunning := false;
        level := level i;
        gain := gain i;
        buffer := buffer i |}, None).

Definition Close (i : t) : t * option error := Stop i.

Definition setLevel (i : t) (l : float) : t :=
  {| config := config i;
     device := device i;
     isRunning := isRunning i;
     level := l;
     gain := gain i;
     buffer := buffer i |}.

Section Level.
Context `{Runtime}.

(** The loop of [calculateLevel]: the square is taken on the [int16]
    sample, before the conversion to [float64]. *)
Fixpoint levelLoop (n j : Z) (data : list byte) (sum : float)
  : outcome float :=
  match data with
  | [] => Ret sum
  | [_] => Panics (IndexOutOfRange (j + 1) n)
  | b0 :: b1 :: rest =>
      let sample := readSample b0 b1 in
      let sum := (sum + floatOfZ (wrap16 (sample * sample)))%float in
      levelLoop n (j + 2) rest sum
  end.

Definition calculateLevel (i : t) (data : list byte) : outcome t :=
  let n := Z.of_nat (List.length data) in
  if n =? 0 then Ret (setLevel i 0.0%float)
  else
    let sampleCount := n / 2 in
    sum <- levelLoop n 0 data 0%float ;;
    let rms := sqrt (sum / floatOfZ sampleCount)%float in
    if (0 <? rms)%float
    then Ret (setLevel i (20 * Log10 (rms / 32767.0))%float)
    else Ret (setLevel i (-96.0)%float).

End Level.

Definition GetLevel (i : t) : float := level i.

Definition SetGain (i : t) (g : float) : t * option error :=
  if (g <? 0.0)%float || (2.0 <? g)%float then (i, Some GainOutOfRange)
  else
    ({| config := config i;
        device := device i;
        isRunning := isRunning i;
        level := level i;
        gain := g;
        buffer := buffer i |}, None).

Definition GetGain (i : t) : float := gain i.
Definition IsRunning (i : t) : bool := isRunning i.

Definition UpdateConfig (i : t) (newConfig : Config) : outcome (t * option error) :=
  if isRunning i then Ret (i, Some UpdateWhileRunning)
  else
    buffer <- makeBytes
      (wrapInt (wrapInt (inBufferSize (AudioInput newConfig)
                         * inChannels (AudioInput newConfig)) * 2)) ;;
    Ret ({| config := newConfig;
            device := device i;
            isRunning := isRunning i;
            level := level i;
            gain := inGain (AudioInput newConfig);
            buffer := buffer |}, None).

Definition GetBuffer (i : t) : list byte := buffer i.
Definition GetConfig (i : t) : Config := config i.

Definition setBuffer (i : t) (b : list byte) : t :=
  {| config := config i;
     device := device i;
     isRunning := isRunning i;
     level := level i;
     gain := gain i;
     buffer := b |}.

Section Callback.
Context `{Runtime}.

(** [applyGain] rewrites the whole of [i.buffer]. *)
Definition applyGain (i : t) : outcome t :=
  if (gain i =? 1.0)%float then Ret i
  else
    buffer' <- scaleLoop (gain i) (Z.of_nat (List.length (buffer i))) 0 (buffer i) ;;
    Ret (setBuffer i buffer').

(** [dataCallback] is what the capture device calls with each block it
    has recorded.  The client's callback, when one is set, is then
    handed [i.buffer] as this function leaves it. *)
Definition dataCallback (i : t) (pInputSamples : list byte) : outcome t :=
  if negb (isRunning i) then Ret i
  else
    let i := setBuffer i (copyBytes (buffer i) pInputSamples) in
    i <- calculateLevel i pInputSamples ;;
    if negb (gain i =? 1.0)%float then applyGain i else Ret i.

End Callback.


End Input.

(** ** The playback endpoint (Output) *)

Module Output.

(** A buffered channel of blocks: what it holds, oldest first, and the
    capacity it was made with. *)
Record chan : Type := {
  held : list (list byte);
  capacity : nat
}.

Definition makeChan (cap : nat) : chan := {| held := []; capacity := cap |}.
Definition len (c : chan) : nat := List.length (held c).

(** [select { case c <- data: ... default: ... }]: the send goes through
    when the buffer has room, otherwise the default case runs. *)
Definition trySend (c : chan) (data : list byte) : option chan :=
  if (len c <? capacity c)%nat
  then Some {| held := held c ++ [data]; capacity := capacity c |}
  else None.

(** [select { case data := <-c: ... default: ... }] *)
Definition tryReceive (c : chan) : option (list byte * chan) :=
  match held c with
  | [] => None
  | data :: rest => Some (data, {| held := rest; capacity := capacity c |})
  end.

Record t : Type := {
  config : Config;
  device : bool;
  isRunning : bool;
  level : float;
  volume : float;
  buffer : list byte;
  queue : chan
}.

Definition NewOutput (cfg : Config) : outcome t :=
  buffer <- makeBytes
    (wrapInt (wrapInt (outBufferSize (AudioOutput cfg) * outChannels (AudioOutput cfg)) * 2)) ;;
  Ret {| config := cfg;
         device := false;
         isRunning := false;
         level := 0.0%float;
         volume := outVolume (AudioOutput cfg);
         buffer := buffer;
         queue := makeChan 10 |}.

Definition Start (o : t) (drv : Driver) : t * option error :=
  if isRunning o then (o, Some OutputAlreadyRunning)
  else
    let lookup :=
      if String.eqb (outDeviceName (AudioOutput (config o))) ""
      then GetDefaultDevice drv "output"
      else Some (outDeviceName (AudioOutput (config o))) in
    match lookup with
    | None => (o, Some NoDefaultDevice)
    | Some deviceName =>
        if negb (IsDeviceSupported drv deviceName "output"
                   (outSampleRate (AudioOutput (config o)))
                   (outChannels (AudioOutput (config o)))
                   (outFormat (AudioOutput (config o))))
        then (o, Some (DeviceNotSupported deviceName))
        else if negb (GetContext drv) then (o, Some NoDeviceContext)
        else if negb (InitDevice drv) then (o, Some InitDeviceFailed)
        else if negb (DeviceStart drv) then (o, Some StartDeviceFailed)
        else
          ({| config := config o;
              device := true;
              isRunning := true;
              level := level o;
              volume := volume o;
              buffer := buffer o;
              queue := queue o |}, None)
    end.

Definition Stop (o : t) : t * option error :=
  if negb (isRunning o) then (o, None)
  else
    ({| config := config o;
        device := false;
        isRunning := false;
        level := level o;
        volume := volume o;
        buffer := buffer o;
        queue := queue o |}, None).

Definition Close (o : t) : t * option error := Stop o.

Definition setQueue (o : t) (q : chan) : t :=
  {| config := config o;
     device := device o;
     isRunning := isRunning o;
     level := level o;
     volume := volume o;
     buffer := buffer o;
     queue := q |}.

Definition PlayAudio (o : t) (data : list byte) : t * option error :=
  if negb (isRunning o) then (o, Some OutputNotRunning)
  else
    match trySend (queue o) data with
    | Some q => (setQueue o q, None)
    | None => (o, Some QueueFull)
    end.

Definition GetLevel (o : t) : float := level o.

Definition SetVolume (o : t) (v : float) : t * option error :=
  if (v <? 0.0)%float || (1.0 <? v)%float then (o, Some VolumeOutOfRange)
  else
    ({| config := config o;
        device := device o;
        isRunning := isRunning o;
        level := level o;
        volume := v;
        buffer := buffer o;
        queue := queue o |}, None).

Definition GetVolume (o : t) : float := volume o.
Definition IsRunning (o : t) : bool := isRunning o.

Definition UpdateConfig (o : t) (newConfig : Config) : outcome (t * option error) :=
  if isRunning o then Ret (o, Some UpdateWhileRunning)
  else
    buffer <- makeBytes
      (wrapInt (wrapInt (outBufferSize (AudioOutput newConfig)
                         * outChannels (AudioOutput newConfig)) * 2)) ;;
    Ret ({| config := newConfig;
            device := device o;
            isRunning := isRunning o;
            level := level o;
            volume := outVolume (AudioOutput newConfig);
            buffer := buffer;
            queue := queue o |}, None).

Definition GetBuffer (o : t) : list byte := buffer o.
Definition GetConfig (o : t) : Config := config o.
Definition GetQueueSize (o : t) : Z := Z.of_nat (len (queue o)).

(** [for len(o.queue) > 0 { <-o.queue }] *)
Definition ClearQueue (o : t) : t :=
  setQueue o {| held := []; capacity := capacity (queue o) |}.

Definition setLevel (o : t) (l : float) : t :=
  {| config := config o;
     device := device o;
     isRunning := isRunning o;
     level := l;
     volume := volume o;
     buffer := buffer o;
     queue := queue o |}.

Section Callback.
Context `{Runtime}.

(** [applyVolume] rewrites the block it is given. *)
Definition applyVolume (o : t) (data : list byte) : outcome (list byte) :=
  scaleLoop (volume o) (Z.of_nat (List.length data)) 0 data.

(** [calculateLevel] is, line for line, the function of the same name
    of [Input]; its loop is [Input.levelLoop]. *)
Definition calculateLevel (o : t) (data : list byte) : outcome t :=
  let n := Z.of_nat (List.length data) in
  if n =? 0 then Ret (setLevel o 0.0%float)
  else
    let sampleCount := n / 2 in
    sum <- Input.levelLoop n 0 data 0%float ;;
    let rms := sqrt (sum / floatOfZ sampleCount)%float in
    if (0 <? rms)%float
    then Ret (setLevel o (20 * Log10 (rms / 32767.0))%float)
    else Ret (setLevel o (-96.0)%float).

(** [dataCallback] is what the playback device calls for each block it
    wants: it returns the endpoint and the contents it leaves in
    [pOutputSample].  The queue holds the slices [PlayAudio] was given,
    not copies, and [applyVolume] writes into the slice it is handed:
    [held] lists the contents of the slices as they are when the
    callback runs, each of them a slice of its own. *)
Definition dataCallback (o : t) (pOutputSample : list byte)
  : outcome (t * list byte) :=
  if negb (isRunning o) then Ret (o, pOutputSample)
  else
    match tryReceive (queue o) with
    | Some (data, q) =>
        let o := setQueue o q in
        data <- (if negb (volume o =? 1.0)%float then applyVolume o data
                 else Ret data) ;;
        let pOutputSample := copyBytes pOutputSample data in
        o <- calculateLevel o data ;;
        Ret (o, pOutputSample)
    | None =>
        Ret (setLevel o (-96.0)%float,
             repeat x00 (List.length pOutputSample))
    end.

End Callback.


End Output.

(** ** audio/manager.go, as built for the platforms that use [NewInput]
       and [NewOutput] *)

Module Manager.

Record t : Type := {
  config : Config;
  input : Input.t;
  output : Output.t;
  aprsProcessor : APRSProcessor;
  isRunning : bool
}.

(** [NewManager] first calls [NewDeviceManager()], which opens the audio
    context and enumerates the devices of the platform: [newDeviceManager]
    is the error that call returned, [None] for [nil].  On an error
    [NewManager] returns it wrapped, and no manager, before anything is
    allocated.  The device manager itself is consulted by [Start], where
    its answers are the [Driver]; [NewInput] and [NewOutput] never return
    an error. *)
Definition NewManager (newDeviceManager : option error) (cfg : Config)
  : outcome (option t * option error) :=
  match newDeviceManager with
  | Some err => Ret (None, Some (CreateDeviceManagerFailed err))
  | None =>
      input <- Input.NewInput cfg ;;
      output <- Output.NewOutput cfg ;;
      Ret (Some {| config := cfg;
                   input := input;
                   output := output;
                   aprsProcessor := NewAPRSProcessor;
                   isRunning := false |}, None)
  end.

Definition StartInput (m : t) (drv : Driver) : t * option error :=
  if isRunning m then (m, Some ManagerAlreadyRunning)
  else
    match Input.Start (input m) drv with
    | (i, Some err) =>
        ({| config := config m; input := i; output := output m;
            aprsProcessor := aprsProcessor m; isRunning := isRunning m |},
         Some (StartInputFailed err))
    | (i, None) =>
        ({| config := config m; input := i; output := output m;
            aprsProcessor := aprsProcessor m; isRunning := true |}, None)
    end.

Definition StartOutput (m : t) (drv : Driver) : t * option error :=
  if negb (isRunning m) then (m, Some InputNotStarted)
  else
    match Output.Start (output m) drv with
    | (o, Some err) =>
        ({| config := config m; input := input m; output := o;
            aprsProcessor := aprsProcessor m; isRunning := isRunning m |},
         Some (StartOutputFailed err))
    | (o, None) =>
        ({| config := config m; input := input m; output := o;
            aprsProcessor := aprsProcessor m; isRunning := isRunning m |}, None)
    end.

(** The errors of the two endpoint stops are logged, not returned. *)
Definition Stop (m : t) : t * option error :=
  if negb (isRunning m) then (m, None)
  else
    let (i, _) := Input.Stop (input m) in
    let (o, _) := Output.Stop (output m) in
    ({| config := config m; input := i; output := o;
        aprsProcessor := aprsProcessor m; isRunning := false |}, None).

Definition IsRunning (m : t) : bool := isRunning m.

(** [Close] stops, then closes the endpoints; their errors are logged. *)
Definition Close (m : t) : t * option error :=
  let (m1, _) := Stop m in
  let (i, _) := Input.Close (input m1) in
  let (o, _) := Output.Close (output m1) in
  ({| config := config m1; input := i; output := o;
      aprsProcessor := aprsProcessor m1; isRunning := isRunning m1 |}, None).

(** [UpdateConfig] stores the new configuration before it asks the
    endpoints to take it. *)
Definition UpdateConfig (m : t) (newConfig : Config) : outcome (t * option error) :=
  if isRunning m then Ret (m, Some UpdateWhileRunning)
  else
    ' (i, err) <- Input.UpdateConfig (input m) newConfig ;;
    match err with
    | Some e =>
        Ret ({| config := newConfig; input := i; output := output m;
                aprsProcessor := aprsProcessor m; isRunning := isRunning m |},
             Some (UpdateInputFailed e))
    | None =>
        ' (o, err) <- Output.UpdateConfig (output m) newConfig ;;
        match err with
        | Some e =>
            Ret ({| config := newConfig; input := i; output := o;
                    aprsProcessor := aprsProcessor m; isRunning := isRunning m |},
                 Some (UpdateOutputFailed e))
        | None =>
            Ret ({| config := newConfig; input := i; output := o;
                    aprsProcessor := aprsProcessor m; isRunning := isRunning m |},
                 None)
        end
    end.

Definition SetInputGain (m : t) (g : float) : t * option error :=
  let (i, err) := Input.SetGain (input m) g in
  ({| config := config m; input := i; output := output m;
      aprsProcessor := aprsProcessor m; isRunning := isRunning m |}, err).

Definition SetOutputVolume (m : t) (v : float) : t * option error :=
  let (o, err) := Output.SetVolume (output m) v in
  ({| config := config m; input := input m; output := o;
      aprsProcessor := aprsProcessor m; isRunning := isRunning m |}, err).

Definition setProcessor (m : t) (ap : APRSProcessor) : t :=
  {| config := config m; input := input m; output := output m;
     aprsProcessor := ap; isRunning := isRunning m |}.

Definition SetAPRSNoiseGate (m : t) (threshold : float) : t :=
  setProcessor m (SetNoiseGateThreshold (aprsProcessor m) threshold).

Definition SetAPRSCompression (m : t) (ratio : float) : t :=
  setProcessor m (SetCompressionRatio (aprsProcessor m) ratio).

Definition SetAPRSPeakThreshold (m : t) (threshold : float) : t :=
  setProcessor m (SetPeakThreshold (aprsProcessor m) threshold).

(** The calls a client of the manager can make on it, and a run of them;
    the error a call returns is dropped here, the manager it leaves is
    kept. *)
Inductive Call : Type :=
| CallStartInput (drv : Driver)
| CallStartOutput (drv : Driver)
| CallStop
| CallClose
| CallUpdateConfig (newConfig : Config)
| CallSetInputGain (g : float)
| CallSetOutputVolume (v : float)
| CallSetAPRSNoiseGate (threshold : float)
| CallSetAPRSCompression (ratio : float)
| CallSetAPRSPeakThreshold (threshold : float).

Definition step (m : t) (c : Call) : outcome t :=
  match c with
  | CallStartInput drv => Ret (fst (StartInput m drv))
  | CallStartOutput drv => Ret (fst (StartOutput m drv))
  | CallStop => Ret (fst (Stop m))
  | CallClose => Ret (fst (Close m))
  | CallUpdateConfig newConfig =>
      ' (m', _) <- UpdateConfig m newConfig ;; Ret m'
  | CallSetInputGain g => Ret (fst (SetInputGain m g))
  | CallSetOutputVolume v => Ret (fst (SetOutputVolume m v))
  | CallSetAPRSNoiseGate t => Ret (SetAPRSNoiseGate m t)
  | CallSetAPRSCompression r => Ret (SetAPRSCompression m r)
  | CallSetAPRSPeakThreshold t => Ret (SetAPRSPeakThreshold m t)
  end.

Fixpoint run (m : t) (calls : list Call) : outcome t :=
  match calls with
  | [] => Ret m
  | c :: rest => m' <- step m c ;; run m' rest
  end.

End Manager.

(** ** The device catalogue (DeviceManager) *)

Record DeviceInfo : Type := {
  ID : string;
  Name : string;
  Type_ : string;
  SampleRates : list Z;
  Channels : list Z;
  Formats : list string;
  IsDefault : bool
}.

Module DeviceManager.

(** What malgo reports for one device, as [enumerateDevices] reads it:
    [device.ID.String()], [strings.TrimSpace(device.Name())] and
    [device.IsDefault]. *)
Record malgoDevice : Type := {
  devID : string;
  devName : string;
  devIsDefault : Z
}.

Definition deviceInfo (deviceType : string) (device : malgoDevice) : DeviceInfo :=
  {| ID := devID device;
     Name := devName device;
     Type_ := deviceType;
     SampleRates := [8000; 11025; 16000; 22050; 44100; 48000; 96000];
     Channels := [1; 2; 4; 6; 8];
     Formats := ["int16"%string; "float32"%string];
     IsDefault := negb (devIsDefault device =? 0) |}.

(** [enumerateDevices] appends to [dm.devices] the capture devices and
    then the playback devices malgo lists. *)
Definition enumerateDevices (devices : list DeviceInfo)
  (inputDevices outputDevices : list malgoDevice) : list DeviceInfo :=
  (devices ++ map (deviceInfo "input") inputDevices)
  ++ map (deviceInfo "output") outputDevices.

(** [RefreshDevices] empties the list before it enumerates. *)
Definition RefreshDevices (inputDevices outputDevices : list malgoDevice)
  : list DeviceInfo :=
  enumerateDevices [] inputDevices outputDevices.

Fixpoint GetDeviceByName (devices : list DeviceInfo) (name deviceType : string)
  : option DeviceInfo :=
  match devices with
  | [] => None
  | device :: rest =>
      if String.eqb (Name device) name && String.eqb (Type_ device) deviceType
      then Some device
      else GetDeviceByName rest name deviceType
  end.

Fixpoint GetDefaultDevice (devices : list DeviceInfo) (deviceType : string)
  : option DeviceInfo :=
  match devices with
  | [] => None
  | device :: rest =>
      if String.eqb (Type_ device) deviceType && IsDefault device
      then Some device
      else GetDefaultDevice rest deviceType
  end.

Fixpoint GetDevicesByType (devices : list DeviceInfo) (deviceType : string)
  : list DeviceInfo :=
  match devices with
  | [] => []
  | device :: rest =>
      if String.eqb (Type_ device) deviceType
      then device :: GetDevicesByType rest deviceType
      else GetDevicesByType rest deviceType
  end.

Definition GetAllDevices (devices : list DeviceInfo) : list DeviceInfo := devices.
Definition GetDeviceCount (devices : list DeviceInfo) : Z :=
  Z.of_nat (List.length devices).

Definition IsDeviceSupported (devices : list DeviceInfo)
  (deviceName deviceType : string) (sampleRate channels : Z) (format : string)
  : bool :=
  match GetDeviceByName devices deviceName deviceType with
  | None => false
  | Some device =>
      let sampleRateSupported :=
        existsb (fun sr => sr =? sampleRate) (SampleRates device) in
      let channelsSupported :=
        existsb (fun ch => ch =? channels) (Channels device) in
      let formatSupported :=
        existsb (fun fmt => String.eqb fmt format) (Formats device) in
      sampleRateSupported && channelsSupported && formatSupported
  end.

End DeviceManager.

(** The Linux and the macOS catalogues look devices up with the code of
    [DeviceManager], except for the default device: without a device
    marked default they fall back to the first one of the type. *)
Module PlatformDeviceManager.

Fixpoint firstOfType (devices : list DeviceInfo) (deviceType : string)
  : option DeviceInfo :=
  match devices with
  | [] => None
  | device :: rest =>
      if String.eqb (Type_ device) deviceType then Some device
      else firstOfType rest deviceType
  end.

Definition GetDefaultDevice (devices : list DeviceInfo) (deviceType : string)
  : option DeviceInfo :=
  match DeviceManager.GetDefaultDevice devices deviceType with
  | Some device => Some device
  | None => firstOfType devices deviceType
  end.

End PlatformDeviceManager.

(** What [Input.Start] and [Output.Start] are answered when the
    endpoint's [devices] is a [DeviceManager] holding [devices]. *)
Definition driverOf (devices : list DeviceInfo)
  (context initDevice deviceStart : bool) : Driver :=
  {| GetDefaultDevice := fun deviceType =>
       option_map Name (DeviceManager.GetDefaultDevice devices deviceType);
     IsDeviceSupported := DeviceManager.IsDeviceSupported devices;
     GetContext := context;
     InitDevice := initDevice;
     DeviceStart := deviceStart |}.

(** ** The macOS capture endpoint (macOSInput) *)

Module macOSInput.

Inductive startError : Set :=
| AlreadyRunning                        (* Start: audio input is already running *)
| NoDefaultInputDevice                  (* Start: getting the default input device failed *)
| ConfigurationNotSupported (deviceName : string)
| DeviceNotListed (deviceName : string) (* testDeviceAccess *)
| TestDeviceAccessFailed (cause : startError). (* Start wraps the cause *)

Record t : Type := {
  config : Config;
  devices : list DeviceInfo;
  isRunning : bool;
  level : float;
  gain : float;
  buffer : list byte;
  deviceName : string
}.

Definition newMacOSInput (cfg : Config) (devices : list DeviceInfo) : outcome t :=
  buffer <- makeBytes
    (wrapInt (wrapInt (inBufferSize (AudioInput cfg) * inChannels (AudioInput cfg)) * 2)) ;;
  Ret {| config := cfg;
         devices := devices;
         isRunning := false;
         level := 0.0%float;
         gain := inGain (AudioInput cfg);
         buffer := buffer;
         deviceName := "" |}.

Definition setDeviceName (i : t) (name : string) : t :=
  {| config := config i;
     devices := devices i;
     isRunning := isRunning i;
     level := level i;
     gain := gain i;
     buffer := buffer i;
     deviceName := name |}.

Definition testDeviceAccess (i : t) : option startError :=
  match DeviceManager.GetDeviceByName (devices i) (deviceName i) "input" with
  | None => Some (DeviceNotListed (deviceName i))
  | Some _ => None
  end.

Definition Start (i : t) : t * option startError :=
  if isRunning i then (i, Some AlreadyRunning)
  else
    let lookup :=
      if String.eqb (inDeviceName (AudioInput (config i))) ""
      then option_map Name (PlatformDeviceManager.GetDefaultDevice (devices i) "input")
      else Some (inDeviceName (AudioInput (config i))) in
    match lookup with
    | None => (i, Some NoDefaultInputDevice)
    | Some name =>
        let i := setDeviceName i name in
        if negb (DeviceManager.IsDeviceSupported (devices i) name "input"
                   (inSampleRate (AudioInput (config i)))
                   (inChannels (AudioInput (config i)))
                   (inFormat (AudioInput (config i))))
        then (i, Some (ConfigurationNotSupported name))
        else
          match testDeviceAccess i with
          | Some err => (i, Some (TestDeviceAccessFailed err))
          | None =>
              ({| config := config i;
                  devices := devices i;
                  isRunning := true;
                  level := level i;
                  gain := gain i;
                  buffer := buffer i;
                  deviceName := deviceName i |}, None)
          end
    end.

End macOSInput.

(** ** config/config.go: validateConfig *)

Record ProcessingConfig : Type := {
  EchoCancellation : bool;
  NoiseSuppression : bool;
  AutoGainControl : bool;
  Format : string
}.

Inductive ValidationError : Set :=
| InputSampleRateNotPositive
| OutputSampleRateNotPositive
| InputChannelsOutOfRange      (* input channels must be within 1-8 *)
| OutputChannelsOutOfRange
| InputBufferSizeNotPositive
| OutputBufferSizeNotPositive
| InputGainOutOfRange          (* input gain must be within 0.0-2.0 *)
| OutputVolumeOutOfRange       (* output volume must be within 0.0-1.0 *)
| UnknownFormat.               (* the format must be 'int16' or 'float32' *)

(** [config.Audio.Input] and [config.Audio.Output] are the two parts of
    [Config]; [config.Audio.Processing] is passed beside them. *)
Definition validateConfig (config : Config) (processing : ProcessingConfig)
  : option ValidationError :=
  if inSampleRate (AudioInput config) <=? 0 then Some InputSampleRateNotPositive
  else if outSampleRate (AudioOutput config) <=? 0 then Some OutputSampleRateNotPositive
  else if (inChannels (AudioInput config) <=? 0)
          || (8 <? inChannels (AudioInput config))
       then Some InputChannelsOutOfRange
  else if (outChannels (AudioOutput config) <=? 0)
          || (8 <? outChannels (AudioOutput config))
       then Some OutputChannelsOutOfRange
  else if inBufferSize (AudioInput config) <=? 0 then Some InputBufferSizeNotPositive
  else if outBufferSize (AudioOutput config) <=? 0 then Some OutputBufferSizeNotPositive
  else if (inGain (AudioInput config) <? 0)%float
          || (2 <? inGain (AudioInput config))%float
       then Some InputGainOutOfRange
  else if (outVolume (AudioOutput config) <? 0)%float
          || (1 <? outVolume (AudioOutput config))%float
       then Some OutputVolumeOutOfRange
  else if negb (String.eqb (Format processing) "int16")
          && negb (String.eqb (Format processing) "float32")
       then Some UnknownFormat
  else None.


(** Whenever the manager says it is running, its input endpoint is
    running: only [StartInput] sets the flag, after the endpoint's own
    [Start] succeeded, and only the manager stops the endpoint. *)
Definition inputStarted (m : Manager.t) : Prop :=
  Manager.isRunning m = true -> Input.isRunning (Manager.input m) = true.

(** The configuration [setDefaults] describes: 8000 Hz, one channel,
    buffers of 256 frames, gain 1.2 and volume 0.8. *)
Definition defaultConfig : Config := {|
  AudioInput := {| inDeviceName := ""; inSampleRate := 8000; inChannels := 1;
                   inBufferSize := 256; inGain := 0x1.3333333333333p+0%float;
                   inFormat := "int16" |};
  AudioOutput := {| outDeviceName := ""; outSampleRate := 8000; outChannels := 1;
                    outBufferSize := 256; outVolume := 0x1.999999999999ap-1%float;
                    outFormat := "int16" |}
|}.

(** A driver with a default device that supports every format and
    starts. *)
Definition workingDriver : Driver := {|
  GetDefaultDevice := fun _ => Some "default"%string;
  IsDeviceSupported := fun _ _ _ _ _ => true;
  GetContext := true;
  InitDevice := true;
  DeviceStart := true
|}.

(** ** Predicates and calls the properties are stated with *)

(** The limiter's test: the magnitude of [s] exceeds the ceiling. *)
Definition exceeds (thr : float) (s : Z) : bool := (thr <? abs (floatOfZ s))%float.

(** How many samples of a block exceed the ceiling. *)
Definition exceeding (thr : float) (data : list byte) : Z :=
  Z.of_nat (List.length (filter (exceeds thr) (samples data))).

(** A block of [k] pairs of full-scale samples, +32767 then -32767. *)
Fixpoint fullScale (k : nat) : list Z :=
  match k with
  | O => []
  | S k' => 32767 :: -32767 :: fullScale k'
  end.

(** The calls that write to an [APRSProcessor]. *)
Inductive ProcessorCall : Type :=
| CallProcessAudio (input : list byte) (sampleRate channels : Z)
| CallSetNoiseGateThreshold (threshold : float)
| CallSetCompressionRatio (ratio : float)
| CallSetPeakThreshold (threshold : float)
| CallEnableNoiseGate (enabled : bool)
| CallEnableCompressor (enabled : bool)
| CallEnableLimiter (enabled : bool)
| CallResetClippingCount.

Definition call `{Runtime} (ap : APRSProcessor) (c : ProcessorCall)
  : outcome APRSProcessor :=
  match c with
  | CallProcessAudio input sampleRate channels =>
      ' (ap', _) <- ProcessAudio ap input sampleRate channels ;; Ret ap'
  | CallSetNoiseGateThreshold t => Ret (SetNoiseGateThreshold ap t)
  | CallSetCompressionRatio r => Ret (SetCompressionRatio ap r)
  | CallSetPeakThreshold t => Ret (SetPeakThreshold ap t)
  | CallEnableNoiseGate b => Ret (EnableNoiseGate ap b)
  | CallEnableCompressor b => Ret (EnableCompressor ap b)
  | CallEnableLimiter b => Ret (EnableLimiter ap b)
  | CallResetClippingCount => Ret (ResetClippingCount ap)
  end.

(** The capture or the playback devices malgo reported, by the name of
    the direction. *)
Definition reported (inputDevices outputDevices : list DeviceManager.malgoDevice)
  (deviceType : string) : list DeviceManager.malgoDevice :=
  if String.eqb "input" deviceType then inputDevices
  else if String.eqb "output" deviceType then outputDevices
  else [].

(** Whether [Start] finds a device to open for the configured name: the
    name itself when it is not empty, a device marked default
    otherwise. *)
Definition pickable (candidates : list DeviceManager.malgoDevice)
  (configured : string) : Prop :=
  if String.eqb configured ""
  then exists d, In d candidates /\ DeviceManager.devIsDefault d <> 0
  else exists d, In d candidates /\ DeviceManager.devName d = configured.

(** A client queueing blocks one after the other; the errors are
    dropped, the endpoint each call leaves is kept. *)
Definition playAll (o : Output.t) (blocks : list (list byte)) : Output.t :=
  fold_left (fun o data => fst (Output.PlayAudio o data)) blocks o.

(** The playback device asking [k] times for a block, each time with a
    buffer that holds [pOutputSample]: the endpoint at the end and what
    each call left in the buffer. *)
Fixpoint drain `{Runtime} (o : Output.t) (pOutputSample : list byte) (k : nat)
  : outcome (Output.t * list (list byte)) :=
  match k with
  | O => Ret (o, [])
  | S k' =>
      ' (o, played) <- Output.dataCallback o pOutputSample ;;
      ' (o, rest) <- drain o pOutputSample k' ;;
      Ret (o, played :: rest)
  end.

(** The invariant of the manager's three flags: the capture endpoint
    runs exactly when the manager says it runs, the playback endpoint
    only then, and each endpoint holds a device exactly while it
    runs. *)
Definition flagsAgree (m : Manager.t) : Prop :=
  Input.isRunning (Manager.input m) = Manager.isRunning m
  /\ (Output.isRunning (Manager.output m) = true -> Manager.isRunning m = true)
  /\ Input.device (Manager.input m) = Input.isRunning (Manager.input m)
  /\ Output.device (Manager.output m) = Output.isRunning (Manager.output m).

(** A sample [o] is no louder than [s] and not of the opposite sign. *)
Definition attenuated (s o : Z) : Prop :=
  Z.abs o <= Z.abs s /\ (0 < o -> 0 < s) /\ (o < 0 -> s < 0).

(** What can happen to a capture endpoint, as calls of its client and of
    the capture device, and a run of them; errors are dropped, a panic
    ends the run. *)
Inductive InputCall : Type :=
| InputStart (drv : Driver)
| InputStop
| InputClose
| InputDataCallback (pInputSamples : list byte)
| InputSetGain (g : float)
| InputUpdateConfig (newConfig : Config).

Definition inputStep `{Runtime} (i : Input.t) (c : InputCall) : outcome Input.t :=
  match c with
  | InputStart drv => Ret (fst (Input.Start i drv))
  | InputStop => Ret (fst (Input.Stop i))
  | InputClose => Ret (fst (Input.Close i))
  | InputDataCallback pInputSamples => Input.dataCallback i pInputSamples
  | InputSetGain g => Ret (fst (Input.SetGain i g))
  | InputUpdateConfig newConfig =>
      ' (i', _) <- Input.UpdateConfig i newConfig ;; Ret i'
  end.

Fixpoint inputRun `{Runtime} (i : Input.t) (calls : list InputCall)
  : outcome Input.t :=
  match calls with
  | [] => Ret i
  | c :: rest => i' <- inputStep i c ;; inputRun i' rest
  end.

(** The same for a playback endpoint. *)
Inductive OutputCall : Type :=
| OutputStart (drv : Driver)
| OutputStop
| OutputClose
| OutputPlayAudio (data : list byte)
| OutputDataCallback (pOutputSample : list byte)
| OutputSetVolume (v : float)
| OutputUpdateConfig (newConfig : Config)
| OutputClearQueue.

Definition outputStep `{Runtime} (o : Output.t) (c : OutputCall) : outcome Output.t :=
  match c with
  | OutputStart drv => Ret (fst (Output.Start o drv))
  | OutputStop => Ret (fst (Output.Stop o))
  | OutputClose => Ret (fst (Output.Close o))
  | OutputPlayAudio data => Ret (fst (Output.PlayAudio o data))
  | OutputDataCallback pOutputSample =>
      ' (o', _) <- Output.dataCallback o pOutputSample ;; Ret o'
  | OutputSetVolume v => Ret (fst (Output.SetVolume o v))
  | OutputUpdateConfig newConfig =>
      ' (o', _) <- Output.UpdateConfig o newConfig ;; Ret o'
  | OutputClearQueue => Ret (Output.ClearQueue o)
  end.

Fixpoint outputRun `{Runtime} (o : Output.t) (calls : list OutputCall)
  : outcome Output.t :=
  match calls with
  | [] => Ret o
  | c :: rest => o' <- outputStep o c ;; outputRun o' rest
  end.

(** The byte length [NewInput], [NewOutput] and [UpdateConfig] compute
    for a buffer, in [int] arithmetic. *)
Definition bufferLen (bufferSize channels : Z) : Z :=
  wrapInt (wrapInt (bufferSize * channels) * 2).

(** What holds of a capture endpoint from [NewInput] on. *)
Definition inputSound (i : Input.t) : Prop :=
  Z.of_nat (List.length (Input.buffer i))
  = bufferLen (inBufferSize (AudioInput (Input.config i)))
              (inChannels (AudioInput (Input.config i)))
  /\ Nat.even (List.length (Input.buffer i)) = true
  /\ Input.device i = Input.isRunning i.

(** What holds of a playback endpoint from [NewOutput] on. *)
Definition outputSound (o : Output.t) : Prop :=
  Z.of_nat (List.length (Output.buffer o))
  = bufferLen (outBufferSize (AudioOutput (Output.config o)))
              (outChannels (AudioOutput (Output.config o)))
  /\ Nat.even (List.length (Output.buffer o)) = true
  /\ Output.device o = Output.isRunning o
  /\ Output.capacity (Output.queue o) = 10%nat
  /\ (Output.len (Output.queue o) <= 10)%nat.

(** The largest magnitude among the samples of a block. *)
Definition maxAbs (ss : list Z) : Z :=
  fold_left (fun m s => Z.max m (Z.abs s)) ss 0.

(** The sum of the squares of the samples of a block. *)
Definition sumSquares (ss : list Z) : Z :=
  fold_left (fun a s => a + s * s) ss 0.

(** A runtime to evaluate examples with.  [Pow] answers the powers of ten
    that [math.Pow] returns for the exponents 0, -1 and -2 (1, and the
    binary64 values nearest to 0.1 and 0.01) and NaN elsewhere; [Log10]
    answers 0 at 1 and NaN elsewhere; an unrepresentable conversion
    yields 0. *)
#[global] Instance exampleRuntime : Runtime := {|
  Pow := fun x y =>
    if (x =? 10)%float && (y =? 0)%float then 1%float
    else if (x =? 10)%float && (y =? -1)%float then 0x1.999999999999ap-4%float
    else if (x =? 10)%float && (y =? -2)%float then 0x1.47ae147ae147bp-7%float
    else nan;
  Log10 := fun x => if (x =? 1)%float then 0%float else nan;
  int16Unrepresentable := fun _ => 0
|}.


(** * Properties *)

(** ** Binary64 order

    Comparisons of valid binary64 values agree with the integer order of
    their scaled values. *)

Lemma digits2_pos_size p : digits2_pos p = Pos.size p.
Proof. induction p; simpl; congruence. Qed.

Lemma bounded_inv m e :
  bounded prec emax m e = true ->
  -1074 <= e <= 971 /\ Zpos m < 2 ^ 53 /\ (e = -1074 \/ 2 ^ 52 <= Zpos m).
Proof.
  unfold bounded, canonical_mantissa, fexp, SpecFloat.emin, prec, emax.
  rewrite andb_true_iff, Z.eqb_eq, Z.leb_le, digits2_pos_size.
  intros [Hc He].
  pose proof (Pos.size_gt m) as Hgt.
  pose proof (Pos.size_le m) as Hle.
  assert (Hs : Zpos (Pos.size m) <= 53) by lia.
  assert (Hgt' : Zpos m < 2 ^ Zpos (Pos.size m)).
  { rewrite <- Pos2Z.inj_pow. lia. }
  assert (Hle' : 2 ^ Zpos (Pos.size m) <= 2 * Zpos m).
  { rewrite <- Pos2Z.inj_pow. lia. }
  split; [lia|]. split.
  - eapply Z.lt_le_trans; [exact Hgt'|]. apply Z.pow_le_mono_r; lia.
  - destruct (Z.eq_dec e (-1074)) as [|Hne]; [now left|right].
    assert (Zpos (Pos.size m) = 53) by lia.
    rewrite H in Hle'. change (2 ^ 53) with (2 * 2 ^ 52) in Hle'. lia.
Qed.

Lemma scaled_pos m e : -1074 <= e -> 0 < Zpos m * 2 ^ (e + 1074).
Proof. intros. apply Z.mul_pos_pos; [lia|]. apply Z.pow_pos_nonneg; lia. Qed.

Lemma scaled_lt_inf m e :
  bounded prec emax m e = true -> Zpos m * 2 ^ (e + 1074) < infOrd.
Proof.
  intros Hb. apply bounded_inv in Hb. destruct Hb as (He & Hm & _).
  unfold infOrd.
  assert (H1 : 2 ^ (e + 1074) <= 2 ^ 2045) by (apply Z.pow_le_mono_r; lia).
  assert (H2 : 0 < 2 ^ (e + 1074)) by (apply Z.pow_pos_nonneg; lia).
  change (2 ^ 2200) with (2 ^ 53 * 2 ^ 2045 * 2 ^ 102).
  assert (H3 : 0 < 2 ^ 2045) by (apply Z.pow_pos_nonneg; lia).
  assert (H4 : 1 < 2 ^ 102) by (apply Z.pow_gt_1; lia).
  nia.
Qed.

Lemma scaled_exp_lt m1 e1 m2 e2 :
  bounded prec emax m1 e1 = true -> bounded prec emax m2 e2 = true ->
  e1 < e2 -> Zpos m1 * 2 ^ (e1 + 1074) < Zpos m2 * 2 ^ (e2 + 1074).
Proof.
  intros H1 H2 Hlt.
  apply bounded_inv in H1. apply bounded_inv in H2.
  destruct H1 as (He1 & Hm1 & _). destruct H2 as (He2 & _ & [Hx|Hm2]); [lia|].
  assert (Hp : 2 * 2 ^ (e1 + 1074) <= 2 ^ (e2 + 1074)).
  { rewrite <- Z.pow_succ_r by lia. apply Z.pow_le_mono_r; lia. }
  assert (H0 : 0 < 2 ^ (e1 + 1074)) by (apply Z.pow_pos_nonneg; lia).
  change (2 ^ 53) with (2 * 2 ^ 52) in Hm1.
  assert (0 < 2 ^ 52) by (apply Z.pow_pos_nonneg; lia).
  nia.
Qed.

Lemma scaled_compare m1 m2 k :
  0 <= k -> (Zpos m1 * 2 ^ k ?= Zpos m2 * 2 ^ k) = (m1 ?= m2)%positive.
Proof.
  intros Hk. assert (0 < 2 ^ k) by (apply Z.pow_pos_nonneg; lia).
  change (m1 ?= m2)%positive with (Zpos m1 ?= Zpos m2).
  destruct (Z.compare_spec (Zpos m1) (Zpos m2)) as [Heq|Hlt|Hgt].
  - rewrite Heq. apply Z.compare_refl.
  - apply Z.compare_lt_iff. nia.
  - apply Z.compare_gt_iff. nia.
Qed.

Ltac cmp :=
  f_equal; symmetry;
  first [ apply Z.compare_eq_iff; lia
        | apply Z.compare_lt_iff; lia
        | apply Z.compare_gt_iff; lia ].

Lemma infOrd_pos : 0 < infOrd.
Proof. unfold infOrd. apply Z.pow_pos_nonneg; lia. Qed.

Local Opaque infOrd.
Lemma SFcompare_ord a b :
  valid_binary a = true -> valid_binary b = true ->
  SFcompare a b =
  match SFord a, SFord b with
  | Some x, Some y => Some (x ?= y)
  | _, _ => None
  end.
Proof.
  pose proof infOrd_pos as Hinf.
  destruct a as [sa|sa| |sa ma ea], b as [sb|sb| |sb mb eb];
    cbv beta iota zeta delta [SFcompare SFord valid_binary]; intros Ha Hb;
    try reflexivity.
  - destruct sb; cmp.
  - pose proof (bounded_inv _ _ Hb) as (He & _).
    pose proof (scaled_pos mb eb ltac:(lia)).
    destruct sb; cmp.
  - destruct sa; cmp.
  - destruct sa, sb; cmp.
  - pose proof (scaled_lt_inf _ _ Hb). pose proof (bounded_inv _ _ Hb) as (He & _).
    pose proof (scaled_pos mb eb ltac:(lia)).
    destruct sa, sb; cmp.
  - pose proof (bounded_inv _ _ Ha) as (He & _).
    pose proof (scaled_pos ma ea ltac:(lia)).
    destruct sa; cmp.
  - pose proof (scaled_lt_inf _ _ Ha). pose proof (bounded_inv _ _ Ha) as (He & _).
    pose proof (scaled_pos ma ea ltac:(lia)).
    destruct sa, sb; cmp.
  - pose proof (bounded_inv _ _ Ha) as (Hea & _).
    pose proof (bounded_inv _ _ Hb) as (Heb & _).
    pose proof (scaled_pos ma ea ltac:(lia)).
    pose proof (scaled_pos mb eb ltac:(lia)).
    change (Pos.compare_cont Eq ma mb) with (ma ?= mb)%positive.
    destruct sa, sb; f_equal.
    + destruct (Z.compare_spec ea eb) as [Heq|Hlt|Hgt].
      * subst eb. rewrite Z.compare_opp, scaled_compare by lia.
        rewrite (Pos.compare_antisym ma mb). reflexivity.
      * pose proof (scaled_exp_lt _ _ _ _ Ha Hb Hlt).
        symmetry. apply Z.compare_gt_iff. lia.
      * pose proof (scaled_exp_lt _ _ _ _ Hb Ha Hgt).
        symmetry. apply Z.compare_lt_iff. lia.
    + symmetry. apply Z.compare_lt_iff. lia.
    + symmetry. apply Z.compare_gt_iff. lia.
    + destruct (Z.compare_spec ea eb) as [Heq|Hlt|Hgt].
      * subst eb. rewrite scaled_compare by lia. reflexivity.
      * pose proof (scaled_exp_lt _ _ _ _ Ha Hb Hlt).
        symmetry. apply Z.compare_lt_iff. lia.
      * pose proof (scaled_exp_lt _ _ _ _ Hb Ha Hgt).
        symmetry. apply Z.compare_gt_iff. lia.
Qed.
Local Transparent infOrd.

Lemma ltb_ord x y :
  (x <? y)%float =
  match ord x, ord y with
  | Some a, Some b => a <? b
  | _, _ => false
  end.
Proof.
  rewrite ltb_spec. unfold SFltb, ord.
  rewrite SFcompare_ord by apply Prim2SF_valid.
  destruct (SFord (Prim2SF x)) as [a|], (SFord (Prim2SF y)) as [b|]; try reflexivity.
Qed.

Lemma leb_ord x y :
  (x <=? y)%float =
  match ord x, ord y with
  | Some a, Some b => a <=? b
  | _, _ => false
  end.
Proof.
  rewrite leb_spec. unfold SFleb, ord.
  rewrite SFcompare_ord by apply Prim2SF_valid.
  destruct (SFord (Prim2SF x)) as [a|], (SFord (Prim2SF y)) as [b|]; try reflexivity.
Qed.

Lemma holdsInt_ord x k : holdsInt x k = true -> SFord x = Some (k * unit1074).
Proof.
  destruct x as [s|s| |[|] m e]; unfold holdsInt, SFord; try discriminate.
  - rewrite Z.eqb_eq. intros ->. reflexivity.
  - rewrite !andb_true_iff, !Z.leb_le, Z.eqb_eq. intros [[He1 He2] Hm].
    rewrite Hm, Z.shiftl_mul_pow2 by lia. unfold unit1074.
    rewrite <- Z.mul_assoc, <- Z.pow_add_r by lia.
    do 3 f_equal. lia.
Qed.

Lemma allFrom_spec n : forall z p,
  allFrom n z p = true -> forall s, z <= s < z + Z.of_nat n -> p s = true.
Proof.
  induction n as [|n IH]; intros z p Hall s Hs; [lia|].
  cbn [allFrom] in Hall. apply andb_true_iff in Hall. destruct Hall as [Hz Hrest].
  destruct (Z.eq_dec s z) as [->|Hne]; [exact Hz|].
  apply (IH (z + 1) p Hrest). lia.
Qed.

Lemma sampleAbs_table :
  allFrom (Z.to_nat 65536) (-32768)
    (fun s => holdsInt (Prim2SF (abs (floatOfZ s))) (Z.abs s)) = true.
Proof. vm_compute. reflexivity. Qed.

Lemma ord_sampleAbs s :
  -32768 <= s <= 32767 -> ord (abs (floatOfZ s)) = Some (Z.abs s * unit1074).
Proof.
  intros Hs. apply holdsInt_ord.
  apply (allFrom_spec _ _ _ sampleAbs_table s). lia.
Qed.

Lemma unit1074_pos : 0 < unit1074.
Proof. unfold unit1074. apply Z.pow_pos_nonneg; lia. Qed.

Lemma int16_below_inf : 32768 * unit1074 < infOrd.
Proof. vm_compute. reflexivity. Qed.

Lemma ord_zero : ord 0%float = Some 0.
Proof. vm_compute. reflexivity. Qed.

(** Truncation discards what lies below the unit. *)
Lemma truncate_ord f v :
  ord f = Some v -> 0 <= v < infOrd -> truncate f = Some (v / unit1074).
Proof.
  unfold ord, truncate. pose proof (Prim2SF_valid f) as Hv.
  destruct (Prim2SF f) as [s|s| |s m e]; cbv beta iota zeta delta [SFord];
    intros Hord Hrange.
  - assert (v = 0) by congruence. subst v. reflexivity.
  - assert (v = if s then - infOrd else infOrd) by congruence. subst v.
    destruct s; lia.
  - discriminate.
  - cbn [valid_binary] in Hv. pose proof (bounded_inv _ _ Hv) as (He & _).
    pose proof (scaled_pos m e ltac:(lia)) as Hpos.
    set (w := Zpos m * 2 ^ (e + 1074)) in *.
    assert (Hw : v = if s then - w else w) by congruence. subst v.
    destruct s; [lia|]. f_equal. unfold w, unit1074.
    rewrite <- Z.shiftl_mul_pow2, <- Z.shiftr_div_pow2 by lia.
    destruct (Z.le_gt_cases 0 e) as [Hle|Hgt].
    + rewrite Z.shiftr_shiftl_l by lia. f_equal. lia.
    + rewrite Z.shiftr_shiftl_r by lia.
      rewrite <- Z.shiftl_opp_r. f_equal. lia.
Qed.

Lemma ltb_leb_false t x : (t <=? x)%float = true -> (x <? t)%float = false.
Proof.
  rewrite leb_ord, ltb_ord.
  destruct (ord t) as [a|], (ord x) as [b|]; try discriminate.
  rewrite Z.leb_le, Z.ltb_ge. lia.
Qed.

(** ** Bytes and samples *)

Lemma byteVal_range b : 0 <= byteVal b <= 255.
Proof. unfold byteVal. pose proof (Byte.to_N_bounded b). lia. Qed.

Lemma byteOf_byteVal b : byteOf (byteVal b) = b.
Proof.
  unfold byteOf. pose proof (byteVal_range b) as Hr.
  rewrite Z.mod_small by lia. unfold byteVal.
  rewrite N2Z.id, Byte.of_to_N. reflexivity.
Qed.

Lemma pair_table :
  allFrom (Z.to_nat 65536) 0
    (fun i =>
       let b0 := byteOf (i mod 256) in
       let b1 := byteOf (i / 256) in
       let s := readSample b0 b1 in
       Byte.eqb (lowByte s) b0 && Byte.eqb (highByte s) b1
       && (-32768 <=? s) && (s <=? 32767)) = true.
Proof. vm_compute. reflexivity. Qed.

Lemma readSample_facts b0 b1 :
  lowByte (readSample b0 b1) = b0 /\ highByte (readSample b0 b1) = b1
  /\ -32768 <= readSample b0 b1 <= 32767.
Proof.
  pose proof (byteVal_range b0) as H0. pose proof (byteVal_range b1) as H1.
  pose proof (allFrom_spec _ _ _ pair_table (byteVal b0 + 256 * byteVal b1)
                ltac:(lia)) as Hp.
  cbv beta zeta in Hp.
  replace ((byteVal b0 + 256 * byteVal b1) mod 256) with (byteVal b0) in Hp
    by (apply Z.mod_unique with (q := byteVal b1); lia).
  replace ((byteVal b0 + 256 * byteVal b1) / 256) with (byteVal b1) in Hp
    by (apply Z.div_unique with (r := byteVal b0); lia).
  rewrite !byteOf_byteVal in Hp.
  rewrite !andb_true_iff, Z.leb_le, Z.leb_le in Hp.
  destruct Hp as [[[Hl Hh] Hlo] Hhi].
  repeat split; auto using Byte.byte_dec_bl.
Qed.

Lemma readSample_range b0 b1 : -32768 <= readSample b0 b1 <= 32767.
Proof. apply readSample_facts. Qed.

Lemma sample_table :
  allFrom (Z.to_nat 65536) (-32768)
    (fun s => readSample (lowByte s) (highByte s) =? s) = true.
Proof. vm_compute. reflexivity. Qed.

Lemma readSample_bytes s :
  -32768 <= s <= 32767 -> readSample (lowByte s) (highByte s) = s.
Proof.
  intros Hs. apply Z.eqb_eq. apply (allFrom_spec _ _ _ sample_table s). lia.
Qed.

(** Induction two bytes at a time, the way the loops walk a block. *)
Lemma list_pair_ind (A : Type) (P : list A -> Prop) :
  P [] -> (forall a, P [a]) ->
  (forall a0 a1 rest, P rest -> P (a0 :: a1 :: rest)) ->
  forall l, P l.
Proof.
  intros Hnil Hone Hstep l.
  assert (Hboth : P l /\ forall a, P (a :: l)).
  { induction l as [|x l [IH1 IH2]]; split; auto. }
  apply Hboth.
Qed.

Lemma bytesOf_samples data :
  Nat.even (List.length data) = true -> bytesOf (samples data) = data.
Proof.
  induction data as [|b|b0 b1 rest IH] using list_pair_ind.
  - reflexivity.
  - discriminate.
  - intros Hev. cbn [samples bytesOf].
    destruct (readSample_facts b0 b1) as (-> & -> & _).
    f_equal. f_equal. apply IH. exact Hev.
Qed.

Lemma samples_bytesOf ss :
  Forall (fun s => -32768 <= s <= 32767) ss -> samples (bytesOf ss) = ss.
Proof.
  induction 1 as [|s ss Hs _ IH]; [reflexivity|].
  cbn [bytesOf samples]. rewrite readSample_bytes, IH by assumption. reflexivity.
Qed.

Lemma samples_range data : Forall (fun s => -32768 <= s <= 32767) (samples data).
Proof.
  induction data as [|b|b0 b1 rest IH] using list_pair_ind; cbn [samples]; auto.
  constructor; [apply readSample_range|exact IH].
Qed.

Lemma samples_length data :
  Nat.even (List.length data) = true ->
  (2 * List.length (samples data) = List.length data)%nat.
Proof.
  induction data as [|b|b0 b1 rest IH] using list_pair_ind; cbn [samples List.length].
  - reflexivity.
  - discriminate.
  - intros Hev. specialize (IH Hev). lia.
Qed.

(** ** The dynamics stages, sample by sample *)

Section GateProps.
Context `{Runtime}.

Lemma noiseGateLoop_spec thr n data : forall j,
  Nat.even (List.length data) = true ->
  exists out,
    noiseGateLoop thr n j data = Ret out
    /\ List.length out = List.length data
    /\ Forall2 (fun s o =>
         ((abs (floatOfZ s) <? thr)%float = true -> o = 0)
         /\ ((thr <=? abs (floatOfZ s))%float = true -> o = s))
       (samples data) (samples out)
    /\ (Forall (fun s => (abs (floatOfZ s) <? thr)%float = true) (samples data) ->
        out = repeat x00 (List.length data)).
Proof.
  induction data as [|b|b0 b1 rest IH] using list_pair_ind; intros j Hev.
  - exists []. repeat split; constructor.
  - discriminate.
  - destruct (IH (j + 2) Hev) as (rest' & Hrun & Hlen & Hsamples & Hzero).
    cbn [noiseGateLoop].
    destruct (abs (floatOfZ (readSample b0 b1)) <? thr)%float eqn:Hlt;
      rewrite Hrun; cbn [bind].
    + exists (x00 :: x00 :: rest'). repeat split.
      * cbn [List.length]. congruence.
      * cbn [samples]. constructor; [|exact Hsamples]. split; [reflexivity|].
        intros Hle. apply ltb_leb_false in Hle. congruence.
      * cbn [samples List.length repeat]. intros Hall.
        inversion Hall; subst. rewrite Hzero by assumption. reflexivity.
    + exists (b0 :: b1 :: rest'). repeat split.
      * cbn [List.length]. congruence.
      * cbn [samples]. constructor; [|exact Hsamples]. split; [congruence|reflexivity].
      * cbn [samples]. intros Hall. inversion Hall; subst. congruence.
Qed.

End GateProps.

#[local] Opaque unit1074 infOrd.

Lemma not_negative_ord f :
  (f <? 0)%float = false <->
  match ord f with Some v => 0 <= v | None => True end.
Proof.
  rewrite ltb_ord, ord_zero. destruct (ord f) as [v|]; [|tauto].
  rewrite Z.ltb_ge. tauto.
Qed.

Lemma binary_round_aux_not_negative mx ex lx :
  match SFord (binary_round_aux prec emax false mx ex lx) with
  | Some v => 0 <= v
  | None => True
  end.
Proof.
  pose proof infOrd_pos as Hinf.
  unfold binary_round_aux.
  destruct (shr_fexp prec emax mx ex lx) as [mrs' e'].
  destruct (shr_fexp prec emax _ e' loc_Exact) as [mrs'' e''].
  destruct (shr_m mrs'') as [|m|m]; cbv beta iota zeta delta [SFord]; try lia.
  destruct (e'' <=? emax - prec); cbv beta iota zeta delta [SFord]; [|lia].
  apply Z.mul_nonneg_nonneg; [lia|]. apply Z.pow_nonneg. lia.
Qed.

(** Scaling by a positive constant keeps a value that is not negative so. *)
Lemma mul_not_negative p c m e :
  Prim2SF c = S754_finite false m e ->
  (p <? 0)%float = false -> (p * c <? 0)%float = false.
Proof.
  intros Hc. rewrite !not_negative_ord. unfold ord.
  rewrite mul_spec, Hc. pose proof (Prim2SF_valid p) as Hv.
  pose proof infOrd_pos as Hinf.
  destruct (Prim2SF p) as [s|s| |s mp ep]; cbv beta iota zeta delta [SF64mul SFmul SFord xorb].
  - lia.
  - destruct s; cbv beta iota; lia.
  - trivial.
  - cbn [valid_binary] in Hv. pose proof (bounded_inv _ _ Hv) as (He & _).
    pose proof (scaled_pos mp ep ltac:(lia)) as Hpos.
    destruct s; cbv beta iota; [lia|]. intros _.
    apply binary_round_aux_not_negative.
Qed.

Section LimiterProps.
Context `{Runtime}.

(** Above a ceiling that is not negative, the clipped sample is the
    ceiling's integer part with the sign of the sample, and it does not
    exceed the ceiling. *)
Lemma clipSample_spec thr s :
  (thr <? 0)%float = false -> -32768 <= s <= 32767 -> exceeds thr s = true ->
  -32767 <= clipSample thr s <= 32767
  /\ exceeds thr (clipSample thr s) = false
  /\ (0 < s -> 0 <= clipSample thr s) /\ (s <= 0 -> clipSample thr s <= 0).
Proof.
  unfold exceeds. intros Hneg Hs Hex.
  rewrite ltb_ord, ord_zero in Hneg. rewrite ltb_ord, ord_sampleAbs in Hex by assumption.
  destruct (ord thr) as [v|] eqn:Hv; [|discriminate].
  apply Z.ltb_ge in Hneg. apply Z.ltb_lt in Hex.
  pose proof unit1074_pos as HU. pose proof int16_below_inf as HI.
  assert (Hvi : 0 <= v < infOrd) by nia.
  pose proof (truncate_ord thr v Hv Hvi) as Htr.
  pose proof (Z.mul_div_le v unit1074 HU) as Hlo.
  pose proof (Z.mul_succ_div_gt v unit1074 HU) as Hhi.
  set (k := v / unit1074) in *.
  assert (Hk : 0 <= k <= 32767) by nia.
  assert (Hconv : int16OfFloat thr = k).
  { unfold int16OfFloat. rewrite Htr.
    replace ((-32768 <=? k) && (k <=? 32767)) with true; [reflexivity|].
    symmetry. apply andb_true_iff. split; apply Z.leb_le; lia. }
  assert (Hclip : clipSample thr s = k \/ clipSample thr s = - k).
  { unfold clipSample. rewrite Hconv. destruct (0 <? s); [now left|right].
    unfold wrap16. rewrite Z.mod_small by lia. lia. }
  assert (Hsign : (0 < s -> 0 <= clipSample thr s) /\ (s <= 0 -> clipSample thr s <= 0)).
  { unfold clipSample. rewrite Hconv. destruct (Z.ltb_spec 0 s); split; intros; try lia;
      unfold wrap16; rewrite Z.mod_small by lia; lia. }
  split; [lia|]. split; [|exact Hsign].
  rewrite ltb_ord, Hv, ord_sampleAbs by lia.
  apply Z.ltb_ge. destruct Hclip as [-> | ->]; rewrite ?Z.abs_opp, Z.abs_eq by lia; lia.
Qed.

Lemma wrap16_range z : -32768 <= wrap16 z <= 32767.
Proof. unfold wrap16. pose proof (Z.mod_pos_bound (z + 32768) 65536 ltac:(lia)). lia. Qed.

Lemma wrapInt_small z : - maxInt - 1 <= z <= maxInt -> wrapInt z = z.
Proof. unfold wrapInt, maxInt. intros Hz. rewrite Z.mod_small by lia. lia. Qed.

Lemma int16OfFloat_range f : -32768 <= int16OfFloat f <= 32767.
Proof.
  unfold int16OfFloat. destruct (truncate f) as [z|]; [|apply wrap16_range].
  destruct ((-32768 <=? z) && (z <=? 32767)) eqn:Hin; [|apply wrap16_range].
  apply andb_true_iff in Hin. rewrite !Z.leb_le in Hin. lia.
Qed.

Lemma clipSample_range thr s : -32768 <= clipSample thr s <= 32767.
Proof.
  unfold clipSample. destruct (0 <? s); [apply int16OfFloat_range|apply wrap16_range].
Qed.

Lemma exceeding_bounds thr data :
  0 <= exceeding thr data <= Z.of_nat (List.length (samples data)).
Proof. unfold exceeding. pose proof (filter_length_le (exceeds thr) (samples data)). lia. Qed.

Lemma limiterLoop_spec thr n data : forall j count,
  Nat.even (List.length data) = true ->
  0 <= count -> count + exceeding thr data <= maxInt ->
  exists out,
    limiterLoop thr n j data count = Ret (out, count + exceeding thr data)
    /\ List.length out = List.length data
    /\ Forall2 (fun s o => o = if exceeds thr s then clipSample thr s else s)
         (samples data) (samples out).
Proof.
  induction data as [|b|b0 b1 rest IH] using list_pair_ind; intros j count Hev Hc Hmax.
  - exists []. cbn. rewrite Z.add_0_r. repeat split. constructor.
  - discriminate.
  - pose proof (exceeding_bounds thr rest) as Hb.
    unfold exceeding in Hmax. cbn [samples filter] in Hmax.
    cbn [limiterLoop]. fold (exceeds thr (readSample b0 b1)).
    destruct (exceeds thr (readSample b0 b1)) eqn:Hex.
    + cbn [List.length] in Hmax.
      rewrite Nat2Z.inj_succ in Hmax. fold (exceeding thr rest) in Hmax.
      rewrite wrapInt_small by (unfold maxInt in *; lia).
      destruct (IH (j + 2) (count + 1) Hev ltac:(lia) ltac:(lia))
        as (rest' & Hrun & Hlen & Hs).
      rewrite Hrun. cbn [bind].
      exists (lowByte (clipSample thr (readSample b0 b1))
              :: highByte (clipSample thr (readSample b0 b1)) :: rest').
      repeat split.
      * unfold exceeding. cbn [samples filter]. rewrite Hex. cbn [List.length].
        rewrite Nat2Z.inj_succ. fold (exceeding thr rest). do 2 f_equal. lia.
      * cbn [List.length]. congruence.
      * cbn [samples]. constructor; [|exact Hs].
        rewrite Hex. apply readSample_bytes, clipSample_range.
    + fold (exceeding thr rest) in Hmax.
      destruct (IH (j + 2) count Hev Hc Hmax) as (rest' & Hrun & Hlen & Hs).
      rewrite Hrun. cbn [bind].
      exists (b0 :: b1 :: rest'). repeat split.
      * unfold exceeding. cbn [samples filter]. rewrite Hex. reflexivity.
      * cbn [List.length]. congruence.
      * cbn [samples]. constructor; [|exact Hs]. rewrite Hex. reflexivity.
Qed.

End LimiterProps.

Section StageProps.
Context `{Runtime}.

Lemma compressSample_range thr ratio s : -32768 <= compressSample thr ratio s <= 32767.
Proof. apply int16OfFloat_range. Qed.

Lemma compressorLoop_spec thr ratio n data : forall j,
  Nat.even (List.length data) = true ->
  exists out,
    compressorLoop thr ratio n j data = Ret out
    /\ List.length out = List.length data
    /\ Forall2 (fun s o =>
         o = if (thr <? abs (floatOfZ s))%float then compressSample thr ratio s else s)
       (samples data) (samples out).
Proof.
  induction data as [|b|b0 b1 rest IH] using list_pair_ind; intros j Hev.
  - exists []. repeat split; constructor.
  - discriminate.
  - destruct (IH (j + 2) Hev) as (rest' & Hrun & Hlen & Hs).
    cbn [compressorLoop].
    destruct (thr <? abs (floatOfZ (readSample b0 b1)))%float eqn:Hgt;
      cbv zeta; rewrite Hrun; cbn [bind].
    + eexists. split; [reflexivity|]. split.
      * cbn [List.length]. congruence.
      * cbn [samples]. constructor; [|exact Hs].
        rewrite Hgt. apply readSample_bytes, compressSample_range.
    + exists (b0 :: b1 :: rest'). repeat split.
      * cbn [List.length]. congruence.
      * cbn [samples]. constructor; [|exact Hs]. rewrite Hgt. reflexivity.
Qed.

Lemma levelsLoop_returns n data : forall j sum peak,
  Nat.even (List.length data) = true ->
  exists r, levelsLoop n j data sum peak = Ret r.
Proof.
  induction data as [|b|b0 b1 rest IH] using list_pair_ind; intros j sum peak Hev.
  - eexists. reflexivity.
  - discriminate.
  - cbn [levelsLoop]. apply IH. exact Hev.
Qed.

Lemma levelsLoop_odd n data : forall j sum peak,
  Nat.even (List.length data) = false ->
  exists p, levelsLoop n j data sum peak = Panics p.
Proof.
  induction data as [|b|b0 b1 rest IH] using list_pair_ind; intros j sum peak Hodd.
  - discriminate.
  - eexists. reflexivity.
  - cbn [levelsLoop]. apply IH. exact Hodd.
Qed.

Lemma calculateLevels_returns ap data :
  Nat.even (List.length data) = true ->
  exists peak rms, calculateLevels ap data = Ret (setLevels ap peak rms).
Proof.
  intros Hev. unfold calculateLevels.
  destruct (Z.of_nat (List.length data) =? 0); [eauto|].
  destruct (levelsLoop_returns (Z.of_nat (List.length data)) data 0 0%float 0%float Hev)
    as ([sum peak] & ->).
  cbn [bind]. eauto.
Qed.

Lemma calculateLevels_odd ap data :
  Nat.even (List.length data) = false ->
  exists p, calculateLevels ap data = Panics p.
Proof.
  intros Hodd. unfold calculateLevels.
  destruct (Z.eqb_spec (Z.of_nat (List.length data)) 0) as [Hz|_].
  - destruct data; [discriminate|cbn in Hz; lia].
  - destruct (levelsLoop_odd (Z.of_nat (List.length data)) data 0 0%float 0%float Hodd)
      as (p & ->).
    cbn [bind]. eauto.
Qed.

Lemma limiterLoop_returns thr n data : forall j count,
  Nat.even (List.length data) = true ->
  exists out count',
    limiterLoop thr n j data count = Ret (out, count')
    /\ List.length out = List.length data
    /\ Forall2 (fun s o => o = if exceeds thr s then clipSample thr s else s)
         (samples data) (samples out).
Proof.
  induction data as [|b|b0 b1 rest IH] using list_pair_ind; intros j count Hev.
  - exists [], count. repeat split. constructor.
  - discriminate.
  - cbn [limiterLoop]. fold (exceeds thr (readSample b0 b1)).
    destruct (exceeds thr (readSample b0 b1)) eqn:Hex.
    + destruct (IH (j + 2) (wrapInt (count + 1)) Hev) as (rest' & c' & -> & Hlen & Hs).
      cbn [bind]. do 2 eexists. split; [reflexivity|]. split.
      * cbn [List.length]. congruence.
      * cbn [samples]. constructor; [|exact Hs].
        rewrite Hex. apply readSample_bytes, clipSample_range.
    + destruct (IH (j + 2) count Hev) as (rest' & c' & -> & Hlen & Hs).
      cbn [bind]. do 2 eexists. split; [reflexivity|]. split.
      * cbn [List.length]. congruence.
      * cbn [samples]. constructor; [|exact Hs]. rewrite Hex. reflexivity.
Qed.

(** A block the limiter has been over holds no sample above a ceiling
    that is not negative. *)
Lemma clipped_block_bounded thr ss os :
  (thr <? 0)%float = false ->
  Forall (fun s => -32768 <= s <= 32767) ss ->
  Forall2 (fun s o => o = if exceeds thr s then clipSample thr s else s) ss os ->
  Forall (fun o => exceeds thr o = false) os.
Proof.
  intros Hneg Hrange Hs.
  induction Hs as [|s o ss os Ho _ IH]; [constructor|].
  inversion Hrange; subst. constructor; [|apply IH; assumption].
  destruct (exceeds thr s) eqn:Hex; [|assumption].
  apply clipSample_spec; assumption.
Qed.

Lemma applyNoiseGate_length ap data :
  Nat.even (List.length data) = true ->
  exists out, applyNoiseGate ap data = Ret out /\ List.length out = List.length data.
Proof.
  intros Hev. unfold applyNoiseGate.
  destruct (noiseGateLoop_spec (noiseGateLinear ap) (Z.of_nat (List.length data))
              data 0 Hev) as (out & Hrun & Hlen & _).
  eauto.
Qed.

Lemma applyCompressor_length ap data :
  Nat.even (List.length data) = true ->
  exists out, applyCompressor ap data = Ret out /\ List.length out = List.length data.
Proof.
  intros Hev. unfold applyCompressor.
  destruct (compressorLoop_spec kneeLinear (compressionRatio ap)
              (Z.of_nat (List.length data)) data 0 Hev) as (out & Hrun & Hlen & _).
  eauto.
Qed.

(** The limiter as a whole: the block keeps its length, every written
    sample is the clipped one, and the counter moves by the number of
    samples that exceeded the ceiling, as long as it stays within [int]. *)
Lemma applyLimiter_spec ap data :
  Nat.even (List.length data) = true ->
  exists ap' out,
    applyLimiter ap data = Ret (ap', out)
    /\ List.length out = List.length data
    /\ ap' = setClippingCount ap (clippingCount ap')
    /\ Forall2 (fun s o => o = if exceeds (ceilingLinear ap) s
                               then clipSample (ceilingLinear ap) s else s)
         (samples data) (samples out)
    /\ (0 <= clippingCount ap ->
        clippingCount ap + exceeding (ceilingLinear ap) data <= maxInt ->
        clippingCount ap' = clippingCount ap + exceeding (ceilingLinear ap) data).
Proof.
  intros Hev. unfold applyLimiter.
  destruct (limiterLoop_returns (ceilingLinear ap) (Z.of_nat (List.length data))
              data 0 (clippingCount ap) Hev) as (out & c' & Hrun & Hlen & Hs).
  rewrite Hrun. cbn [bind]. exists (setClippingCount ap c'), out.
  split; [reflexivity|]. split; [exact Hlen|]. split; [reflexivity|].
  split; [exact Hs|]. intros Hpos Hmax.
  destruct (limiterLoop_spec (ceilingLinear ap) (Z.of_nat (List.length data))
              data 0 (clippingCount ap) Hev Hpos Hmax) as (out2 & Hrun2 & _ & _).
  cbn [clippingCount setClippingCount]. congruence.
Qed.

Lemma ProcessAudio_spec ap input sampleRate channels :
  Nat.even (List.length input) = true ->
  exists ap' out,
    ProcessAudio ap input sampleRate channels = Ret (ap', out)
    /\ List.length out = List.length input
    /\ (isLimiterEnabled ap = true -> (ceilingLinear ap <? 0)%float = false ->
        Forall (fun o => exceeds (ceilingLinear ap) o = false) (samples out))
    /\ (0 <= clippingCount ap ->
        clippingCount ap + Z.of_nat (List.length input) <= maxInt ->
        clippingCount ap <= clippingCount ap').
Proof.
  intros Hev. unfold ProcessAudio.
  destruct (calculateLevels_returns ap input Hev) as (peak & rms & ->).
  cbn [bind]. set (ap1 := setLevels ap peak rms).
  assert (Hgate : exists o1, (if isNoiseGateEnabled ap1 then applyNoiseGate ap1 input
                              else Ret input) = Ret o1
                             /\ List.length o1 = List.length input).
  { destruct (isNoiseGateEnabled ap1); [apply applyNoiseGate_length, Hev|eauto]. }
  destruct Hgate as (o1 & -> & Hl1). cbn [bind].
  assert (Hev1 : Nat.even (List.length o1) = true) by (rewrite Hl1; exact Hev).
  assert (Hcomp : exists o2, (if isCompressorEnabled ap1 then applyCompressor ap1 o1
                              else Ret o1) = Ret o2
                             /\ List.length o2 = List.length o1).
  { destruct (isCompressorEnabled ap1); [apply applyCompressor_length, Hev1|eauto]. }
  destruct Hcomp as (o2 & -> & Hl2). cbn [bind].
  assert (Hev2 : Nat.even (List.length o2) = true) by (rewrite Hl2; exact Hev1).
  change (isLimiterEnabled ap1) with (isLimiterEnabled ap).
  destruct (isLimiterEnabled ap).
  - destruct (applyLimiter_spec ap1 o2 Hev2)
      as (ap' & out & Hrun & Hlen & _ & Hs & Hcount).
    change (ceilingLinear ap1) with (ceilingLinear ap) in Hs, Hcount.
    exists ap', out. split; [exact Hrun|]. split; [congruence|]. split.
    + intros _ Hneg.
      exact (clipped_block_bounded _ _ _ Hneg (samples_range o2) Hs).
    + intros Hc Hmax. change (clippingCount ap1) with (clippingCount ap) in Hcount.
      pose proof (exceeding_bounds (ceilingLinear ap) o2) as Hb.
      pose proof (samples_length o2 Hev2) as Hsl.
      specialize (Hcount Hc ltac:(lia)). lia.
  - exists ap1, o2. split; [reflexivity|]. split; [congruence|]. split.
    + discriminate.
    + intros _ _. change (clippingCount ap1) with (clippingCount ap). lia.
Qed.

Lemma ProcessAudio_odd ap input sampleRate channels :
  Nat.even (List.length input) = false ->
  exists p, ProcessAudio ap input sampleRate channels = Panics p.
Proof.
  intros Hodd. unfold ProcessAudio.
  destruct (calculateLevels_odd ap input Hodd) as (p & ->). cbn [bind]. eauto.
Qed.

End StageProps.

(** ** The noise gate *)

Example applyNoiseGate_default_gate :
  applyNoiseGate NewAPRSProcessor (bytesOf [100; -327; 328; -5000; 0; 327])
  = Ret (bytesOf [0; 0; 328; -5000; 0; 0]).
Proof. vm_compute. reflexivity. Qed.

(** C4: with the gate at threshold [thresholdDb], and
    [thresholdLinear = 10^(thresholdDb/20) * 32767], every block of whole
    16-bit samples comes out with the same length; a sample whose
    magnitude is below [thresholdLinear] is zeroed, a sample whose
    magnitude is at or above it is left as it was, and a block whose
    samples are all below [thresholdLinear] comes out all zero bytes. *)
Theorem noise_gate_zeroes_below_threshold `{Runtime}
  (ap : APRSProcessor) (data : list byte) :
  let thresholdLinear := (Pow 10 (noiseGateThreshold ap / 20.0) * 32767.0)%float in
  Nat.even (List.length data) = true ->
  exists out,
    applyNoiseGate ap data = Ret out
    /\ List.length out = List.length data
    /\ Forall2 (fun s o =>
         ((abs (floatOfZ s) <? thresholdLinear)%float = true -> o = 0)
         /\ ((thresholdLinear <=? abs (floatOfZ s))%float = true -> o = s))
       (samples data) (samples out)
    /\ (Forall (fun s => (abs (floatOfZ s) <? thresholdLinear)%float = true)
          (samples data) ->
        out = repeat x00 (List.length data)).
Proof.
  intros thresholdLinear Hev.
  exact (noiseGateLoop_spec thresholdLinear (Z.of_nat (List.length data)) data 0 Hev).
Qed.

Lemma noise_gate_zeroes_below_threshold_witness :
  let data := bytesOf [100; -327; 328; -5000; 0; 327] in
  Nat.even (List.length data) = true
  /\ exists out,
       applyNoiseGate NewAPRSProcessor data = Ret out
       /\ List.length out = List.length data
       /\ Forall2 (fun s o =>
            ((abs (floatOfZ s) <? Pow 10 (-40.0 / 20.0) * 32767.0)%float = true -> o = 0)
            /\ ((Pow 10 (-40.0 / 20.0) * 32767.0 <=? abs (floatOfZ s))%float = true -> o = s))
          (samples data) (samples out)
       /\ (Forall (fun s => (abs (floatOfZ s) <? Pow 10 (-40.0 / 20.0) * 32767.0)%float = true)
             (samples data) ->
           out = repeat x00 (List.length data)).
Proof.
  split; [reflexivity|].
  apply (noise_gate_zeroes_below_threshold NewAPRSProcessor
           (bytesOf [100; -327; 328; -5000; 0; 327])).
  reflexivity.
Defined.

(** ** The limiter *)

Example applyLimiter_minus20dB :
  applyLimiter (SetPeakThreshold NewAPRSProcessor (-20.0))
    (bytesOf [32767; -32767; -32768; 0; 1; -1; 3276; 3277; -3277])
  = Ret (setClippingCount (SetPeakThreshold NewAPRSProcessor (-20.0)) 5,
         bytesOf [3276; -3276; -3276; 0; 1; -1; 3276; 3276; -3276]).
Proof. vm_compute. reflexivity. Qed.

Section LimiterClaim.
Context `{Runtime}.

Lemma ceilingLinear_not_negative ap :
  (forall y, (Pow 10 y <? 0)%float = false) -> (ceilingLinear ap <? 0)%float = false.
Proof.
  intros Hpow. unfold ceilingLinear.
  eapply mul_not_negative; [vm_compute; reflexivity|apply Hpow].
Qed.

Lemma call_keeps_count ap c ap' :
  c <> CallResetClippingCount -> call ap c = Ret ap' ->
  0 <= clippingCount ap ->
  match c with
  | CallProcessAudio input _ _ =>
      clippingCount ap + Z.of_nat (List.length input) <= maxInt
  | _ => True
  end ->
  clippingCount ap <= clippingCount ap'.
Proof.
  intros Hc Hcall Hpos Hmax.
  destruct c as [input sr ch|t|r|t|b|b|b|]; cbn [call] in Hcall;
    try (injection Hcall as <-; cbn; lia); [|congruence].
  destruct (Nat.even (List.length input)) eqn:Hev.
  - destruct (ProcessAudio_spec ap input sr ch Hev) as (ap1 & out & Hrun & _ & _ & Hcount).
    rewrite Hrun in Hcall. cbn [bind] in Hcall. injection Hcall as <-. auto.
  - destruct (ProcessAudio_odd ap input sr ch Hev) as (p & Hrun).
    rewrite Hrun in Hcall. discriminate.
Qed.

End LimiterClaim.

(** C2: with [ceilingLinear = 10^(peakThreshold/20) * 32767] (a power of
    ten is never negative), the limiter returns every block of whole
    16-bit samples with its length kept and no sample whose magnitude
    exceeds [ceilingLinear], on its own and as the last stage of
    [ProcessAudio]; the clipping counter afterwards is the counter before
    plus the number of samples of the limiter's input whose magnitude
    exceeded [ceilingLinear], as long as that sum fits [int]; and no call
    other than [ResetClippingCount], which sets it to zero, lowers the
    counter. *)
Theorem limiter_ceiling_and_clipping_count `{Runtime}
  (ap : APRSProcessor) (data : list byte) :
  let ceiling := (Pow 10 (peakThreshold ap / 20.0) * 32767.0)%float in
  (forall y, (Pow 10 y <? 0)%float = false) ->
  Nat.even (List.length data) = true ->
  0 <= clippingCount ap ->
  clippingCount ap + exceeding ceiling data <= maxInt ->
  (exists ap' out,
      applyLimiter ap data = Ret (ap', out)
      /\ List.length out = List.length data
      /\ Forall (fun o => exceeds ceiling o = false) (samples out)
      /\ clippingCount ap' = clippingCount ap + exceeding ceiling data)
  /\ (isLimiterEnabled ap = true ->
      forall sampleRate channels,
      exists ap' out,
        ProcessAudio ap data sampleRate channels = Ret (ap', out)
        /\ Forall (fun o => exceeds ceiling o = false) (samples out))
  /\ (forall c ap',
        c <> CallResetClippingCount -> call ap c = Ret ap' ->
        match c with
        | CallProcessAudio input _ _ =>
            clippingCount ap + Z.of_nat (List.length input) <= maxInt
        | _ => True
        end ->
        clippingCount ap <= clippingCount ap')
  /\ clippingCount (ResetClippingCount ap) = 0.
Proof.
  intros ceiling Hpow Hev Hpos Hmax. fold (ceilingLinear ap) in ceiling.
  pose proof (ceilingLinear_not_negative ap Hpow) as Hneg. subst ceiling.
  split; [|split; [|split; [|reflexivity]]].
  - destruct (applyLimiter_spec ap data Hev)
      as (ap' & out & Hrun & Hlen & _ & Hs & Hcount).
    exists ap', out. split; [exact Hrun|]. split; [exact Hlen|]. split.
    + exact (clipped_block_bounded _ _ _ Hneg (samples_range data) Hs).
    + exact (Hcount Hpos Hmax).
  - intros Hon sampleRate channels.
    destruct (ProcessAudio_spec ap data sampleRate channels Hev)
      as (ap' & out & Hrun & _ & Hbound & _).
    exists ap', out. split; [exact Hrun|exact (Hbound Hon Hneg)].
  - intros c ap' Hc Hcall Hm. exact (call_keeps_count ap c ap' Hc Hcall Hpos Hm).
Qed.

Lemma examplePow_not_negative y : (Pow 10 y <? 0)%float = false.
Proof.
  unfold Pow, exampleRuntime.
  repeat match goal with
         | |- context [if ?b then _ else _] => destruct b
         end; reflexivity.
Qed.

Lemma limiter_ceiling_and_clipping_count_witness :
  let ap := SetPeakThreshold NewAPRSProcessor (-20.0) in
  let data := bytesOf [32767; -32767; -32768; 0; 1; -1; 3276; 3277; -3277] in
  let ceiling := (Pow 10 (-20.0 / 20.0) * 32767.0)%float in
  (forall y, (Pow 10 y <? 0)%float = false)
  /\ Nat.even (List.length data) = true
  /\ 0 <= clippingCount ap
  /\ clippingCount ap + exceeding ceiling data <= maxInt
  /\ (exists ap' out,
        applyLimiter ap data = Ret (ap', out)
        /\ List.length out = List.length data
        /\ Forall (fun o => exceeds ceiling o = false) (samples out)
        /\ clippingCount ap' = clippingCount ap + exceeding ceiling data)
  /\ (isLimiterEnabled ap = true ->
      forall sampleRate channels,
      exists ap' out,
        ProcessAudio ap data sampleRate channels = Ret (ap', out)
        /\ Forall (fun o => exceeds ceiling o = false) (samples out))
  /\ (forall c ap',
        c <> CallResetClippingCount -> call ap c = Ret ap' ->
        match c with
        | CallProcessAudio input _ _ =>
            clippingCount ap + Z.of_nat (List.length input) <= maxInt
        | _ => True
        end ->
        clippingCount ap <= clippingCount ap')
  /\ clippingCount (ResetClippingCount ap) = 0.
Proof.
  assert (Hmax : 0 + exceeding (Pow 10 (-20.0 / 20.0) * 32767.0)%float
                   (bytesOf [32767; -32767; -32768; 0; 1; -1; 3276; 3277; -3277])
                 <= maxInt).
  { apply Z.leb_le. vm_compute. reflexivity. }
  split; [exact examplePow_not_negative|].
  split; [reflexivity|]. split; [reflexivity|]. split; [exact Hmax|].
  exact (limiter_ceiling_and_clipping_count
           (SetPeakThreshold NewAPRSProcessor (-20.0))
           (bytesOf [32767; -32767; -32768; 0; 1; -1; 3276; 3277; -3277])
           examplePow_not_negative eq_refl (Z.le_refl 0) Hmax).
Defined.

(** ** ProcessAudio as a whole *)

(** C5, as the claim states it, fails on a block of one byte: the level
    loop reads [data[1]] of a slice of length 1. *)
Lemma ProcessAudio_one_byte_panics :
  ProcessAudio NewAPRSProcessor [x01] 8000 1 = Panics (IndexOutOfRange 1 1).
Proof. vm_compute. reflexivity. Qed.

Lemma ProcessAudio_empty `{Runtime} ap sampleRate channels :
  ProcessAudio ap [] sampleRate channels = Ret (setLevels ap (-96.0) (-96.0), []).
Proof.
  unfold ProcessAudio. cbn [calculateLevels List.length Z.of_nat Z.eqb bind].
  cbn [isNoiseGateEnabled isCompressorEnabled isLimiterEnabled setLevels].
  destruct (isNoiseGateEnabled ap), (isCompressorEnabled ap), (isLimiterEnabled ap);
    reflexivity.
Qed.

(** C5 (amended): for every input block of even byte length, that is of
    whole 16-bit samples, [ProcessAudio] returns, without a panic, a block
    of exactly the length of its input; and a zero-length block is
    returned empty, with the stored RMS and peak levels set to the -96.0
    floor. *)
Theorem ProcessAudio_keeps_shape `{Runtime}
  (ap : APRSProcessor) (input : list byte) (sampleRate channels : Z) :
  Nat.even (List.length input) = true ->
  (exists ap' out,
      ProcessAudio ap input sampleRate channels = Ret (ap', out)
      /\ List.length out = List.length input)
  /\ (exists ap0,
        ProcessAudio ap [] sampleRate channels = Ret (ap0, [])
        /\ rmsLevel ap0 = (-96.0)%float /\ peakLevel ap0 = (-96.0)%float).
Proof.
  intros Hev. split.
  - destruct (ProcessAudio_spec ap input sampleRate channels Hev)
      as (ap' & out & Hrun & Hlen & _).
    eauto.
  - exists (setLevels ap (-96.0) (-96.0)). split; [apply ProcessAudio_empty|].
    split; reflexivity.
Qed.

Lemma ProcessAudio_keeps_shape_witness :
  let input := bytesOf [12000; -12000; 150; 32767; -32768; 0] in
  Nat.even (List.length input) = true
  /\ (exists ap' out,
        ProcessAudio NewAPRSProcessor input 8000 1 = Ret (ap', out)
        /\ List.length out = List.length input)
  /\ (exists ap0,
        ProcessAudio NewAPRSProcessor [] 8000 1 = Ret (ap0, [])
        /\ rmsLevel ap0 = (-96.0)%float /\ peakLevel ap0 = (-96.0)%float).
Proof.
  split; [reflexivity|].
  apply (ProcessAudio_keeps_shape NewAPRSProcessor
           (bytesOf [12000; -12000; 150; 32767; -32768; 0]) 8000 1).
  reflexivity.
Defined.

(** ** The compressor *)

(** With the knee at [0.1 * 32767] and ratio 4, every sample above the
    knee keeps its sign and lands within one unit of
    [knee + (|sample| - knee) / 4]. *)
Lemma compressSample_ratio4_table :
  allFrom (Z.to_nat 65536) (-32768)
    (fun s =>
       let knee := (0x1.999999999999ap-4 * 32767.0)%float in
       let sampleAbs := abs (floatOfZ s) in
       if (knee <? sampleAbs)%float then
         let o := compressSample knee 4.0 s in
         (Z.sgn o =? Z.sgn s)
         && (abs (floatOfZ (Z.abs o) - (knee + (sampleAbs - knee) / 4.0)) <? 1)%float
       else true) = true.
Proof. vm_compute. reflexivity. Qed.



Example applyCompressor_default :
  applyCompressor NewAPRSProcessor (bytesOf [3276; -3276; 100; 3277; -20000; 32767])
  = Ret (bytesOf [3276; -3276; 100; 3276; -7457; 10649]).
Proof. vm_compute. reflexivity. Qed.

(** ** The level meters *)

(** Zero divided by anything has no positive square root: the quotient
    is a zero or NaN. *)
Lemma sqrt_zero_div_not_positive x : (0 <? sqrt (0 / x))%float = false.
Proof.
  rewrite ltb_spec, sqrt_spec, div_spec.
  change (Prim2SF 0) with (S754_zero false).
  destruct (Prim2SF x) as [s|s| |s m e]; try destruct s; reflexivity.
Qed.

Section LevelProps.
Context `{Runtime}.

Lemma levelsLoop_silence n k : forall j,
  levelsLoop n j (repeat x00 (2 * k)) 0%float 0%float = Ret (0%float, 0%float).
Proof.
  induction k as [|k IH]; intros j; [reflexivity|].
  replace (2 * S k)%nat with (S (S (2 * k))) by lia.
  cbn [repeat levelsLoop].
  change (readSample x00 x00) with 0.
  change (abs (floatOfZ 0)) with 0%float.
  change (0 + 0 * 0)%float with 0%float.
  change (0 <? 0)%float with false. cbv iota.
  apply IH.
Qed.

Lemma Input_levelLoop_silence n k : forall j,
  Input.levelLoop n j (repeat x00 (2 * k)) 0%float = Ret 0%float.
Proof.
  induction k as [|k IH]; intros j; [reflexivity|].
  replace (2 * S k)%nat with (S (S (2 * k))) by lia.
  cbn [repeat Input.levelLoop].
  change (readSample x00 x00) with 0.
  change (0 + floatOfZ (wrap16 (0 * 0)))%float with 0%float.
  apply IH.
Qed.

End LevelProps.

(** A block whose samples are all zero is made of zero bytes. *)
Lemma silent_block data :
  Nat.even (List.length data) = true ->
  Forall (fun s => s = 0) (samples data) ->
  data = repeat x00 (2 * List.length (samples data)).
Proof.
  induction data as [|b|b0 b1 rest IH] using list_pair_ind; intros Hev Hall.
  - reflexivity.
  - discriminate.
  - cbn [samples] in *. inversion Hall as [|s ss Hs Hrest]; subst.
    cbn [List.length]. replace (2 * S (List.length (samples rest)))%nat
      with (S (S (2 * List.length (samples rest)))) by lia.
    cbn [repeat]. rewrite <- IH by assumption.
    destruct (readSample_facts b0 b1) as (Hl & Hh & _).
    rewrite Hs in Hl, Hh. rewrite <- Hl, <- Hh. reflexivity.
Qed.

(** For a non-empty block of zero samples both meters report -96.0. *)
Lemma meters_silence `{Runtime} (ap : APRSProcessor) (i : Input.t) (data : list byte) :
  data <> [] -> Nat.even (List.length data) = true ->
  Forall (fun s => s = 0) (samples data) ->
  calculateLevels ap data = Ret (setLevels ap (-96.0) (-96.0))
  /\ Input.calculateLevel i data = Ret (Input.setLevel i (-96.0)).
Proof.
  intros Hne Hev Hall.
  pose proof (silent_block data Hev Hall) as Hdata.
  assert (Hn : (Z.of_nat (List.length data) =? 0) = false).
  { apply Z.eqb_neq. destruct data; [congruence|cbn [List.length]; lia]. }
  split.
  - unfold calculateLevels. rewrite Hn.
    rewrite Hdata at 2. rewrite levelsLoop_silence. cbn [bind].
    unfold levelOf. rewrite sqrt_zero_div_not_positive. reflexivity.
  - unfold Input.calculateLevel. rewrite Hn.
    rewrite Hdata at 2. rewrite Input_levelLoop_silence. cbn [bind].
    rewrite sqrt_zero_div_not_positive. reflexivity.
Qed.

(** For up to 256 pairs the processor's sums are exact: the RMS and the
    peak magnitude are 32767 to the bit. *)
Lemma fullScale_table :
  allFrom 256 1
    (fun k =>
       match levelsLoop (4 * k) 0 (bytesOf (fullScale (Z.to_nat k))) 0%float 0%float with
       | Ret (sum, peak) =>
           PrimFloat.Leibniz.eqb (sqrt (sum / floatOfZ (2 * k))) 32767%float
           && PrimFloat.Leibniz.eqb peak 32767%float
       | Panics _ => false
       end) = true.
Proof. vm_compute. reflexivity. Qed.

Lemma fullScale_length k : List.length (bytesOf (fullScale k)) = (4 * k)%nat.
Proof. induction k as [|k IH]; [reflexivity|]. cbn [fullScale bytesOf List.length]. lia. Qed.

(** The processor meter on full-scale blocks: 0 dB where [math.Log10(1)]
    is 0. *)
Lemma calculateLevels_fullScale `{Runtime} (ap : APRSProcessor) (k : nat) :
  (1 <= k <= 256)%nat ->
  calculateLevels ap (bytesOf (fullScale k))
  = Ret (setLevels ap (20 * Log10 1)%float (20 * Log10 1)%float).
Proof.
  intros Hk.
  pose proof (allFrom_spec _ _ _ fullScale_table (Z.of_nat k) ltac:(lia)) as Ht.
  cbv beta in Ht. rewrite Nat2Z.id in Ht.
  unfold calculateLevels. rewrite fullScale_length.
  replace (Z.of_nat (4 * k)) with (4 * Z.of_nat k) by lia.
  replace (4 * Z.of_nat k =? 0) with false by (symmetry; apply Z.eqb_neq; lia).
  replace (4 * Z.of_nat k / 2) with (2 * Z.of_nat k)
    by (apply Z.div_unique with (r := 0); lia).
  destruct (levelsLoop (4 * Z.of_nat k) 0 (bytesOf (fullScale k)) 0%float 0%float)
    as [[sum peak]|p]; [|discriminate].
  apply andb_true_iff in Ht. destruct Ht as [Hrms Hpeak].
  apply FloatAxioms.Leibniz.eqb_spec in Hrms. apply FloatAxioms.Leibniz.eqb_spec in Hpeak.
  cbn [bind]. rewrite Hrms, Hpeak. reflexivity.
Qed.

(** On the same blocks the endpoint meter's sum is the number of samples
    and its RMS is 1. *)
Lemma Input_fullScale_table :
  allFrom 256 1
    (fun k =>
       match Input.levelLoop (4 * k) 0 (bytesOf (fullScale (Z.to_nat k))) 0%float with
       | Ret sum => PrimFloat.Leibniz.eqb (sqrt (sum / floatOfZ (2 * k))) 1%float
       | Panics _ => false
       end) = true.
Proof. vm_compute. reflexivity. Qed.

Lemma Input_calculateLevel_fullScale `{Runtime} (i : Input.t) (k : nat) :
  (1 <= k <= 256)%nat ->
  Input.calculateLevel i (bytesOf (fullScale k))
  = Ret (Input.setLevel i (20 * Log10 (1 / 32767.0))%float).
Proof.
  intros Hk.
  pose proof (allFrom_spec _ _ _ Input_fullScale_table (Z.of_nat k) ltac:(lia)) as Ht.
  cbv beta in Ht. rewrite Nat2Z.id in Ht.
  unfold Input.calculateLevel. rewrite fullScale_length.
  replace (Z.of_nat (4 * k)) with (4 * Z.of_nat k) by lia.
  replace (4 * Z.of_nat k =? 0) with false by (symmetry; apply Z.eqb_neq; lia).
  replace (4 * Z.of_nat k / 2) with (2 * Z.of_nat k)
    by (apply Z.div_unique with (r := 0); lia).
  destruct (Input.levelLoop (4 * Z.of_nat k) 0 (bytesOf (fullScale k)) 0%float)
    as [sum|p]; [|discriminate].
  apply FloatAxioms.Leibniz.eqb_spec in Ht.
  cbn [bind]. rewrite Ht. reflexivity.
Qed.

(** C1 fails on the endpoint meter: [Input.calculateLevel] squares the
    sample as an [int16], so 32767 * 32767 wraps to 1; on the full-scale
    block of two samples the sum is 2, the RMS is 1 and the level is
    [20 * log10(1 / 32767)], about -90.3 dB, where the processor meter,
    which squares the [float64] magnitude, reports [20 * log10(1)]. *)
Theorem endpoint_meter_squares_in_int16 `{Runtime} (i : Input.t) (ap : APRSProcessor) :
  wrap16 (32767 * 32767) = 1
  /\ Input.calculateLevel i (bytesOf [32767; -32767])
     = Ret (Input.setLevel i (20 * Log10 (1 / 32767.0))%float)
  /\ calculateLevels ap (bytesOf [32767; -32767])
     = Ret (setLevels ap (20 * Log10 1)%float (20 * Log10 1)%float).
Proof. repeat split; vm_compute; reflexivity. Qed.

(** ** Gain and volume setters *)

Lemma ord_two : ord 2%float = Some (2 * unit1074).
Proof. vm_compute. reflexivity. Qed.

Lemma ord_one : ord 1%float = Some unit1074.
Proof. vm_compute. reflexivity. Qed.

(** A gain that is a number is accepted exactly when it lies in [0, 2]. *)
Lemma SetGain_accepts_range i g :
  ord g <> None ->
  (snd (Input.SetGain i g) = None <-> ((0 <=? g) && (g <=? 2))%float = true).
Proof.
  intros Hnum. unfold Input.SetGain.
  rewrite !ltb_ord, !leb_ord, ord_zero, ord_two.
  destruct (ord g) as [v|]; [|congruence].
  destruct (Z.ltb_spec v 0), (Z.ltb_spec (2 * unit1074) v),
    (Z.leb_spec 0 v), (Z.leb_spec v (2 * unit1074));
    cbn; split; intros; try congruence; try lia.
Qed.

(** A volume that is a number is accepted exactly when it lies in [0, 1]. *)
Lemma SetVolume_accepts_range o v :
  ord v <> None ->
  (snd (Output.SetVolume o v) = None <-> ((0 <=? v) && (v <=? 1))%float = true).
Proof.
  intros Hnum. unfold Output.SetVolume.
  rewrite !ltb_ord, !leb_ord, ord_zero, ord_one.
  destruct (ord v) as [w|]; [|congruence].
  destruct (Z.ltb_spec w 0), (Z.ltb_spec unit1074 w),
    (Z.leb_spec 0 w), (Z.leb_spec w unit1074);
    cbn; split; intros; try congruence; try lia.
Qed.

(** A rejected value leaves the endpoint as it was. *)
Lemma setters_reject_unchanged i o x e :
  (snd (Input.SetGain i x) = Some e -> fst (Input.SetGain i x) = i)
  /\ (snd (Output.SetVolume o x) = Some e -> fst (Output.SetVolume o x) = o).
Proof.
  unfold Input.SetGain, Output.SetVolume.
  split; match goal with |- context [if ?b then _ else _] => destruct b end;
    cbn; congruence.
Qed.

(** -0.1 and 2.1 are refused, 2.0 is taken. *)
Example SetGain_examples i :
  Input.SetGain i (-0x1.999999999999ap-4)%float = (i, Some GainOutOfRange)
  /\ Input.SetGain i 0x1.0cccccccccccdp+1%float = (i, Some GainOutOfRange)
  /\ snd (Input.SetGain i 2.0%float) = None
  /\ Input.gain (fst (Input.SetGain i 2.0%float)) = 2.0%float.
Proof. repeat split. Qed.

(** C6 fails at NaN: both comparisons of the range test are false for
    NaN, so [SetGain] and [SetVolume] accept it and store it, although NaN
    lies in neither [0, 2] nor [0, 1]. *)
Theorem setters_accept_NaN (i : Input.t) (o : Output.t) :
  snd (Input.SetGain i nan) = None
  /\ Input.GetGain (fst (Input.SetGain i nan)) = nan
  /\ snd (Output.SetVolume o nan) = None
  /\ Output.GetVolume (fst (Output.SetVolume o nan)) = nan
  /\ ((0 <=? nan) && (nan <=? 2))%float = false
  /\ ((0 <=? nan) && (nan <=? 1))%float = false.
Proof. repeat split. Qed.

(** ** The playback queue *)

(** The queue is made with room for 10 blocks and no call changes that. *)
Lemma queue_capacity cfg o0 o drv data v :
  (Output.NewOutput cfg = Ret o0 ->
   Output.capacity (Output.queue o0) = 10%nat /\ Output.GetQueueSize o0 = 0)
  /\ Output.capacity (Output.queue (fst (Output.Start o drv)))
     = Output.capacity (Output.queue o)
  /\ Output.capacity (Output.queue (fst (Output.Stop o)))
     = Output.capacity (Output.queue o)
  /\ Output.capacity (Output.queue (fst (Output.PlayAudio o data)))
     = Output.capacity (Output.queue o)
  /\ Output.capacity (Output.queue (fst (Output.SetVolume o v)))
     = Output.capacity (Output.queue o)
  /\ Output.capacity (Output.queue (Output.ClearQueue o))
     = Output.capacity (Output.queue o).
Proof.
  repeat split.
  - unfold Output.NewOutput in H. destruct (makeBytes _); [|discriminate].
    cbn [bind] in H. injection H as <-. reflexivity.
  - unfold Output.NewOutput in H. destruct (makeBytes _); [|discriminate].
    cbn [bind] in H. injection H as <-. reflexivity.
  - unfold Output.Start.
    repeat match goal with
           | |- context [if ?b then _ else _] => destruct b
           | |- context [match ?x with Some _ => _ | None => _ end] => destruct x
           end; reflexivity.
  - unfold Output.Stop. destruct (negb _); reflexivity.
  - unfold Output.PlayAudio, Output.trySend.
    destruct (negb _); [reflexivity|]. destruct (_ <? _)%nat; reflexivity.
  - unfold Output.SetVolume. destruct (_ || _); reflexivity.
Qed.

(** C7: [PlayAudio] on an endpoint that is not running fails with the
    not-running error; on a running endpoint whose queue, of capacity 10,
    already holds 10 blocks it fails at once with the queue-full error,
    the block is not queued and the queue still holds 10 blocks; and
    [NewOutput] makes the queue with capacity 10. *)
Theorem PlayAudio_not_running_or_full (o : Output.t) (data : list byte) :
  (Output.isRunning o = false ->
   Output.PlayAudio o data = (o, Some OutputNotRunning))
  /\ (Output.isRunning o = true ->
      Output.capacity (Output.queue o) = 10%nat ->
      Output.GetQueueSize o = 10 ->
      Output.PlayAudio o data = (o, Some QueueFull)
      /\ Output.GetQueueSize (fst (Output.PlayAudio o data)) = 10)
  /\ (forall cfg o0, Output.NewOutput cfg = Ret o0 ->
      Output.capacity (Output.queue o0) = 10%nat).
Proof.
  split; [|split].
  - intros Hrun. unfold Output.PlayAudio. rewrite Hrun. reflexivity.
  - intros Hrun Hcap Hsize. unfold Output.PlayAudio, Output.trySend.
    rewrite Hrun. cbn [negb]. unfold Output.GetQueueSize in Hsize.
    replace (Output.len (Output.queue o) <? Output.capacity (Output.queue o))%nat
      with false by (symmetry; apply Nat.ltb_ge; lia).
    split; [reflexivity|]. cbn [fst]. unfold Output.GetQueueSize. exact Hsize.
  - intros cfg o0 Hnew. exact (proj1 (proj1 (queue_capacity cfg o0 o0 workingDriver [] 0%float) Hnew)).
Qed.

Lemma PlayAudio_not_running_or_full_witness :
  let o := {| Output.config := defaultConfig; Output.device := true;
              Output.isRunning := true; Output.level := 0%float;
              Output.volume := 1%float; Output.buffer := [];
              Output.queue := {| Output.held := repeat [x00; x00] 10;
                                 Output.capacity := 10 |} |} in
  Output.isRunning o = true
  /\ Output.capacity (Output.queue o) = 10%nat
  /\ Output.GetQueueSize o = 10
  /\ Output.PlayAudio o [x01; x02] = (o, Some QueueFull)
  /\ Output.GetQueueSize (fst (Output.PlayAudio o [x01; x02])) = 10.
Proof.
  intros o. split; [reflexivity|]. split; [reflexivity|]. split; [reflexivity|].
  exact (proj1 (proj2 (PlayAudio_not_running_or_full o [x01; x02]))
           eq_refl eq_refl eq_refl).
Defined.

(** From [NewOutput] on the default configuration: once started, ten
    blocks are queued and the eleventh is refused. *)
Example eleventh_block_is_refused :
  match Output.NewOutput defaultConfig with
  | Ret o0 =>
      let o := fst (Output.Start o0 workingDriver) in
      let o10 := fold_left (fun o _ => fst (Output.PlayAudio o [x00; x00]))
                   (seq 0 10) o in
      snd (Output.PlayAudio o0 [x00; x00]) = Some OutputNotRunning
      /\ Output.GetQueueSize o10 = 10
      /\ snd (Output.PlayAudio o10 [x01; x01]) = Some QueueFull
      /\ Output.GetQueueSize (fst (Output.PlayAudio o10 [x01; x01])) = 10
  | Panics _ => False
  end.
Proof. vm_compute. repeat split. Qed.

(** ** UpdateConfig *)






(** ** The lifecycle *)

Lemma Input_Start_ok i drv i' :
  Input.Start i drv = (i', None) -> Input.isRunning i' = true.
Proof.
  unfold Input.Start.
  repeat match goal with
         | |- context [if ?b then _ else _] => destruct b
         | |- context [match ?x with Some _ => _ | None => _ end] => destruct x
         end; intros Heq; inversion Heq; reflexivity.
Qed.

Lemma Input_SetGain_running i g :
  Input.isRunning (fst (Input.SetGain i g)) = Input.isRunning i.
Proof. unfold Input.SetGain. destruct (_ || _); reflexivity. Qed.

Lemma step_inputStarted m c m' :
  inputStarted m -> Manager.step m c = Ret m' -> inputStarted m'.
Proof.
  unfold inputStarted. intros Hinv Hstep.
  destruct c; cbn [Manager.step] in Hstep.
  - injection Hstep as <-. unfold Manager.StartInput.
    destruct (Manager.isRunning m) eqn:Hrun; [cbn [fst]; rewrite Hrun; exact Hinv|].
    destruct (Input.Start (Manager.input m) drv) as [i [e|]] eqn:Hstart; cbn.
    + congruence.
    + intros _. exact (Input_Start_ok _ _ _ Hstart).
  - injection Hstep as <-. unfold Manager.StartOutput.
    destruct (Manager.isRunning m) eqn:Hrun; cbn [negb];
      [|cbn [fst]; rewrite Hrun; exact Hinv].
    destruct (Output.Start (Manager.output m) drv) as [o [e|]]; cbn; auto.
  - injection Hstep as <-. unfold Manager.Stop.
    destruct (Manager.isRunning m) eqn:Hrun; cbn [negb];
      [|cbn [fst]; rewrite Hrun; exact Hinv].
    destruct (Input.Stop _), (Output.Stop _). cbn. discriminate.
  - injection Hstep as <-. unfold Manager.Close, Manager.Stop.
    destruct (Manager.isRunning m) eqn:Hrun; cbn [negb].
    + destruct (Input.Stop (Manager.input m)), (Output.Stop (Manager.output m)).
      cbn [Manager.input Manager.output Manager.isRunning].
      destruct (Input.Close _), (Output.Close _). cbn. discriminate.
    + destruct (Input.Close _), (Output.Close _). cbn. congruence.
  - unfold Manager.UpdateConfig in Hstep.
    destruct (Manager.isRunning m) eqn:Hrun.
    + cbn [bind] in Hstep. injection Hstep as <-. rewrite Hrun. exact Hinv.
    + destruct (Input.UpdateConfig _ _) as [[i [e|]]|]; cbn [bind] in Hstep;
        try discriminate.
      * injection Hstep as <-. cbn. congruence.
      * destruct (Output.UpdateConfig _ _) as [[o [e|]]|]; cbn [bind] in Hstep;
          try discriminate; injection Hstep as <-; cbn; congruence.
  - injection Hstep as <-. unfold Manager.SetInputGain.
    pose proof (Input_SetGain_running (Manager.input m) g) as Hg.
    destruct (Input.SetGain (Manager.input m) g). cbn in *. rewrite Hg. exact Hinv.
  - injection Hstep as <-. unfold Manager.SetOutputVolume.
    destruct (Output.SetVolume _ _). cbn. exact Hinv.
  - injection Hstep as <-. exact Hinv.
  - injection Hstep as <-. exact Hinv.
  - injection Hstep as <-. exact Hinv.
Qed.

Lemma run_inputStarted calls : forall m m',
  inputStarted m -> Manager.run m calls = Ret m' -> inputStarted m'.
Proof.
  induction calls as [|c rest IH]; intros m m' Hinv Hrun; cbn [Manager.run] in Hrun.
  - injection Hrun as <-. exact Hinv.
  - destruct (Manager.step m c) as [m1|] eqn:Hstep; [|discriminate].
    cbn [bind] in Hrun. exact (IH m1 m' (step_inputStarted m c m1 Hinv Hstep) Hrun).
Qed.

Lemma NewManager_stopped newDeviceManager cfg m :
  Manager.NewManager newDeviceManager cfg = Ret (Some m, None) ->
  Manager.isRunning m = false.
Proof.
  unfold Manager.NewManager. destruct newDeviceManager; [discriminate|].
  destruct (Input.NewInput cfg); [|discriminate]. cbn [bind].
  destruct (Output.NewOutput cfg); [|discriminate]. cbn [bind].
  intros Heq. injection Heq as <-. reflexivity.
Qed.

(** C9: the lifecycle of the manager and of its endpoints.  [Start] on a
    running state fails and leaves the state running; [Stop] on a stopped
    state changes nothing and returns no error; and [StartOutput] fails
    with the input-not-started error whenever the manager's running flag
    is down, which, for a manager made by [NewManager] and driven through
    its calls, is the case whenever the input endpoint is not running. *)
Theorem lifecycle_start_stop
  (m : Manager.t) (i : Input.t) (o : Output.t) (drv : Driver) :
  (Manager.isRunning m = true ->
   Manager.StartInput m drv = (m, Some ManagerAlreadyRunning))
  /\ (Input.isRunning i = true -> Input.Start i drv = (i, Some InputAlreadyRunning))
  /\ (Output.isRunning o = true -> Output.Start o drv = (o, Some OutputAlreadyRunning))
  /\ (Manager.isRunning m = false -> Manager.Stop m = (m, None))
  /\ (Input.isRunning i = false -> Input.Stop i = (i, None))
  /\ (Output.isRunning o = false -> Output.Stop o = (o, None))
  /\ (Manager.isRunning m = false ->
      Manager.StartOutput m drv = (m, Some InputNotStarted))
  /\ (forall newDeviceManager cfg m0 calls,
        Manager.NewManager newDeviceManager cfg = Ret (Some m0, None) ->
        Manager.run m0 calls = Ret m ->
        Input.isRunning (Manager.input m) = false ->
        Manager.StartOutput m drv = (m, Some InputNotStarted)).
Proof.
  repeat split.
  - intros Hrun. unfold Manager.StartInput. rewrite Hrun. reflexivity.
  - intros Hrun. unfold Input.Start. rewrite Hrun. reflexivity.
  - intros Hrun. unfold Output.Start. rewrite Hrun. reflexivity.
  - intros Hrun. unfold Manager.Stop. rewrite Hrun. reflexivity.
  - intros Hrun. unfold Input.Stop. rewrite Hrun. reflexivity.
  - intros Hrun. unfold Output.Stop. rewrite Hrun. reflexivity.
  - intros Hrun. unfold Manager.StartOutput. rewrite Hrun. reflexivity.
  - intros newDeviceManager cfg m0 calls Hnew Hcalls Hinput.
    assert (Hinv0 : inputStarted m0).
    { unfold inputStarted.
      rewrite (NewManager_stopped newDeviceManager cfg m0 Hnew). discriminate. }
    pose proof (run_inputStarted calls m0 m Hinv0 Hcalls) as Hinv.
    unfold inputStarted in Hinv. unfold Manager.StartOutput.
    destruct (Manager.isRunning m); [|reflexivity].
    rewrite Hinv in Hinput by reflexivity. discriminate.
Qed.

Lemma lifecycle_start_stop_witness :
  let i := {| Input.config := defaultConfig; Input.device := true;
              Input.isRunning := true; Input.level := 0%float;
              Input.gain := 1%float; Input.buffer := repeat x00 512 |} in
  let o := {| Output.config := defaultConfig; Output.device := false;
              Output.isRunning := false; Output.level := 0%float;
              Output.volume := 1%float; Output.buffer := repeat x00 512;
              Output.queue := Output.makeChan 10 |} in
  let m := {| Manager.config := defaultConfig; Manager.input := fst (Input.Stop i);
              Manager.output := o; Manager.aprsProcessor := NewAPRSProcessor;
              Manager.isRunning := false |} in
  Input.isRunning i = true
  /\ Output.isRunning o = false
  /\ Manager.isRunning m = false
  /\ Input.Start i workingDriver = (i, Some InputAlreadyRunning)
  /\ Output.Stop o = (o, None)
  /\ Manager.Stop m = (m, None)
  /\ Manager.StartOutput m workingDriver = (m, Some InputNotStarted).
Proof.
  intros i o m.
  destruct (lifecycle_start_stop m i o workingDriver)
    as (_ & Hi & _ & Hstop & _ & Ho & Hout & _).
  split; [reflexivity|]. split; [reflexivity|]. split; [reflexivity|].
  split; [exact (Hi eq_refl)|]. split; [exact (Ho eq_refl)|].
  split; [exact (Hstop eq_refl)|exact (Hout eq_refl)].
Defined.

(** From [NewManager] on the default configuration, the device manager
    created: before [StartInput], and again after [StartInput] and
    [Stop], [StartOutput] is refused; between the two it goes through; a
    second [StartInput] is refused and leaves the manager running. *)
Example manager_run :
  match Manager.NewManager None defaultConfig with
  | Ret (Some m0, _) =>
      let m1 := fst (Manager.StartInput m0 workingDriver) in
      let m2 := fst (Manager.Stop m1) in
      snd (Manager.StartOutput m0 workingDriver) = Some InputNotStarted
      /\ snd (Manager.StartInput m0 workingDriver) = None
      /\ Manager.StartInput m1 workingDriver = (m1, Some ManagerAlreadyRunning)
      /\ snd (Manager.StartOutput m1 workingDriver) = None
      /\ Manager.IsRunning m2 = false
      /\ snd (Manager.StartOutput m2 workingDriver) = Some InputNotStarted
      /\ Manager.Stop m2 = (m2, None)
  | _ => False
  end.
Proof. vm_compute. repeat split. Qed.

(** ** The dynamics setters *)

(** C10: the three dynamics setters check nothing.  Whatever [float64]
    they are given (a NaN, an infinity, zero, a negative ratio), the call
    returns without an error and the value is the parameter the next
    [ProcessAudio] computes with: the gate threshold and the ceiling are
    [10^(t/20) * 32767] and the ratio is the divisor of the compressor;
    with ratio 0 the quotient is an infinity and a sample above the knee
    is driven to the end of the 16-bit range. *)
Theorem dynamics_setters_store_unchecked `{Runtime}
  (ap : APRSProcessor) (t : float) (data : list byte) :
  (call ap (CallSetNoiseGateThreshold t) = Ret (SetNoiseGateThreshold ap t)
   /\ noiseGateThreshold (SetNoiseGateThreshold ap t) = t
   /\ applyNoiseGate (SetNoiseGateThreshold ap t) data
      = noiseGateLoop (Pow 10 (t / 20.0) * 32767.0)%float
          (Z.of_nat (List.length data)) 0 data)
  /\ (call ap (CallSetCompressionRatio t) = Ret (SetCompressionRatio ap t)
      /\ compressionRatio (SetCompressionRatio ap t) = t
      /\ applyCompressor (SetCompressionRatio ap t) data
         = compressorLoop kneeLinear t (Z.of_nat (List.length data)) 0 data)
  /\ (call ap (CallSetPeakThreshold t) = Ret (SetPeakThreshold ap t)
      /\ peakThreshold (SetPeakThreshold ap t) = t
      /\ ceilingLinear (SetPeakThreshold ap t) = (Pow 10 (t / 20.0) * 32767.0)%float)
  /\ (forall knee s,
        compressSample knee 0 s
        = int16OfFloat
            (let newSample := (knee + (abs (floatOfZ s) - knee) / 0)%float in
             let newSample := if s <? 0 then (- newSample)%float else newSample in
             if (32767 <? newSample)%float then 32767%float
             else if (newSample <? -32768)%float then (-32768)%float
             else newSample))
  /\ compressSample (0x1.999999999999ap-4 * 32767.0)%float 0 6553 = 32767
  /\ compressSample (0x1.999999999999ap-4 * 32767.0)%float 0 (-6553) = -32768.
Proof.
  repeat split; vm_compute; reflexivity.
Qed.

Example setters_take_any_float :
  compressionRatio (SetCompressionRatio NewAPRSProcessor nan) = nan
  /\ compressionRatio (SetCompressionRatio NewAPRSProcessor (-4.0)%float) = (-4.0)%float
  /\ peakThreshold (SetPeakThreshold NewAPRSProcessor infinity) = infinity
  /\ noiseGateThreshold (SetNoiseGateThreshold NewAPRSProcessor neg_infinity)
     = neg_infinity.
Proof. repeat split. Qed.

(** ** The device catalogue *)

Lemma GetDeviceByName_spec devices name deviceType :
  match DeviceManager.GetDeviceByName devices name deviceType with
  | Some device =>
      exists before after,
        devices = before ++ device :: after
        /\ Name device = name /\ Type_ device = deviceType
        /\ Forall (fun d => ~ (Name d = name /\ Type_ d = deviceType)) before
  | None =>
      Forall (fun d => ~ (Name d = name /\ Type_ d = deviceType)) devices
  end.
Proof.
  induction devices as [|d rest IH]; cbn [DeviceManager.GetDeviceByName].
  - constructor.
  - destruct (String.eqb_spec (Name d) name) as [Hn|Hn]; cbn [andb].
    + destruct (String.eqb_spec (Type_ d) deviceType) as [Ht|Ht].
      * exists [], rest. repeat split; auto.
      * destruct (DeviceManager.GetDeviceByName rest name deviceType).
        -- destruct IH as (before & after & -> & ? & ? & ?).
           exists (d :: before), after. repeat split; auto.
           constructor; auto. tauto.
        -- constructor; auto. tauto.
    + destruct (DeviceManager.GetDeviceByName rest name deviceType).
      * destruct IH as (before & after & -> & ? & ? & ?).
        exists (d :: before), after. repeat split; auto.
        constructor; auto. tauto.
      * constructor; auto. tauto.
Qed.

(** X1.  [GetDeviceByName] returns the first device of the list that has
    both the name and the type asked for, and fails exactly when no
    device has both. *)
Theorem GetDeviceByName_first_match
  (devices : list DeviceInfo) (name deviceType : string) :
  (forall device,
      DeviceManager.GetDeviceByName devices name deviceType = Some device ->
      exists before after,
        devices = before ++ device :: after
        /\ Name device = name /\ Type_ device = deviceType
        /\ Forall (fun d => ~ (Name d = name /\ Type_ d = deviceType)) before)
  /\ (DeviceManager.GetDeviceByName devices name deviceType = None <->
      Forall (fun d => ~ (Name d = name /\ Type_ d = deviceType)) devices).
Proof.
  pose proof (GetDeviceByName_spec devices name deviceType) as Hs.
  destruct (DeviceManager.GetDeviceByName devices name deviceType) as [d|].
  - split.
    + intros device [= <-]. exact Hs.
    + split; [discriminate|].
      intros Hall. destruct Hs as (before & after & -> & Hn & Ht & _).
      apply Forall_app in Hall. destruct Hall as [_ Hall].
      inversion Hall; subst. tauto.
  - split; [discriminate|]. split; auto.
Qed.

Lemma GetDefaultDevice_spec devices deviceType :
  match DeviceManager.GetDefaultDevice devices deviceType with
  | Some device =>
      exists before after,
        devices = before ++ device :: after
        /\ Type_ device = deviceType /\ IsDefault device = true
        /\ Forall (fun d => ~ (Type_ d = deviceType /\ IsDefault d = true)) before
  | None =>
      Forall (fun d => ~ (Type_ d = deviceType /\ IsDefault d = true)) devices
  end.
Proof.
  induction devices as [|d rest IH]; cbn [DeviceManager.GetDefaultDevice].
  - constructor.
  - destruct (String.eqb_spec (Type_ d) deviceType) as [Ht|Ht]; cbn [andb].
    + destruct (IsDefault d) eqn:Hd.
      * exists [], rest. repeat split; auto.
      * destruct (DeviceManager.GetDefaultDevice rest deviceType).
        -- destruct IH as (before & after & -> & ? & ? & ?).
           exists (d :: before), after. repeat split; auto.
           constructor; auto. intros [_ ?]; congruence.
        -- constructor; auto. intros [_ ?]; congruence.
    + destruct (DeviceManager.GetDefaultDevice rest deviceType).
      * destruct IH as (before & after & -> & ? & ? & ?).
        exists (d :: before), after. repeat split; auto.
        constructor; auto. tauto.
      * constructor; auto. tauto.
Qed.

Lemma firstOfType_spec devices deviceType :
  match PlatformDeviceManager.firstOfType devices deviceType with
  | Some device =>
      exists before after,
        devices = before ++ device :: after
        /\ Type_ device = deviceType
        /\ Forall (fun d => Type_ d <> deviceType) before
  | None => Forall (fun d => Type_ d <> deviceType) devices
  end.
Proof.
  induction devices as [|d rest IH]; cbn [PlatformDeviceManager.firstOfType].
  - constructor.
  - destruct (String.eqb_spec (Type_ d) deviceType) as [Ht|Ht].
    + exists [], rest. repeat split; auto.
    + destruct (PlatformDeviceManager.firstOfType rest deviceType).
      * destruct IH as (before & after & -> & ? & ?).
        exists (d :: before), after. repeat split; auto.
      * constructor; auto.
Qed.

(** X2.  The default device.  [DeviceManager.GetDefaultDevice] returns
    the first device of the type that is marked default and fails when
    there is none, even if the list holds devices of the type.  The
    Linux and macOS catalogues return the same device when there is one,
    fall back to the first device of the type otherwise, and fail
    exactly when the list holds no device of the type. *)
Theorem GetDefaultDevice_first_default
  (devices : list DeviceInfo) (deviceType : string) :
  (forall device,
      DeviceManager.GetDefaultDevice devices deviceType = Some device ->
      (exists before after,
          devices = before ++ device :: after
          /\ Type_ device = deviceType /\ IsDefault device = true
          /\ Forall (fun d => ~ (Type_ d = deviceType /\ IsDefault d = true)) before)
      /\ PlatformDeviceManager.GetDefaultDevice devices deviceType = Some device)
  /\ (DeviceManager.GetDefaultDevice devices deviceType = None <->
      Forall (fun d => ~ (Type_ d = deviceType /\ IsDefault d = true)) devices)
  /\ (DeviceManager.GetDefaultDevice devices deviceType = None ->
      forall device,
      PlatformDeviceManager.GetDefaultDevice devices deviceType = Some device ->
      exists before after,
        devices = before ++ device :: after
        /\ Type_ device = deviceType
        /\ Forall (fun d => Type_ d <> deviceType) before)
  /\ (PlatformDeviceManager.GetDefaultDevice devices deviceType = None <->
      Forall (fun d => Type_ d <> deviceType) devices).
Proof.
  pose proof (GetDefaultDevice_spec devices deviceType) as Hs.
  pose proof (firstOfType_spec devices deviceType) as Hf.
  unfold PlatformDeviceManager.GetDefaultDevice.
  destruct (DeviceManager.GetDefaultDevice devices deviceType) as [d|].
  - split; [intros device [= <-]; split; [exact Hs|reflexivity]|].
    split.
    + split; [discriminate|].
      intros Hall. destruct Hs as (before & after & -> & Ht & Hd & _).
      apply Forall_app in Hall. destruct Hall as [_ Hall].
      inversion Hall; subst. tauto.
    + split; [discriminate|]. split; [discriminate|].
      intros Hall. destruct Hs as (before & after & -> & Ht & Hd & _).
      apply Forall_app in Hall. destruct Hall as [_ Hall].
      inversion Hall; subst. tauto.
  - split; [discriminate|]. split; [tauto|].
    destruct (PlatformDeviceManager.firstOfType devices deviceType) as [d|].
    + split; [intros _ device [= <-]; exact Hf|].
      split; [discriminate|].
      intros Hall. destruct Hf as (before & after & -> & Ht & _).
      apply Forall_app in Hall. destruct Hall as [_ Hall].
      inversion Hall; subst. tauto.
    + split; [discriminate|]. tauto.
Qed.

Lemma GetDevicesByType_filter devices deviceType :
  DeviceManager.GetDevicesByType devices deviceType
  = filter (fun d => String.eqb (Type_ d) deviceType) devices.
Proof.
  induction devices as [|d rest IH]; cbn; [reflexivity|].
  rewrite IH. reflexivity.
Qed.

Lemma GetDevicesByType_app l1 l2 deviceType :
  DeviceManager.GetDevicesByType (l1 ++ l2) deviceType
  = DeviceManager.GetDevicesByType l1 deviceType
    ++ DeviceManager.GetDevicesByType l2 deviceType.
Proof. rewrite !GetDevicesByType_filter. apply filter_app. Qed.

Lemma GetDevicesByType_same ty l :
  DeviceManager.GetDevicesByType (map (DeviceManager.deviceInfo ty) l) ty
  = map (DeviceManager.deviceInfo ty) l.
Proof.
  induction l as [|d rest IH]; cbn; [reflexivity|].
  rewrite String.eqb_refl, IH. reflexivity.
Qed.

Lemma GetDevicesByType_other ty ty' l :
  ty <> ty' ->
  DeviceManager.GetDevicesByType (map (DeviceManager.deviceInfo ty) l) ty' = [].
Proof.
  intros Hne. induction l as [|d rest IH]; cbn; [reflexivity|].
  destruct (String.eqb_spec ty ty'); [contradiction|]. exact IH.
Qed.

(** X3.  After [RefreshDevices] the catalogue lists the capture devices
    malgo reported, in malgo's order, as the devices of type "input",
    the playback devices as those of type "output", and nothing of any
    other type; [GetDeviceCount] is the sum of the two. *)
Theorem RefreshDevices_by_type
  (inputDevices outputDevices : list DeviceManager.malgoDevice) :
  let devices := DeviceManager.RefreshDevices inputDevices outputDevices in
  DeviceManager.GetDevicesByType devices "input"
  = map (DeviceManager.deviceInfo "input") inputDevices
  /\ DeviceManager.GetDevicesByType devices "output"
     = map (DeviceManager.deviceInfo "output") outputDevices
  /\ (forall deviceType,
        deviceType <> "input"%string -> deviceType <> "output"%string ->
        DeviceManager.GetDevicesByType devices deviceType = [])
  /\ DeviceManager.GetDeviceCount devices
     = Z.of_nat (List.length inputDevices) + Z.of_nat (List.length outputDevices).
Proof.
  cbv zeta. unfold DeviceManager.RefreshDevices, DeviceManager.enumerateDevices.
  cbn [app]. rewrite !GetDevicesByType_app.
  repeat split.
  - rewrite GetDevicesByType_same.
    rewrite GetDevicesByType_other by discriminate.
    apply app_nil_r.
  - rewrite GetDevicesByType_same.
    rewrite GetDevicesByType_other by discriminate.
    reflexivity.
  - intros ty H1 H2. rewrite !GetDevicesByType_app.
    rewrite (GetDevicesByType_other "input" ty), (GetDevicesByType_other "output" ty);
      [reflexivity| |]; intros E; symmetry in E; contradiction.
  - unfold DeviceManager.GetDeviceCount, DeviceManager.GetAllDevices.
    rewrite length_app, !length_map. lia.
Qed.

Lemma GetDeviceByName_app l1 l2 name ty :
  DeviceManager.GetDeviceByName (l1 ++ l2) name ty
  = match DeviceManager.GetDeviceByName l1 name ty with
    | Some d => Some d
    | None => DeviceManager.GetDeviceByName l2 name ty
    end.
Proof.
  induction l1 as [|d rest IH]; cbn; [reflexivity|].
  destruct (String.eqb (Name d) name && String.eqb (Type_ d) ty); auto.
Qed.

Lemma GetDeviceByName_enumerated ty ty' l name :
  DeviceManager.GetDeviceByName (map (DeviceManager.deviceInfo ty) l) name ty'
  = if String.eqb ty ty'
    then option_map (DeviceManager.deviceInfo ty)
           (find (fun d => String.eqb (DeviceManager.devName d) name) l)
    else None.
Proof.
  induction l as [|d rest IH]; cbn.
  - destruct (String.eqb ty ty'); reflexivity.
  - rewrite IH. destruct (String.eqb ty ty'); [|rewrite andb_false_r; reflexivity].
    rewrite andb_true_r.
    destruct (String.eqb (DeviceManager.devName d) name); reflexivity.
Qed.

Lemma GetDefaultDevice_app l1 l2 ty :
  DeviceManager.GetDefaultDevice (l1 ++ l2) ty
  = match DeviceManager.GetDefaultDevice l1 ty with
    | Some d => Some d
    | None => DeviceManager.GetDefaultDevice l2 ty
    end.
Proof.
  induction l1 as [|d rest IH]; cbn; [reflexivity|].
  destruct (String.eqb (Type_ d) ty && IsDefault d); auto.
Qed.

Lemma GetDefaultDevice_enumerated ty ty' l :
  DeviceManager.GetDefaultDevice (map (DeviceManager.deviceInfo ty) l) ty'
  = if String.eqb ty ty'
    then option_map (DeviceManager.deviceInfo ty)
           (find (fun d => negb (DeviceManager.devIsDefault d =? 0)) l)
    else None.
Proof.
  induction l as [|d rest IH]; cbn.
  - destruct (String.eqb ty ty'); reflexivity.
  - rewrite IH. destruct (String.eqb ty ty'); [|reflexivity].
    cbn [andb]. destruct (negb (DeviceManager.devIsDefault d =? 0)); reflexivity.
Qed.

Lemma GetDeviceByName_refreshed ins outs name ty :
  DeviceManager.GetDeviceByName (DeviceManager.RefreshDevices ins outs) name ty
  = option_map (DeviceManager.deviceInfo ty)
      (find (fun d => String.eqb (DeviceManager.devName d) name) (reported ins outs ty)).
Proof.
  unfold DeviceManager.RefreshDevices, DeviceManager.enumerateDevices, reported.
  cbn [app]. rewrite GetDeviceByName_app, !GetDeviceByName_enumerated.
  destruct (String.eqb_spec "input" ty) as [<-|Hi].
  - destruct (find _ ins); reflexivity.
  - destruct (String.eqb_spec "output" ty) as [<-|Ho]; reflexivity.
Qed.

Lemma GetDefaultDevice_refreshed ins outs ty :
  DeviceManager.GetDefaultDevice (DeviceManager.RefreshDevices ins outs) ty
  = option_map (DeviceManager.deviceInfo ty)
      (find (fun d => negb (DeviceManager.devIsDefault d =? 0)) (reported ins outs ty)).
Proof.
  unfold DeviceManager.RefreshDevices, DeviceManager.enumerateDevices, reported.
  cbn [app]. rewrite GetDefaultDevice_app, !GetDefaultDevice_enumerated.
  destruct (String.eqb_spec "input" ty) as [<-|Hi].
  - destruct (find _ ins); reflexivity.
  - destruct (String.eqb_spec "output" ty) as [<-|Ho]; reflexivity.
Qed.

Lemma existsb_Z_In x l : existsb (fun y => y =? x) l = true <-> In x l.
Proof.
  rewrite existsb_exists. split.
  - intros (y & Hin & Heq). apply Z.eqb_eq in Heq. subst. exact Hin.
  - intros Hin. exists x. split; [exact Hin|apply Z.eqb_refl].
Qed.

Lemma existsb_string_In x l : existsb (fun y => String.eqb y x) l = true <-> In x l.
Proof.
  rewrite existsb_exists. split.
  - intros (y & Hin & Heq). apply String.eqb_eq in Heq. subst. exact Hin.
  - intros Hin. exists x. split; [exact Hin|apply String.eqb_refl].
Qed.

Lemma find_name_some (l : list DeviceManager.malgoDevice) name :
  (exists d, find (fun d => String.eqb (DeviceManager.devName d) name) l = Some d)
  <-> exists d, In d l /\ DeviceManager.devName d = name.
Proof.
  split.
  - intros (d & Hf). apply find_some in Hf. destruct Hf as [Hin Heq].
    apply String.eqb_eq in Heq. eauto.
  - intros (d & Hin & Heq).
    destruct (find (fun d => String.eqb (DeviceManager.devName d) name) l) eqn:Hf; eauto.
    apply find_none with (x := d) in Hf; [|exact Hin].
    rewrite Heq, String.eqb_refl in Hf. discriminate.
Qed.

Lemma find_default_some (l : list DeviceManager.malgoDevice) :
  (exists d, find (fun d => negb (DeviceManager.devIsDefault d =? 0)) l = Some d)
  <-> exists d, In d l /\ DeviceManager.devIsDefault d <> 0.
Proof.
  split.
  - intros (d & Hf). apply find_some in Hf. destruct Hf as [Hin Heq].
    exists d. split; [exact Hin|]. destruct (Z.eqb_spec (DeviceManager.devIsDefault d) 0);
      [discriminate|assumption].
  - intros (d & Hin & Hne).
    destruct (find (fun d => negb (DeviceManager.devIsDefault d =? 0)) l) eqn:Hf; eauto.
    apply find_none with (x := d) in Hf; [|exact Hin].
    destruct (Z.eqb_spec (DeviceManager.devIsDefault d) 0); [contradiction|discriminate].
Qed.

(** X4.  On a catalogue filled by [RefreshDevices], a configuration is
    supported exactly when malgo reported a device of that name for the
    direction asked and the sample rate, the channel count and the
    format are in the three fixed tables of [enumerateDevices]; the
    device itself has no say. *)
Theorem IsDeviceSupported_on_refreshed_catalogue
  (inputDevices outputDevices : list DeviceManager.malgoDevice)
  (deviceName : string) (sampleRate channels : Z) (format : string) :
  let devices := DeviceManager.RefreshDevices inputDevices outputDevices in
  let listed :=
    In sampleRate [8000; 11025; 16000; 22050; 44100; 48000; 96000]
    /\ In channels [1; 2; 4; 6; 8]
    /\ In format ["int16"%string; "float32"%string] in
  (DeviceManager.IsDeviceSupported devices deviceName "input"
     sampleRate channels format = true
   <-> (exists d, In d inputDevices /\ DeviceManager.devName d = deviceName) /\ listed)
  /\ (DeviceManager.IsDeviceSupported devices deviceName "output"
        sampleRate channels format = true
      <-> (exists d, In d outputDevices /\ DeviceManager.devName d = deviceName)
          /\ listed).
Proof.
  cbv zeta. unfold DeviceManager.IsDeviceSupported.
  rewrite !GetDeviceByName_refreshed. unfold reported.
  cbn [String.eqb Ascii.eqb Bool.eqb].
  rewrite <- !find_name_some.
  split.
  - destruct (find _ inputDevices) as [d|]; cbn [option_map].
    + cbn [DeviceManager.deviceInfo SampleRates Channels Formats].
      rewrite !andb_true_iff, !existsb_Z_In, existsb_string_In.
      split; [intros [[? ?] ?]; eauto 6|tauto].
    + split; [discriminate|intros [[d Hd] _]; discriminate].
  - destruct (find _ outputDevices) as [d|]; cbn [option_map].
    + cbn [DeviceManager.deviceInfo SampleRates Channels Formats].
      rewrite !andb_true_iff, !existsb_Z_In, existsb_string_In.
      split; [intros [[? ?] ?]; eauto 6|tauto].
    + split; [discriminate|intros [[d Hd] _]; discriminate].
Qed.

Lemma IsDeviceSupported_refreshed ins outs name ty sr ch fmt :
  DeviceManager.IsDeviceSupported (DeviceManager.RefreshDevices ins outs)
    name ty sr ch fmt = true
  <-> (exists d, In d (reported ins outs ty) /\ DeviceManager.devName d = name)
      /\ In sr [8000; 11025; 16000; 22050; 44100; 48000; 96000]
      /\ In ch [1; 2; 4; 6; 8]
      /\ In fmt ["int16"%string; "float32"%string].
Proof.
  unfold DeviceManager.IsDeviceSupported.
  rewrite GetDeviceByName_refreshed, <- find_name_some.
  destruct (find _ (reported ins outs ty)) as [d|]; cbn [option_map].
  - cbn [DeviceManager.deviceInfo SampleRates Channels Formats].
    rewrite !andb_true_iff, !existsb_Z_In, existsb_string_In.
    split; [intros [[? ?] ?]; eauto 6|tauto].
  - split; [discriminate|intros [[d Hd] _]; discriminate].
Qed.

Lemma default_name_listed (l : list DeviceManager.malgoDevice) d :
  find (fun d => negb (DeviceManager.devIsDefault d =? 0)) l = Some d ->
  exists d', In d' l /\ DeviceManager.devName d' = DeviceManager.devName d.
Proof. intros Hf. apply find_some in Hf. exists d. tauto. Qed.

Ltac start_tail Hs :=
  destruct Hs as [Hs _]; specialize (Hs eq_refl);
  match goal with
  | |- context [negb ?c] =>
      match goal with
      | |- context [if negb ?a then _ else if negb ?b then _ else _] =>
          destruct c, a, b; cbn [negb snd];
          (split;
           [ first [ discriminate | intros _; intuition eauto ]
           | first [ reflexivity
                   | intros (_ & _ & _ & _ & _ & ? & ? & ?); discriminate ] ])
      end
  end.

Ltac start_refused Hs :=
  cbn [negb snd]; split; [discriminate|];
  intros (_ & ? & ? & ? & ? & _); destruct Hs as [_ Hs];
  assert (false = true) by (apply Hs; intuition eauto); discriminate.

(** X5.  [Input.Start] and [Output.Start] over a catalogue filled by
    [RefreshDevices] succeed exactly when the endpoint is stopped, a
    device can be picked (the configured name is one malgo reported for
    the direction, or, with no name configured, some reported device is
    marked default), the configured rate, channel count and format are
    in the catalogue's tables, and malgo has a context, creates the
    device and starts it. *)
Theorem Start_over_refreshed_catalogue
  (i : Input.t) (o : Output.t)
  (inputDevices outputDevices : list DeviceManager.malgoDevice)
  (context initDevice deviceStart : bool) :
  let drv := driverOf (DeviceManager.RefreshDevices inputDevices outputDevices)
               context initDevice deviceStart in
  let inCfg := AudioInput (Input.config i) in
  let outCfg := AudioOutput (Output.config o) in
  (snd (Input.Start i drv) = None <->
     Input.isRunning i = false
     /\ pickable inputDevices (inDeviceName inCfg)
     /\ In (inSampleRate inCfg) [8000; 11025; 16000; 22050; 44100; 48000; 96000]
     /\ In (inChannels inCfg) [1; 2; 4; 6; 8]
     /\ In (inFormat inCfg) ["int16"%string; "float32"%string]
     /\ context = true /\ initDevice = true /\ deviceStart = true)
  /\ (snd (Output.Start o drv) = None <->
        Output.isRunning o = false
        /\ pickable outputDevices (outDeviceName outCfg)
        /\ In (outSampleRate outCfg) [8000; 11025; 16000; 22050; 44100; 48000; 96000]
        /\ In (outChannels outCfg) [1; 2; 4; 6; 8]
        /\ In (outFormat outCfg) ["int16"%string; "float32"%string]
        /\ context = true /\ initDevice = true /\ deviceStart = true).
Proof.
  cbv zeta. split.
  - unfold Input.Start, pickable.
    destruct (Input.isRunning i); [cbn; split; [discriminate|intros [? _]; discriminate]|].
    cbn [driverOf GetDefaultDevice IsDeviceSupported GetContext InitDevice DeviceStart].
    rewrite GetDefaultDevice_refreshed. unfold reported at 1.
    cbn [String.eqb Ascii.eqb Bool.eqb].
    destruct (String.eqb (inDeviceName (AudioInput (Input.config i))) "").
    + rewrite <- find_default_some.
      destruct (find _ inputDevices) as [d|] eqn:Hf; cbn [option_map].
      * cbn [DeviceManager.deviceInfo Name].
        pose proof (IsDeviceSupported_refreshed inputDevices outputDevices
                      (DeviceManager.devName d) "input"
                      (inSampleRate (AudioInput (Input.config i)))
                      (inChannels (AudioInput (Input.config i)))
                      (inFormat (AudioInput (Input.config i)))) as Hs.
        unfold reported in Hs. cbn [String.eqb Ascii.eqb Bool.eqb] in Hs.
        pose proof (default_name_listed _ _ Hf) as Hl.
        destruct (DeviceManager.IsDeviceSupported _ _ _ _ _ _); cbn [negb].
        -- start_tail Hs.
        -- start_refused Hs.
      * cbn. split; [discriminate|]. intros (_ & [d Hd] & _). discriminate.
    + pose proof (IsDeviceSupported_refreshed inputDevices outputDevices
                    (inDeviceName (AudioInput (Input.config i))) "input"
                    (inSampleRate (AudioInput (Input.config i)))
                    (inChannels (AudioInput (Input.config i)))
                    (inFormat (AudioInput (Input.config i)))) as Hs.
      unfold reported in Hs. cbn [String.eqb Ascii.eqb Bool.eqb] in Hs.
      destruct (DeviceManager.IsDeviceSupported _ _ _ _ _ _); cbn [negb].
      * start_tail Hs.
      * start_refused Hs.
  - unfold Output.Start, pickable.
    destruct (Output.isRunning o); [cbn; split; [discriminate|intros [? _]; discriminate]|].
    cbn [driverOf GetDefaultDevice IsDeviceSupported GetContext InitDevice DeviceStart].
    rewrite GetDefaultDevice_refreshed. unfold reported at 1.
    cbn [String.eqb Ascii.eqb Bool.eqb].
    destruct (String.eqb (outDeviceName (AudioOutput (Output.config o))) "").
    + rewrite <- find_default_some.
      destruct (find _ outputDevices) as [d|] eqn:Hf; cbn [option_map].
      * cbn [DeviceManager.deviceInfo Name].
        pose proof (IsDeviceSupported_refreshed inputDevices outputDevices
                      (DeviceManager.devName d) "output"
                      (outSampleRate (AudioOutput (Output.config o)))
                      (outChannels (AudioOutput (Output.config o)))
                      (outFormat (AudioOutput (Output.config o)))) as Hs.
        unfold reported in Hs. cbn [String.eqb Ascii.eqb Bool.eqb] in Hs.
        pose proof (default_name_listed _ _ Hf) as Hl.
        destruct (DeviceManager.IsDeviceSupported _ _ _ _ _ _); cbn [negb].
        -- start_tail Hs.
        -- start_refused Hs.
      * cbn. split; [discriminate|]. intros (_ & [d Hd] & _). discriminate.
    + pose proof (IsDeviceSupported_refreshed inputDevices outputDevices
                    (outDeviceName (AudioOutput (Output.config o))) "output"
                    (outSampleRate (AudioOutput (Output.config o)))
                    (outChannels (AudioOutput (Output.config o)))
                    (outFormat (AudioOutput (Output.config o)))) as Hs.
      unfold reported in Hs. cbn [String.eqb Ascii.eqb Bool.eqb] in Hs.
      destruct (DeviceManager.IsDeviceSupported _ _ _ _ _ _); cbn [negb].
      * start_tail Hs.
      * start_refused Hs.
Qed.

Lemma IsDeviceSupported_listed devices name ty sr ch fmt :
  DeviceManager.IsDeviceSupported devices name ty sr ch fmt = true ->
  exists device, DeviceManager.GetDeviceByName devices name ty = Some device.
Proof.
  unfold DeviceManager.IsDeviceSupported.
  destruct (DeviceManager.GetDeviceByName devices name ty); [eauto|discriminate].
Qed.

Lemma firstOfType_none devices ty :
  PlatformDeviceManager.firstOfType devices ty = None ->
  Forall (fun d => Type_ d <> ty) devices.
Proof.
  induction devices as [|d rest IH]; cbn; [constructor|].
  destruct (String.eqb_spec (Type_ d) ty); [discriminate|].
  intros Hn. constructor; auto.
Qed.

(** X6.  [macOSInput.Start] never returns the error of
    [testDeviceAccess]: the device it looks up there is one
    [IsDeviceSupported] has just found under the same name.  A start
    either succeeds, leaving the endpoint running under the device name
    it picked, or fails as already running, as without any capture
    device to default to, or as unsupported; an unsupported start has
    already stored the device name. *)
Theorem macOS_Start_outcomes (i : macOSInput.t) :
  let cfg := AudioInput (macOSInput.config i) in
  match macOSInput.Start i with
  | (i', None) =>
      macOSInput.isRunning i = false /\ macOSInput.isRunning i' = true
      /\ DeviceManager.IsDeviceSupported (macOSInput.devices i)
           (macOSInput.deviceName i') "input"
           (inSampleRate cfg) (inChannels cfg) (inFormat cfg) = true
      /\ macOSInput.buffer i' = macOSInput.buffer i
      /\ macOSInput.gain i' = macOSInput.gain i
  | (i', Some macOSInput.AlreadyRunning) =>
      macOSInput.isRunning i = true /\ i' = i
  | (i', Some macOSInput.NoDefaultInputDevice) =>
      inDeviceName cfg = ""%string
      /\ Forall (fun d => Type_ d <> "input"%string) (macOSInput.devices i)
      /\ i' = i
  | (i', Some (macOSInput.ConfigurationNotSupported name)) =>
      macOSInput.isRunning i' = false
      /\ i' = macOSInput.setDeviceName i name
      /\ DeviceManager.IsDeviceSupported (macOSInput.devices i) name "input"
           (inSampleRate cfg) (inChannels cfg) (inFormat cfg) = false
  | (_, Some (macOSInput.DeviceNotListed _))
  | (_, Some (macOSInput.TestDeviceAccessFailed _)) => False
  end.
Proof.
  cbv zeta. unfold macOSInput.Start.
  destruct (macOSInput.isRunning i) eqn:Hrun; [auto|].
  destruct (String.eqb_spec (inDeviceName (AudioInput (macOSInput.config i))) "")
    as [Hname|Hname].
  - unfold PlatformDeviceManager.GetDefaultDevice.
    pose proof (firstOfType_none (macOSInput.devices i) "input") as Hnone.
    destruct (DeviceManager.GetDefaultDevice (macOSInput.devices i) "input") as [d|];
      [|destruct (PlatformDeviceManager.firstOfType (macOSInput.devices i) "input")
          as [d|]];
      cbn [option_map]; try (repeat split; auto; fail);
      cbn [macOSInput.setDeviceName macOSInput.devices macOSInput.config];
      destruct (DeviceManager.IsDeviceSupported _ _ _ _ _ _) eqn:Hs; cbn [negb];
      try (cbn; repeat split; auto; fail);
      unfold macOSInput.testDeviceAccess;
      cbn [macOSInput.setDeviceName macOSInput.devices macOSInput.deviceName];
      destruct (IsDeviceSupported_listed _ _ _ _ _ _ Hs) as [dev ->];
      cbn; repeat split; auto.
  - cbn [macOSInput.setDeviceName macOSInput.devices macOSInput.config].
    destruct (DeviceManager.IsDeviceSupported _ _ _ _ _ _) eqn:Hs; cbn [negb];
      [|cbn; repeat split; auto].
    unfold macOSInput.testDeviceAccess.
    cbn [macOSInput.setDeviceName macOSInput.devices macOSInput.deviceName].
    destruct (IsDeviceSupported_listed _ _ _ _ _ _ Hs) as [dev ->].
    cbn. repeat split; auto.
Qed.

(** A catalogue of one microphone and one default speaker: the
    microphone is found by its name but is not the default capture
    device, since it is not marked; the platform catalogues fall back
    to it.  A capture endpoint configured for 3 channels, which
    [validateConfig] lets through, is not started. *)
Example catalogue_of_two :
  let devices := DeviceManager.RefreshDevices
    [{| DeviceManager.devID := "0"; DeviceManager.devName := "USB Audio";
        DeviceManager.devIsDefault := 0 |}]
    [{| DeviceManager.devID := "1"; DeviceManager.devName := "Speakers";
        DeviceManager.devIsDefault := 1 |}] in
  let threeChannels := {|
    AudioInput := {| inDeviceName := "USB Audio"; inSampleRate := 8000;
                     inChannels := 3; inBufferSize := 256; inGain := 1%float;
                     inFormat := "int16" |};
    AudioOutput := AudioOutput defaultConfig |} in
  let processing := {| EchoCancellation := false; NoiseSuppression := true;
                       AutoGainControl := true; Format := "int16" |} in
  option_map Name (DeviceManager.GetDeviceByName devices "USB Audio" "input")
  = Some "USB Audio"%string
  /\ DeviceManager.GetDeviceByName devices "USB Audio" "output" = None
  /\ DeviceManager.GetDefaultDevice devices "input" = None
  /\ option_map Name (PlatformDeviceManager.GetDefaultDevice devices "input")
     = Some "USB Audio"%string
  /\ option_map Name (DeviceManager.GetDefaultDevice devices "output")
     = Some "Speakers"%string
  /\ DeviceManager.IsDeviceSupported devices "USB Audio" "input" 8000 1 "int16" = true
  /\ DeviceManager.IsDeviceSupported devices "USB Audio" "input" 8000 3 "int16" = false
  /\ DeviceManager.IsDeviceSupported devices "USB Audio" "input" 8000 1 "" = false
  /\ validateConfig threeChannels processing = None
  /\ match Input.NewInput threeChannels with
     | Ret i =>
         Input.Start i (driverOf devices true true true)
         = (i, Some (DeviceNotSupported "USB Audio"))
     | Panics _ => False
     end.
Proof. vm_compute. repeat split; reflexivity. Qed.

Lemma validateConfig_accepts config processing :
  validateConfig config processing = None ->
  (0 < inSampleRate (AudioInput config) /\ 0 < outSampleRate (AudioOutput config))
  /\ (1 <= inChannels (AudioInput config) <= 8
      /\ 1 <= outChannels (AudioOutput config) <= 8)
  /\ (0 < inBufferSize (AudioInput config) /\ 0 < outBufferSize (AudioOutput config))
  /\ ((inGain (AudioInput config) <? 0)%float || (2 <? inGain (AudioInput config))%float
      = false)
  /\ ((outVolume (AudioOutput config) <? 0)%float
      || (1 <? outVolume (AudioOutput config))%float = false)
  /\ (Format processing = "int16"%string \/ Format processing = "float32"%string).
Proof.
  unfold validateConfig.
  destruct (Z.leb_spec (inSampleRate (AudioInput config)) 0); [discriminate|].
  destruct (Z.leb_spec (outSampleRate (AudioOutput config)) 0); [discriminate|].
  destruct (Z.leb_spec (inChannels (AudioInput config)) 0); [discriminate|].
  destruct (Z.ltb_spec 8 (inChannels (AudioInput config))); [discriminate|].
  destruct (Z.leb_spec (outChannels (AudioOutput config)) 0); [discriminate|].
  destruct (Z.ltb_spec 8 (outChannels (AudioOutput config))); [discriminate|].
  destruct (Z.leb_spec (inBufferSize (AudioInput config)) 0); [discriminate|].
  destruct (Z.leb_spec (outBufferSize (AudioOutput config)) 0); [discriminate|].
  cbn [orb].
  destruct ((inGain (AudioInput config) <? 0)%float
            || (2 <? inGain (AudioInput config))%float); [discriminate|].
  destruct ((outVolume (AudioOutput config) <? 0)%float
            || (1 <? outVolume (AudioOutput config))%float); [discriminate|].
  destruct (String.eqb_spec (Format processing) "int16");
    destruct (String.eqb_spec (Format processing) "float32");
    cbn [negb andb]; try discriminate; intros _; repeat split; auto; lia.
Qed.



(** X8.  [validateConfig] puts no upper bound on a buffer size: when a
    configuration it accepts has BufferSize * Channels * 2 between 2^63
    and 2^64 for either endpoint, the product wraps to a negative [int]
    and [NewManager], once [NewDeviceManager] has given it a device
    manager, panics in [make]; when [NewDeviceManager] returned an error
    instead, [NewManager] returns that error wrapped before it allocates
    anything, and does not panic. *)
Theorem validated_config_can_panic
  (config : Config) (processing : ProcessingConfig) :
  let inLen := inBufferSize (AudioInput config) * inChannels (AudioInput config) * 2 in
  let outLen := outBufferSize (AudioOutput config) * outChannels (AudioOutput config) * 2 in
  validateConfig config processing = None ->
  maxInt < inLen < 2 ^ 64 \/ maxInt < outLen < 2 ^ 64 ->
  Manager.NewManager None config = Panics MakesliceLenOutOfRange
  /\ (forall err,
        Manager.NewManager (Some err) config
        = Ret (None, Some (CreateDeviceManagerFailed err))).
Proof.
  intros inLen outLen Hv Hbig.
  split; [|intros err; reflexivity].
  apply validateConfig_accepts in Hv.
  destruct Hv as ((? & ?) & ((? & ?) & (? & ?)) & (? & ?) & _).
  assert (Hwrap : forall b c, 0 < b -> 1 <= c <= 8 -> maxInt < b * c * 2 < 2 ^ 64 ->
            makeBytes (wrapInt (wrapInt (b * c) * 2)) = Panics MakesliceLenOutOfRange).
  { intros b c Hb Hc Hr. unfold maxInt in Hr.
    rewrite (wrapInt_small (b * c)) by (unfold maxInt; lia).
    unfold wrapInt.
    replace ((b * c * 2 + 9223372036854775808) mod 18446744073709551616)
      with (b * c * 2 - 9223372036854775808)
      by (apply Z.mod_unique with (q := 1); lia).
    unfold makeBytes.
    destruct (Z.ltb_spec (b * c * 2 - 9223372036854775808 - 9223372036854775808) 0);
      [reflexivity|lia]. }
  assert (Hany : forall n, makeBytes n = Panics MakesliceLenOutOfRange
                           \/ exists buf, makeBytes n = Ret buf).
  { intros n. unfold makeBytes. destruct ((n <? 0) || (maxInt <? n)); eauto. }
  unfold Manager.NewManager, Input.NewInput, Output.NewOutput.
  destruct Hbig as [Hbig|Hbig].
  - rewrite Hwrap by (fold inLen; auto). reflexivity.
  - rewrite (Hwrap (outBufferSize (AudioOutput config))) by (fold outLen; auto).
    destruct (Hany (wrapInt (wrapInt (inBufferSize (AudioInput config)
                                      * inChannels (AudioInput config)) * 2)))
      as [->|[buf ->]]; reflexivity.
Qed.

Lemma validated_config_can_panic_witness :
  let config := {|
    AudioInput := {| inDeviceName := ""; inSampleRate := 8000; inChannels := 1;
                     inBufferSize := 2 ^ 62; inGain := 1%float;
                     inFormat := "int16" |};
    AudioOutput := AudioOutput defaultConfig |} in
  let processing := {| EchoCancellation := false; NoiseSuppression := true;
                       AutoGainControl := true; Format := "int16" |} in
  validateConfig config processing = None
  /\ maxInt < 2 ^ 62 * 1 * 2 < 2 ^ 64
  /\ Manager.NewManager None config = Panics MakesliceLenOutOfRange
  /\ Manager.NewManager (Some InitContextFailed) config
     = Ret (None, Some (CreateDeviceManagerFailed InitContextFailed)).
Proof.
  cbv zeta.
  split; [vm_compute; reflexivity|].
  split; [vm_compute; split; reflexivity|].
  destruct (validated_config_can_panic
              {| AudioInput := {| inDeviceName := ""; inSampleRate := 8000;
                                  inChannels := 1; inBufferSize := 2 ^ 62;
                                  inGain := 1%float; inFormat := "int16" |};
                 AudioOutput := AudioOutput defaultConfig |}
              {| EchoCancellation := false; NoiseSuppression := true;
                 AutoGainControl := true; Format := "int16" |})
    as [Hpanic Herr].
  - vm_compute; reflexivity.
  - left. vm_compute; split; reflexivity.
  - split; [exact Hpanic|exact (Herr InitContextFailed)].
Defined.

(** ** The gain and volume loops *)

Section ScaleProps.
Context `{Runtime}.

Lemma scaleSample_range factor s : -32768 <= scaleSample factor s <= 32767.
Proof. apply int16OfFloat_range. Qed.

Lemma scaleLoop_spec factor n data : forall j,
  Nat.even (List.length data) = true ->
  scaleLoop factor n j data = Ret (bytesOf (map (scaleSample factor) (samples data))).
Proof.
  induction data as [|b|b0 b1 rest IH] using list_pair_ind; intros j Hev.
  - reflexivity.
  - discriminate.
  - cbn [scaleLoop samples map bytesOf]. rewrite IH by exact Hev. reflexivity.
Qed.

Lemma scaleLoop_odd factor data : forall n j,
  Nat.even (List.length data) = false ->
  n = j + Z.of_nat (List.length data) ->
  scaleLoop factor n j data = Panics (IndexOutOfRange n n).
Proof.
  induction data as [|b|b0 b1 rest IH] using list_pair_ind; intros n j Hodd Hn.
  - discriminate.
  - cbn in *. subst n. reflexivity.
  - cbn [scaleLoop]. rewrite (IH n (j + 2)); [reflexivity|exact Hodd|].
    cbn [List.length] in Hn. lia.
Qed.

Lemma Input_levelLoop_returns n data : forall j sum,
  Nat.even (List.length data) = true ->
  exists r, Input.levelLoop n j data sum = Ret r.
Proof.
  induction data as [|b|b0 b1 rest IH] using list_pair_ind; intros j sum Hev.
  - eexists; reflexivity.
  - discriminate.
  - cbn [Input.levelLoop]. apply IH. exact Hev.
Qed.

Lemma Input_levelLoop_odd data : forall n j sum,
  Nat.even (List.length data) = false ->
  n = j + Z.of_nat (List.length data) ->
  Input.levelLoop n j data sum = Panics (IndexOutOfRange n n).
Proof.
  induction data as [|b|b0 b1 rest IH] using list_pair_ind; intros n j sum Hodd Hn.
  - discriminate.
  - cbn in *. subst n. reflexivity.
  - cbn [Input.levelLoop]. rewrite (IH n (j + 2)); [reflexivity|exact Hodd|].
    cbn [List.length] in Hn. lia.
Qed.

Lemma scale_table :
  allFrom (Z.to_nat 65536) (-32768)
    (fun s =>
       (scaleSample 1 s =? s) && (scaleSample 0 s =? 0)
       && (scaleSample 2 s =? Z.max (-32768) (Z.min 32767 (2 * s)))) = true.
Proof. vm_compute. reflexivity. Qed.

End ScaleProps.

Lemma mul_nan x : (x * nan)%float = nan.
Proof.
  apply Prim2SF_inj. rewrite mul_spec.
  change (Prim2SF nan) with S754_nan.
  destruct (Prim2SF x) as [s|s| |s m e]; reflexivity.
Qed.

Lemma ltb_nan_l x : (nan <? x)%float = false.
Proof. rewrite ltb_spec. change (Prim2SF nan) with S754_nan. reflexivity. Qed.

Lemma ltb_nan_r x : (x <? nan)%float = false.
Proof.
  rewrite ltb_spec. change (Prim2SF nan) with S754_nan.
  destruct (Prim2SF x) as [s|s| |s m e]; try destruct s; reflexivity.
Qed.

Lemma scaleSample_nan `{Runtime} s :
  scaleSample nan s = wrap16 (int16Unrepresentable nan).
Proof.
  unfold scaleSample. rewrite mul_nan, ltb_nan_r, ltb_nan_l.
  unfold int16OfFloat, truncate. change (Prim2SF nan) with S754_nan. reflexivity.
Qed.

(** ** The device callbacks *)

Lemma copyBytes_length dst src : List.length (copyBytes dst src) = List.length dst.
Proof.
  unfold copyBytes. rewrite length_app, length_firstn, length_skipn. lia.
Qed.

Lemma copyBytes_same_length dst src :
  List.length dst = List.length src -> copyBytes dst src = src.
Proof.
  intros Hlen. unfold copyBytes. rewrite Hlen, firstn_all, skipn_all2 by lia.
  apply app_nil_r.
Qed.

Lemma bytesOf_length ss : List.length (bytesOf ss) = (2 * List.length ss)%nat.
Proof. induction ss as [|s rest IH]; cbn [bytesOf List.length]; lia. Qed.

Lemma scaled_length `{Runtime} factor data :
  Nat.even (List.length data) = true ->
  List.length (bytesOf (map (scaleSample factor) (samples data))) = List.length data.
Proof.
  intros Hev. rewrite bytesOf_length, length_map. apply samples_length. exact Hev.
Qed.

Lemma scaleSample_ends `{Runtime} s :
  -32768 <= s <= 32767 ->
  scaleSample 1 s = s /\ scaleSample 0 s = 0
  /\ scaleSample 2 s = Z.max (-32768) (Z.min 32767 (2 * s)).
Proof.
  intros Hs.
  pose proof (allFrom_spec _ _ _ scale_table s ltac:(lia)) as Ht.
  cbv beta in Ht. apply andb_prop in Ht. destruct Ht as [Ht H2].
  apply andb_prop in Ht. destruct Ht as [H1 H0].
  apply Z.eqb_eq in H0, H1, H2. auto.
Qed.

Lemma Input_calculateLevel_returns `{Runtime} data :
  Nat.even (List.length data) = true ->
  exists l, forall i, Input.calculateLevel i data = Ret (Input.setLevel i l).
Proof.
  intros Hev. unfold Input.calculateLevel.
  destruct (Z.of_nat (List.length data) =? 0); [eexists; reflexivity|].
  destruct (Input_levelLoop_returns (Z.of_nat (List.length data)) data 0 0%float Hev)
    as [sum ->].
  cbn [bind].
  destruct (0 <? sqrt (sum / floatOfZ (Z.of_nat (List.length data) / 2)))%float;
    eexists; reflexivity.
Qed.

Lemma Output_calculateLevel_returns `{Runtime} data :
  Nat.even (List.length data) = true ->
  exists l, forall o, Output.calculateLevel o data = Ret (Output.setLevel o l).
Proof.
  intros Hev. unfold Output.calculateLevel.
  destruct (Z.of_nat (List.length data) =? 0); [eexists; reflexivity|].
  destruct (Input_levelLoop_returns (Z.of_nat (List.length data)) data 0 0%float Hev)
    as [sum ->].
  cbn [bind].
  destruct (0 <? sqrt (sum / floatOfZ (Z.of_nat (List.length data) / 2)))%float;
    eexists; reflexivity.
Qed.

Lemma Input_dataCallback_result `{Runtime}
  (i : Input.t) (pInputSamples : list byte) :
  let copied := copyBytes (Input.buffer i) pInputSamples in
  Input.isRunning i = true ->
  Nat.even (List.length (Input.buffer i)) = true ->
  Nat.even (List.length pInputSamples) = true ->
  exists l,
    (forall i0, Input.calculateLevel i0 pInputSamples = Ret (Input.setLevel i0 l))
    /\ Input.dataCallback i pInputSamples
       = Ret {| Input.config := Input.config i;
                Input.device := Input.device i;
                Input.isRunning := Input.isRunning i;
                Input.level := l;
                Input.gain := Input.gain i;
                Input.buffer :=
                  if (Input.gain i =? 1)%float then copied
                  else bytesOf (map (scaleSample (Input.gain i)) (samples copied)) |}.
Proof.
  intros copied Hrun Hbuf Hin.
  destruct (Input_calculateLevel_returns pInputSamples Hin) as [l Hl].
  assert (Hcopied : Nat.even (List.length copied) = true)
    by (subst copied; rewrite copyBytes_length; exact Hbuf).
  exists l. split; [exact Hl|].
  unfold Input.dataCallback. rewrite Hrun at 1. cbn [negb].
  rewrite Hl. cbn [bind].
  cbn [Input.setLevel Input.setBuffer Input.gain Input.buffer Input.config
       Input.isRunning Input.device Input.level].
  fold copied.
  destruct (Input.gain i =? 1)%float eqn:Hg; cbn [negb]; [reflexivity|].
  unfold Input.applyGain.
  cbn [Input.setLevel Input.setBuffer Input.gain Input.buffer]. rewrite Hg.
  rewrite scaleLoop_spec by exact Hcopied. reflexivity.
Qed.

(** X9.  One capture callback on a running endpoint, for blocks of whole
    samples.  The level stored is the one of the block as it arrived,
    whatever the gain.  The buffer keeps its length: a longer block is
    cut to it, a shorter one leaves the tail of the buffer as it was;
    with a gain other than 1.0 every sample of the buffer, that tail
    included, is then scaled. *)
Theorem Input_dataCallback_block `{Runtime}
  (i : Input.t) (pInputSamples : list byte) :
  let copied := firstn (List.length (Input.buffer i)) pInputSamples
                ++ skipn (List.length pInputSamples) (Input.buffer i) in
  Input.isRunning i = true ->
  Nat.even (List.length (Input.buffer i)) = true ->
  Nat.even (List.length pInputSamples) = true ->
  exists i' l,
    Input.dataCallback i pInputSamples = Ret i'
    /\ (forall i0, Input.calculateLevel i0 pInputSamples = Ret (Input.setLevel i0 l))
    /\ Input.GetLevel i' = l
    /\ List.length (Input.GetBuffer i') = List.length (Input.GetBuffer i)
    /\ Input.GetBuffer i' =
       (if (Input.gain i =? 1)%float then copied
        else bytesOf (map (scaleSample (Input.gain i)) (samples copied)))
    /\ Input.GetGain i' = Input.GetGain i
    /\ Input.IsRunning i' = true
    /\ Input.GetConfig i' = Input.GetConfig i.
Proof.
  intros copied Hrun Hbuf Hin.
  destruct (Input_dataCallback_result i pInputSamples Hrun Hbuf Hin) as (l & Hl & Hcb).
  assert (Hlen : List.length copied = List.length (Input.buffer i))
    by apply copyBytes_length.
  eexists _, l. split; [exact Hcb|]. split; [exact Hl|].
  unfold Input.GetLevel, Input.GetBuffer, Input.GetGain, Input.IsRunning,
    Input.GetConfig.
  cbn [Input.level Input.buffer Input.gain Input.isRunning Input.config].
  repeat split; auto.
  destruct (Input.gain i =? 1)%float; [exact Hlen|].
  rewrite scaled_length; [apply copyBytes_length|].
  rewrite copyBytes_length. exact Hbuf.
Qed.

Lemma Input_dataCallback_block_witness :
  let i := {| Input.config := defaultConfig; Input.device := true;
              Input.isRunning := true; Input.level := 0%float;
              Input.gain := 2%float; Input.buffer := bytesOf [100; -20000] |} in
  let pInputSamples := bytesOf [30000] in
  let copied := firstn (List.length (Input.buffer i)) pInputSamples
                ++ skipn (List.length pInputSamples) (Input.buffer i) in
  Input.isRunning i = true
  /\ Nat.even (List.length (Input.buffer i)) = true
  /\ Nat.even (List.length pInputSamples) = true
  /\ exists i' l,
       Input.dataCallback i pInputSamples = Ret i'
       /\ (forall i0, Input.calculateLevel i0 pInputSamples = Ret (Input.setLevel i0 l))
       /\ Input.GetLevel i' = l
       /\ List.length (Input.GetBuffer i') = List.length (Input.GetBuffer i)
       /\ Input.GetBuffer i' =
          (if (Input.gain i =? 1)%float then copied
           else bytesOf (map (scaleSample (Input.gain i)) (samples copied)))
       /\ Input.GetGain i' = Input.GetGain i
       /\ Input.IsRunning i' = true
       /\ Input.GetConfig i' = Input.GetConfig i.
Proof.
  cbv zeta.
  split; [reflexivity|]. split; [reflexivity|]. split; [reflexivity|].
  apply (Input_dataCallback_block
           {| Input.config := defaultConfig; Input.device := true;
              Input.isRunning := true; Input.level := 0%float;
              Input.gain := 2%float; Input.buffer := bytesOf [100; -20000] |}
           (bytesOf [30000])); reflexivity.
Defined.

(** A short block under gain 2.0: the new sample is doubled and limited,
    and so is the sample the buffer still held from before. *)
Example Input_dataCallback_short_block :
  let i := {| Input.config := defaultConfig; Input.device := true;
              Input.isRunning := true; Input.level := 0%float;
              Input.gain := 2%float; Input.buffer := bytesOf [100; -20000] |} in
  match Input.dataCallback i (bytesOf [30000]) with
  | Ret i' => Input.GetBuffer i' = bytesOf [32767; -32768]
  | Panics _ => False
  end.
Proof. vm_compute. reflexivity. Qed.

Lemma map_scale_ext `{Runtime} factor (f : Z -> Z) ss :
  Forall (fun s => -32768 <= s <= 32767) ss ->
  (forall s, -32768 <= s <= 32767 -> scaleSample factor s = f s) ->
  map (scaleSample factor) ss = map f ss.
Proof.
  intros Hall Hf. induction Hall as [|s rest Hs _ IH]; cbn [map]; [reflexivity|].
  rewrite IH, Hf by exact Hs. reflexivity.
Qed.

Lemma bytesOf_zeros (ss : list Z) :
  bytesOf (map (fun _ => 0) ss) = repeat x00 (2 * List.length ss).
Proof.
  induction ss as [|s rest IH]; [reflexivity|].
  cbn [map bytesOf List.length].
  replace (2 * S (List.length rest))%nat with (S (S (2 * List.length rest))) by lia.
  cbn [repeat]. rewrite IH. reflexivity.
Qed.

(** X10.  The ends of the scale.  On blocks of whole samples, a volume
    of 1.0 leaves the block byte for byte as it was, so the test that
    skips [applyVolume] at 1.0 in [dataCallback] changes nothing but the
    work done; a volume of 0.0 silences it; and the largest gain
    [SetGain] takes, 2.0, doubles every sample and holds it at the ends
    of the 16-bit range instead of wrapping. *)
Theorem scale_ends `{Runtime} (o : Output.t) (i : Input.t) (data : list byte) :
  Nat.even (List.length data) = true ->
  Nat.even (List.length (Input.buffer i)) = true ->
  (Output.volume o = 1%float -> Output.applyVolume o data = Ret data)
  /\ (Output.volume o = 0%float ->
      Output.applyVolume o data = Ret (repeat x00 (List.length data)))
  /\ (Input.gain i = 2%float ->
      exists i',
        Input.applyGain i = Ret i'
        /\ samples (Input.GetBuffer i')
           = map (fun s => Z.max (-32768) (Z.min 32767 (2 * s)))
               (samples (Input.GetBuffer i))
        /\ List.length (Input.GetBuffer i') = List.length (Input.GetBuffer i)).
Proof.
  intros Hev Hbuf. unfold Output.applyVolume. repeat split.
  - intros ->. rewrite scaleLoop_spec by exact Hev.
    rewrite (map_scale_ext 1 (fun s => s)).
    + rewrite map_id, bytesOf_samples by exact Hev. reflexivity.
    + apply samples_range.
    + intros s Hs. apply scaleSample_ends. exact Hs.
  - intros ->. rewrite scaleLoop_spec by exact Hev.
    rewrite (map_scale_ext 0 (fun _ => 0)).
    + rewrite bytesOf_zeros, samples_length by exact Hev. reflexivity.
    + apply samples_range.
    + intros s Hs. apply scaleSample_ends. exact Hs.
  - intros Hg. unfold Input.applyGain. rewrite Hg.
    change (2 =? 1)%float with false. cbv iota.
    rewrite scaleLoop_spec by exact Hbuf. cbn [bind].
    eexists. split; [reflexivity|].
    unfold Input.GetBuffer. cbn [Input.setBuffer Input.buffer].
    split.
    + rewrite samples_bytesOf.
      * apply map_scale_ext; [apply samples_range|].
        intros s Hs. apply scaleSample_ends. exact Hs.
      * apply Forall_forall. intros s Hs. apply in_map_iff in Hs.
        destruct Hs as (s0 & <- & _). apply scaleSample_range.
    + apply scaled_length. exact Hbuf.
Qed.

Lemma scale_ends_witness :
  let o := {| Output.config := defaultConfig; Output.device := true;
              Output.isRunning := true; Output.level := 0%float;
              Output.volume := 1%float; Output.buffer := [];
              Output.queue := Output.makeChan 10 |} in
  let i := {| Input.config := defaultConfig; Input.device := true;
              Input.isRunning := true; Input.level := 0%float;
              Input.gain := 2%float;
              Input.buffer := bytesOf [100; -20000; 16384] |} in
  let data := bytesOf [1; -32768; 32767] in
  Nat.even (List.length data) = true
  /\ Nat.even (List.length (Input.buffer i)) = true
  /\ Output.volume o = 1%float
  /\ Input.gain i = 2%float
  /\ Output.applyVolume o data = Ret data
  /\ exists i',
       Input.applyGain i = Ret i'
       /\ samples (Input.GetBuffer i')
          = map (fun s => Z.max (-32768) (Z.min 32767 (2 * s)))
              (samples (Input.GetBuffer i))
       /\ List.length (Input.GetBuffer i') = List.length (Input.GetBuffer i).
Proof.
  cbv zeta.
  pose proof (scale_ends
    {| Output.config := defaultConfig; Output.device := true;
       Output.isRunning := true; Output.level := 0%float;
       Output.volume := 1%float; Output.buffer := [];
       Output.queue := Output.makeChan 10 |}
    {| Input.config := defaultConfig; Input.device := true;
       Input.isRunning := true; Input.level := 0%float;
       Input.gain := 2%float;
       Input.buffer := bytesOf [100; -20000; 16384] |}
    (bytesOf [1; -32768; 32767]) eq_refl eq_refl) as (H1 & _ & H2).
  split; [reflexivity|]. split; [reflexivity|].
  split; [reflexivity|]. split; [reflexivity|].
  split; [exact (H1 eq_refl)|exact (H2 eq_refl)].
Defined.

(** X11.  What the NaN that [SetGain] and [SetVolume] let through does
    to the audio: the product of any sample with NaN is NaN, which
    neither limit test catches, so every sample of the block becomes the
    one value the platform gives for [int16(NaN)]. *)
Theorem NaN_factor_flattens_block `{Runtime}
  (i : Input.t) (o : Output.t) (pInputSamples data : list byte) :
  let flat := wrap16 (int16Unrepresentable nan) in
  Input.isRunning i = true ->
  Nat.even (List.length (Input.buffer i)) = true ->
  Nat.even (List.length pInputSamples) = true ->
  Nat.even (List.length data) = true ->
  (snd (Input.SetGain i nan) = None
   /\ exists i',
        Input.dataCallback (fst (Input.SetGain i nan)) pInputSamples = Ret i'
        /\ List.length (Input.GetBuffer i') = List.length (Input.GetBuffer i)
        /\ Forall (fun s => s = flat) (samples (Input.GetBuffer i')))
  /\ (snd (Output.SetVolume o nan) = None
      /\ exists out,
           Output.applyVolume (fst (Output.SetVolume o nan)) data = Ret out
           /\ List.length out = List.length data
           /\ Forall (fun s => s = flat) (samples out)).
Proof.
  intros flat Hrun Hbuf Hin Hev.
  assert (Hflat : forall l : list Z,
            Forall (fun s => s = flat)
              (samples (bytesOf (map (scaleSample nan) l)))).
  { intros l. rewrite samples_bytesOf.
    - apply Forall_forall. intros s Hs. apply in_map_iff in Hs.
      destruct Hs as (s0 & <- & _). apply scaleSample_nan.
    - apply Forall_forall. intros s Hs. apply in_map_iff in Hs.
      destruct Hs as (s0 & <- & _). apply scaleSample_range. }
  split.
  - split; [reflexivity|].
    destruct (Input_dataCallback_result (fst (Input.SetGain i nan)) pInputSamples)
      as (l & _ & Hcb); auto.
    eexists. split; [exact Hcb|].
    unfold Input.GetBuffer. cbn [Input.buffer].
    change (Input.gain (fst (Input.SetGain i nan))) with nan.
    change (nan =? 1)%float with false. cbv iota.
    split; [|apply Hflat].
    rewrite scaled_length; rewrite copyBytes_length; [reflexivity|exact Hbuf].
  - split; [reflexivity|].
    unfold Output.applyVolume.
    change (Output.volume (fst (Output.SetVolume o nan))) with nan.
    rewrite scaleLoop_spec by exact Hev. eexists. split; [reflexivity|].
    split; [apply scaled_length; exact Hev|apply Hflat].
Qed.

Lemma NaN_factor_flattens_block_witness :
  let i := {| Input.config := defaultConfig; Input.device := true;
              Input.isRunning := true; Input.level := 0%float;
              Input.gain := 1%float; Input.buffer := bytesOf [100; -20000] |} in
  let o := {| Output.config := defaultConfig; Output.device := true;
              Output.isRunning := true; Output.level := 0%float;
              Output.volume := 1%float; Output.buffer := [];
              Output.queue := Output.makeChan 10 |} in
  let pInputSamples := bytesOf [30000; 7] in
  let data := bytesOf [1; -32768; 32767] in
  let flat := wrap16 (int16Unrepresentable nan) in
  Input.isRunning i = true
  /\ Nat.even (List.length (Input.buffer i)) = true
  /\ Nat.even (List.length pInputSamples) = true
  /\ Nat.even (List.length data) = true
  /\ (snd (Input.SetGain i nan) = None
      /\ exists i',
           Input.dataCallback (fst (Input.SetGain i nan)) pInputSamples = Ret i'
           /\ List.length (Input.GetBuffer i') = List.length (Input.GetBuffer i)
           /\ Forall (fun s => s = flat) (samples (Input.GetBuffer i')))
  /\ (snd (Output.SetVolume o nan) = None
      /\ exists out,
           Output.applyVolume (fst (Output.SetVolume o nan)) data = Ret out
           /\ List.length out = List.length data
           /\ Forall (fun s => s = flat) (samples out)).
Proof.
  cbv zeta.
  split; [reflexivity|]. split; [reflexivity|].
  split; [reflexivity|]. split; [reflexivity|].
  apply (NaN_factor_flattens_block
    {| Input.config := defaultConfig; Input.device := true;
       Input.isRunning := true; Input.level := 0%float;
       Input.gain := 1%float; Input.buffer := bytesOf [100; -20000] |}
    {| Output.config := defaultConfig; Output.device := true;
       Output.isRunning := true; Output.level := 0%float;
       Output.volume := 1%float; Output.buffer := [];
       Output.queue := Output.makeChan 10 |}
    (bytesOf [30000; 7]) (bytesOf [1; -32768; 32767])); reflexivity.
Defined.

(** ** The playback queue *)

Lemma PlayAudio_appends o data :
  Output.isRunning o = true ->
  (List.length (Output.held (Output.queue o)) < Output.capacity (Output.queue o))%nat ->
  Output.PlayAudio o data
  = (Output.setQueue o {| Output.held := Output.held (Output.queue o) ++ [data];
                          Output.capacity := Output.capacity (Output.queue o) |},
     None).
Proof.
  intros Hrun Hroom. unfold Output.PlayAudio, Output.trySend, Output.len.
  rewrite Hrun. cbn [negb].
  destruct (Nat.ltb_spec (List.length (Output.held (Output.queue o)))
              (Output.capacity (Output.queue o))); [reflexivity|lia].
Qed.

Lemma playAll_appends blocks : forall o,
  Output.isRunning o = true ->
  (List.length (Output.held (Output.queue o)) + List.length blocks
   <= Output.capacity (Output.queue o))%nat ->
  playAll o blocks
  = match blocks with
    | [] => o
    | _ => Output.setQueue o
             {| Output.held := Output.held (Output.queue o) ++ blocks;
                Output.capacity := Output.capacity (Output.queue o) |}
    end.
Proof.
  unfold playAll.
  induction blocks as [|b rest IH]; intros o Hrun Hroom; [reflexivity|].
  cbn [fold_left]. cbn [List.length] in Hroom.
  rewrite PlayAudio_appends by (auto; lia). cbn [fst].
  rewrite IH.
  - cbn [Output.setQueue Output.queue Output.held Output.capacity].
    destruct rest as [|b' rest'].
    + reflexivity.
    + unfold Output.setQueue. cbn. rewrite <- app_assoc. reflexivity.
  - exact Hrun.
  - cbn [Output.setQueue Output.queue Output.held Output.capacity].
    rewrite length_app. cbn [List.length]. lia.
Qed.

Section PlaybackProps.
Context `{Runtime}.

Lemma dataCallback_unity o data rest p :
  Output.isRunning o = true -> Output.volume o = 1%float ->
  Output.held (Output.queue o) = data :: rest ->
  Nat.even (List.length data) = true ->
  exists l,
    Output.dataCallback o p
    = Ret (Output.setLevel
             (Output.setQueue o {| Output.held := rest;
                                   Output.capacity := Output.capacity (Output.queue o) |})
             l,
           copyBytes p data).
Proof.
  intros Hrun Hvol Hheld Hev.
  destruct (Output_calculateLevel_returns data Hev) as [l Hl].
  exists l. unfold Output.dataCallback, Output.tryReceive.
  rewrite Hrun, Hheld. cbn [negb].
  cbn [Output.setQueue Output.volume]. rewrite Hvol.
  change (1 =? 1)%float with true. cbn [negb bind].
  rewrite Hl. reflexivity.
Qed.

Lemma drain_unity p blocks : forall o rest,
  Output.isRunning o = true -> Output.volume o = 1%float ->
  Output.held (Output.queue o) = blocks ++ rest ->
  Forall (fun data => Nat.even (List.length data) = true
                      /\ List.length data = List.length p) blocks ->
  exists o',
    drain o p (List.length blocks) = Ret (o', blocks)
    /\ Output.isRunning o' = true /\ Output.volume o' = 1%float
    /\ Output.held (Output.queue o') = rest
    /\ Output.capacity (Output.queue o') = Output.capacity (Output.queue o).
Proof.
  induction blocks as [|b more IH]; intros o rest Hrun Hvol Hheld Hall.
  - exists o. cbn. auto.
  - inversion Hall as [|? ? [Hev Hlen] Hmore]; subst.
    cbn [List.length drain].
    destruct (dataCallback_unity o b (more ++ rest) p Hrun Hvol Hheld Hev) as [l ->].
    cbn [bind]. rewrite copyBytes_same_length by (symmetry; exact Hlen).
    destruct (IH (Output.setLevel
                    (Output.setQueue o
                       {| Output.held := more ++ rest;
                          Output.capacity := Output.capacity (Output.queue o) |}) l)
                 rest) as (o' & -> & ? & ? & ? & ?); auto.
    exists o'. cbn [bind]. auto.
Qed.

Lemma dataCallback_empty_queue o p :
  Output.isRunning o = true -> Output.held (Output.queue o) = [] ->
  Output.dataCallback o p
  = Ret (Output.setLevel o (-96.0)%float, repeat x00 (List.length p)).
Proof.
  intros Hrun Hheld. unfold Output.dataCallback, Output.tryReceive.
  rewrite Hrun, Hheld. reflexivity.
Qed.

End PlaybackProps.

(** X12.  Playback is first in, first out.  On a running endpoint with
    an empty queue and volume 1.0, blocks of the size of the device
    buffer, no more of them than the queue has room for, are all
    accepted by [PlayAudio], and as many device callbacks then play
    exactly these blocks in the order they were queued; the queue is
    empty again, and the callback after that plays silence and sets the
    level to -96.0. *)
Theorem playback_first_in_first_out `{Runtime}
  (o : Output.t) (blocks : list (list byte)) (pOutputSample : list byte) :
  let o1 := playAll o blocks in
  Output.isRunning o = true ->
  Output.GetQueueSize o = 0 ->
  Output.volume o = 1%float ->
  (List.length blocks <= Output.capacity (Output.queue o))%nat ->
  Forall (fun data => Nat.even (List.length data) = true
                      /\ List.length data = List.length pOutputSample) blocks ->
  Output.GetQueueSize o1 = Z.of_nat (List.length blocks)
  /\ exists o2,
       drain o1 pOutputSample (List.length blocks) = Ret (o2, blocks)
       /\ Output.GetQueueSize o2 = 0
       /\ Output.dataCallback o2 pOutputSample
          = Ret (Output.setLevel o2 (-96.0)%float,
                 repeat x00 (List.length pOutputSample)).
Proof.
  intros o1 Hrun Hempty Hvol Hroom Hall.
  assert (Hheld : Output.held (Output.queue o) = []).
  { unfold Output.GetQueueSize, Output.len in Hempty.
    destruct (Output.held (Output.queue o)); [reflexivity|cbn in Hempty; lia]. }
  assert (Ho1 : Output.isRunning o1 = true /\ Output.volume o1 = 1%float
                /\ Output.held (Output.queue o1) = blocks ++ []).
  { subst o1. rewrite playAll_appends by (auto; rewrite Hheld; cbn; lia).
    rewrite Hheld, app_nil_r. destruct blocks; cbn; auto. }
  destruct Ho1 as (Hrun1 & Hvol1 & Hheld1).
  split.
  - unfold Output.GetQueueSize, Output.len. rewrite Hheld1, app_nil_r. reflexivity.
  - destruct (drain_unity pOutputSample blocks o1 [] Hrun1 Hvol1 Hheld1 Hall)
      as (o2 & Hd & Hrun2 & _ & Hheld2 & _).
    exists o2. split; [exact Hd|]. split.
    + unfold Output.GetQueueSize, Output.len. rewrite Hheld2. reflexivity.
    + apply dataCallback_empty_queue; assumption.
Qed.

Lemma playback_first_in_first_out_witness :
  let o := {| Output.config := defaultConfig; Output.device := true;
              Output.isRunning := true; Output.level := 0%float;
              Output.volume := 1%float; Output.buffer := repeat x00 4;
              Output.queue := Output.makeChan 10 |} in
  let blocks := [bytesOf [1; 2]; bytesOf [-3; 4]; bytesOf [5; -6]] in
  let pOutputSample := repeat xff 4 in
  let o1 := playAll o blocks in
  Output.isRunning o = true
  /\ Output.GetQueueSize o = 0
  /\ Output.volume o = 1%float
  /\ (List.length blocks <= Output.capacity (Output.queue o))%nat
  /\ Forall (fun data => Nat.even (List.length data) = true
                         /\ List.length data = List.length pOutputSample) blocks
  /\ Output.GetQueueSize o1 = Z.of_nat (List.length blocks)
  /\ exists o2,
       drain o1 pOutputSample (List.length blocks) = Ret (o2, blocks)
       /\ Output.GetQueueSize o2 = 0
       /\ Output.dataCallback o2 pOutputSample
          = Ret (Output.setLevel o2 (-96.0)%float,
                 repeat x00 (List.length pOutputSample)).
Proof.
  cbv zeta.
  assert (Hall : Forall (fun data => Nat.even (List.length data) = true
                                     /\ List.length data = List.length (repeat xff 4))
                   [bytesOf [1; 2]; bytesOf [-3; 4]; bytesOf [5; -6]])
    by (repeat constructor).
  split; [reflexivity|]. split; [reflexivity|]. split; [reflexivity|].
  split; [cbn; lia|]. split; [exact Hall|].
  apply (playback_first_in_first_out
    {| Output.config := defaultConfig; Output.device := true;
       Output.isRunning := true; Output.level := 0%float;
       Output.volume := 1%float; Output.buffer := repeat x00 4;
       Output.queue := Output.makeChan 10 |}
    [bytesOf [1; 2]; bytesOf [-3; 4]; bytesOf [5; -6]] (repeat xff 4));
    [reflexivity|reflexivity|reflexivity|cbn; lia|exact Hall].
Defined.

(** X13.  [PlayAudio] does not look at the block it queues.  A block of
    odd byte length is accepted without an error; the device callback
    that takes it from the queue then panics with an index out of
    range, in the volume loop or, at volume 1.0, in the level meter. *)
Theorem odd_block_panics_in_callback `{Runtime}
  (o : Output.t) (data pOutputSample : list byte) :
  let n := Z.of_nat (List.length data) in
  Output.isRunning o = true ->
  Output.GetQueueSize o = 0 ->
  (0 < Output.capacity (Output.queue o))%nat ->
  Nat.even (List.length data) = false ->
  exists o1,
    Output.PlayAudio o data = (o1, None)
    /\ Output.GetQueueSize o1 = 1
    /\ Output.dataCallback o1 pOutputSample = Panics (IndexOutOfRange n n).
Proof.
  intros n Hrun Hempty Hcap Hodd.
  assert (Hheld : Output.held (Output.queue o) = []).
  { unfold Output.GetQueueSize, Output.len in Hempty.
    destruct (Output.held (Output.queue o)); [reflexivity|cbn in Hempty; lia]. }
  rewrite PlayAudio_appends by (auto; rewrite Hheld; cbn; lia).
  eexists. split; [reflexivity|].
  rewrite Hheld. split; [reflexivity|].
  unfold Output.dataCallback, Output.tryReceive.
  cbn [Output.setQueue Output.isRunning Output.queue Output.held Output.volume
       Output.capacity app].
  rewrite Hrun. cbn [negb].
  destruct (Output.volume o =? 1)%float; cbn [negb].
  - cbn [bind]. unfold Output.calculateLevel. fold n.
    destruct (Z.eqb_spec n 0) as [Hz|Hz].
    + destruct data; [discriminate|]. subst n. cbn in Hz. lia.
    + rewrite Input_levelLoop_odd by (auto; subst n; lia). reflexivity.
  - unfold Output.applyVolume. fold n.
    rewrite scaleLoop_odd by (auto; subst n; lia). reflexivity.
Qed.

Lemma odd_block_panics_in_callback_witness :
  let o := {| Output.config := defaultConfig; Output.device := true;
              Output.isRunning := true; Output.level := 0%float;
              Output.volume := 0x1.999999999999ap-1%float;
              Output.buffer := repeat x00 4;
              Output.queue := Output.makeChan 10 |} in
  let data := [x01; x02; x03] in
  Output.isRunning o = true
  /\ Output.GetQueueSize o = 0
  /\ (0 < Output.capacity (Output.queue o))%nat
  /\ Nat.even (List.length data) = false
  /\ exists o1,
       Output.PlayAudio o data = (o1, None)
       /\ Output.GetQueueSize o1 = 1
       /\ Output.dataCallback o1 (repeat x00 4) = Panics (IndexOutOfRange 3 3).
Proof.
  cbv zeta.
  split; [reflexivity|]. split; [reflexivity|]. split; [cbn; lia|].
  split; [reflexivity|].
  apply (odd_block_panics_in_callback
    {| Output.config := defaultConfig; Output.device := true;
       Output.isRunning := true; Output.level := 0%float;
       Output.volume := 0x1.999999999999ap-1%float;
       Output.buffer := repeat x00 4;
       Output.queue := Output.makeChan 10 |}
    [x01; x02; x03] (repeat x00 4)); [reflexivity|reflexivity|cbn; lia|reflexivity].
Defined.

(** X14.  The empty block.  Both endpoint meters store 0.0 for it, the
    reading of a full-scale block, where the processor's meter stores
    its -96.0 floor.  A playback callback that takes an empty block
    from the queue leaves the device buffer as it found it, not
    silenced; a capture callback called with an empty block leaves the
    buffer's old samples in place and applies the gain to them once
    more. *)
Theorem empty_block_callbacks `{Runtime}
  (i : Input.t) (o : Output.t) (rest : list (list byte))
  (pOutputSample : list byte) (ap : APRSProcessor) :
  Input.isRunning i = true ->
  Nat.even (List.length (Input.buffer i)) = true ->
  Output.isRunning o = true ->
  Output.held (Output.queue o) = [] :: rest ->
  (exists i',
      Input.dataCallback i [] = Ret i'
      /\ Input.GetLevel i' = 0%float
      /\ Input.GetBuffer i' =
         (if (Input.gain i =? 1)%float then Input.GetBuffer i
          else bytesOf (map (scaleSample (Input.gain i)) (samples (Input.GetBuffer i)))))
  /\ (exists o',
        Output.dataCallback o pOutputSample = Ret (o', pOutputSample)
        /\ Output.GetLevel o' = 0%float
        /\ Output.held (Output.queue o') = rest)
  /\ (exists ap',
        calculateLevels ap [] = Ret ap'
        /\ GetPeakLevel ap' = (-96.0)%float /\ GetRMSLevel ap' = (-96.0)%float).
Proof.
  intros Hrun Hbuf Horun Hheld. repeat split.
  - destruct (Input_dataCallback_result i [] Hrun Hbuf eq_refl) as (l & Hl & Hcb).
    eexists. split; [exact Hcb|].
    unfold Input.GetLevel, Input.GetBuffer. cbn [Input.level Input.buffer].
    split.
    + pose proof (Hl i) as Hli.
      change (Input.calculateLevel i []) with (Ret (Input.setLevel i 0%float)) in Hli.
      assert (Hlv : Input.level (Input.setLevel i 0%float)
                    = Input.level (Input.setLevel i l)) by congruence.
      symmetry. exact Hlv.
    + unfold copyBytes. rewrite firstn_nil. reflexivity.
  - unfold Output.dataCallback, Output.tryReceive. rewrite Horun, Hheld. cbn [negb].
    cbn [Output.setQueue Output.volume].
    assert (Hcopy : copyBytes pOutputSample [] = pOutputSample)
      by (unfold copyBytes; rewrite firstn_nil; reflexivity).
    destruct (Output.volume o =? 1)%float; cbn [negb];
      unfold Output.applyVolume; cbn [scaleLoop bind List.length];
      unfold Output.calculateLevel; cbn [List.length Z.of_nat Z.eqb bind];
      rewrite Hcopy; eexists; (split; [reflexivity|split; reflexivity]).
  - eexists. split; [reflexivity|split; reflexivity].
Qed.

Lemma empty_block_callbacks_witness :
  let i := {| Input.config := defaultConfig; Input.device := true;
              Input.isRunning := true; Input.level := 0%float;
              Input.gain := 2%float; Input.buffer := bytesOf [100; -20000] |} in
  let o := {| Output.config := defaultConfig; Output.device := true;
              Output.isRunning := true; Output.level := (-96.0)%float;
              Output.volume := 1%float; Output.buffer := repeat x00 4;
              Output.queue := {| Output.held := [[]; bytesOf [1; 2]];
                                 Output.capacity := 10 |} |} in
  let pOutputSample := bytesOf [32767; -32768] in
  Input.isRunning i = true
  /\ Nat.even (List.length (Input.buffer i)) = true
  /\ Output.isRunning o = true
  /\ Output.held (Output.queue o) = [] :: [bytesOf [1; 2]]
  /\ (exists i',
        Input.dataCallback i [] = Ret i'
        /\ Input.GetLevel i' = 0%float
        /\ Input.GetBuffer i' =
           (if (Input.gain i =? 1)%float then Input.GetBuffer i
            else bytesOf (map (scaleSample (Input.gain i)) (samples (Input.GetBuffer i)))))
  /\ (exists o',
        Output.dataCallback o pOutputSample = Ret (o', pOutputSample)
        /\ Output.GetLevel o' = 0%float
        /\ Output.held (Output.queue o') = [bytesOf [1; 2]])
  /\ (exists ap',
        calculateLevels NewAPRSProcessor [] = Ret ap'
        /\ GetPeakLevel ap' = (-96.0)%float /\ GetRMSLevel ap' = (-96.0)%float).
Proof.
  cbv zeta.
  split; [reflexivity|]. split; [reflexivity|]. split; [reflexivity|].
  split; [reflexivity|].
  apply (empty_block_callbacks
    {| Input.config := defaultConfig; Input.device := true;
       Input.isRunning := true; Input.level := 0%float;
       Input.gain := 2%float; Input.buffer := bytesOf [100; -20000] |}
    {| Output.config := defaultConfig; Output.device := true;
       Output.isRunning := true; Output.level := (-96.0)%float;
       Output.volume := 1%float; Output.buffer := repeat x00 4;
       Output.queue := {| Output.held := [[]; bytesOf [1; 2]];
                          Output.capacity := 10 |} |}
    [bytesOf [1; 2]] (bytesOf [32767; -32768]) NewAPRSProcessor); reflexivity.
Defined.

(** ** The endpoint meters on multiples of 256 *)

Lemma wrap16_square_256 s : s mod 256 = 0 -> wrap16 (s * s) = 0.
Proof.
  intros Hm. apply Z.div_exact in Hm; [|lia].
  set (k := s / 256) in *. rewrite Hm. unfold wrap16.
  replace (256 * k * (256 * k) + 32768) with (32768 + k * k * 65536) by lia.
  rewrite Z.mod_add by lia. reflexivity.
Qed.

Lemma Input_levelLoop_multiples `{Runtime} n data : forall j,
  Nat.even (List.length data) = true ->
  Forall (fun s => s mod 256 = 0) (samples data) ->
  Input.levelLoop n j data 0%float = Ret 0%float.
Proof.
  induction data as [|b|b0 b1 rest IH] using list_pair_ind; intros j Hev Hall.
  - reflexivity.
  - discriminate.
  - cbn [samples] in Hall. inversion Hall as [|? ? Hs Hrest]; subst.
    cbn [Input.levelLoop]. rewrite wrap16_square_256 by exact Hs.
    change (0 + floatOfZ 0)%float with 0%float. apply IH; assumption.
Qed.

(** X15.  The endpoint meters square a sample as an [int16], and the
    square of a multiple of 256 is 0 in 16 bits: a block whose samples
    are all multiples of 256, however loud, is metered as silence by
    [Input.calculateLevel] and [Output.calculateLevel]. *)
Theorem endpoint_meters_miss_multiples_of_256 `{Runtime}
  (i : Input.t) (o : Output.t) (data : list byte) :
  data <> [] ->
  Nat.even (List.length data) = true ->
  Forall (fun s => s mod 256 = 0) (samples data) ->
  Input.calculateLevel i data = Ret (Input.setLevel i (-96.0)%float)
  /\ Output.calculateLevel o data = Ret (Output.setLevel o (-96.0)%float).
Proof.
  intros Hne Hev Hall.
  assert (Hn : (Z.of_nat (List.length data) =? 0) = false).
  { destruct data; [contradiction|]. reflexivity. }
  unfold Input.calculateLevel, Output.calculateLevel.
  rewrite Hn, Input_levelLoop_multiples by assumption.
  cbn [bind]. rewrite sqrt_zero_div_not_positive. split; reflexivity.
Qed.

Lemma endpoint_meters_miss_multiples_of_256_witness :
  let i := {| Input.config := defaultConfig; Input.device := true;
              Input.isRunning := true; Input.level := 0%float;
              Input.gain := 1%float; Input.buffer := repeat x00 8 |} in
  let o := {| Output.config := defaultConfig; Output.device := true;
              Output.isRunning := true; Output.level := 0%float;
              Output.volume := 1%float; Output.buffer := repeat x00 8;
              Output.queue := Output.makeChan 10 |} in
  let data := bytesOf [32512; -32768; 256; -16384] in
  data <> []
  /\ Nat.even (List.length data) = true
  /\ Forall (fun s => s mod 256 = 0) (samples data)
  /\ Input.calculateLevel i data = Ret (Input.setLevel i (-96.0)%float)
  /\ Output.calculateLevel o data = Ret (Output.setLevel o (-96.0)%float).
Proof.
  cbv zeta.
  assert (Hall : Forall (fun s => s mod 256 = 0)
                   (samples (bytesOf [32512; -32768; 256; -16384])))
    by (repeat constructor).
  split; [discriminate|]. split; [reflexivity|]. split; [exact Hall|].
  apply (endpoint_meters_miss_multiples_of_256
    {| Input.config := defaultConfig; Input.device := true;
       Input.isRunning := true; Input.level := 0%float;
       Input.gain := 1%float; Input.buffer := repeat x00 8 |}
    {| Output.config := defaultConfig; Output.device := true;
       Output.isRunning := true; Output.level := 0%float;
       Output.volume := 1%float; Output.buffer := repeat x00 8;
       Output.queue := Output.makeChan 10 |}
    (bytesOf [32512; -32768; 256; -16384]));
    [discriminate|reflexivity|exact Hall].
Defined.

(** ** The manager's flags *)

Lemma Input_Start_flags i drv :
  Input.device i = Input.isRunning i ->
  Input.device (fst (Input.Start i drv)) = Input.isRunning (fst (Input.Start i drv))
  /\ (snd (Input.Start i drv) = None -> Input.isRunning (fst (Input.Start i drv)) = true)
  /\ (snd (Input.Start i drv) <> None -> fst (Input.Start i drv) = i).
Proof.
  intros Hd. unfold Input.Start.
  destruct (Input.isRunning i) eqn:Hrun; [cbn; rewrite Hrun; intuition congruence|].
  destruct (if String.eqb _ _ then _ else _) as [name|]; [|cbn; intuition congruence].
  destruct (IsDeviceSupported drv _ _ _ _ _); cbn [negb]; [|cbn; intuition congruence].
  destruct (GetContext drv); cbn [negb]; [|cbn; intuition congruence].
  destruct (InitDevice drv); cbn [negb]; [|cbn; intuition congruence].
  destruct (DeviceStart drv); cbn [negb]; cbn; intuition congruence.
Qed.

Lemma Output_Start_flags o drv :
  Output.device o = Output.isRunning o ->
  Output.device (fst (Output.Start o drv)) = Output.isRunning (fst (Output.Start o drv)).
Proof.
  intros Hd. unfold Output.Start.
  destruct (Output.isRunning o) eqn:Hrun; [cbn; rewrite Hrun; exact Hd|].
  destruct (if String.eqb _ _ then _ else _) as [name|]; [|cbn; congruence].
  destruct (IsDeviceSupported drv _ _ _ _ _); cbn [negb]; [|cbn; congruence].
  destruct (GetContext drv); cbn [negb]; [|cbn; congruence].
  destruct (InitDevice drv); cbn [negb]; [|cbn; congruence].
  destruct (DeviceStart drv); cbn [negb]; cbn; congruence.
Qed.

Lemma Input_Stop_flags i :
  Input.isRunning (fst (Input.Stop i)) = false
  /\ Input.device (fst (Input.Stop i)) = false \/
  Input.isRunning i = false /\ fst (Input.Stop i) = i.
Proof.
  unfold Input.Stop. destruct (Input.isRunning i); cbn; auto.
Qed.

Lemma Output_Stop_flags o :
  Output.isRunning (fst (Output.Stop o)) = false
  /\ Output.device (fst (Output.Stop o)) = false \/
  Output.isRunning o = false /\ fst (Output.Stop o) = o.
Proof.
  unfold Output.Stop. destruct (Output.isRunning o); cbn; auto.
Qed.

Lemma Stop_flagsAgree m : flagsAgree m -> flagsAgree (fst (Manager.Stop m)).
Proof.
  intros (Hi & Ho & Hdi & Hdo). unfold Manager.Stop.
  destruct (Manager.isRunning m) eqn:Hrun; cbn [negb].
  - unfold Input.Stop, Output.Stop. rewrite Hi. cbn [negb].
    destruct (Output.isRunning (Manager.output m)) eqn:Hor; cbn [negb];
      unfold flagsAgree; cbn; intuition congruence.
  - unfold flagsAgree. cbn. rewrite Hrun. auto.
Qed.

Lemma Stop_stopped m : Manager.isRunning (fst (Manager.Stop m)) = false.
Proof.
  unfold Manager.Stop. destruct (Manager.isRunning m) eqn:Hrun; cbn [negb].
  - destruct (Input.Stop (Manager.input m)), (Output.Stop (Manager.output m)).
    reflexivity.
  - exact Hrun.
Qed.

Lemma Close_flagsAgree m : flagsAgree m -> flagsAgree (fst (Manager.Close m)).
Proof.
  intros Hm. pose proof (Stop_flagsAgree m Hm) as (Hi & Ho & Hdi & Hdo).
  pose proof (Stop_stopped m) as Hs.
  unfold Manager.Close.
  destruct (Manager.Stop m) as [m1 e]. cbn [fst] in *.
  unfold Input.Close, Output.Close, Input.Stop, Output.Stop.
  rewrite Hs in Hi. rewrite Hi. cbn [negb].
  destruct (Output.isRunning (Manager.output m1)) eqn:Hor;
    [rewrite Ho in Hs by reflexivity; discriminate|].
  cbn [negb]. unfold flagsAgree. cbn. rewrite Hs. intuition congruence.
Qed.

Lemma UpdateConfig_flagsAgree m newConfig m' e :
  flagsAgree m -> Manager.UpdateConfig m newConfig = Ret (m', e) -> flagsAgree m'.
Proof.
  intros (Hi & Ho & Hdi & Hdo). unfold Manager.UpdateConfig.
  destruct (Manager.isRunning m) eqn:Hrun.
  - intros [= <- <-]. unfold flagsAgree. rewrite Hrun. auto.
  - unfold Input.UpdateConfig. rewrite Hi.
    destruct (makeBytes _) as [ibuf|]; [|cbn [bind]; discriminate]. cbn [bind].
    unfold Output.UpdateConfig.
    destruct (Output.isRunning (Manager.output m)) eqn:Hor.
    + assert (false = true) by (apply Ho; reflexivity). discriminate.
    + destruct (makeBytes _) as [obuf|]; [|cbn [bind]; discriminate]. cbn [bind].
      intros [= <- <-]. unfold flagsAgree. cbn. intuition congruence.
Qed.

Lemma step_flagsAgree m c m' :
  flagsAgree m -> Manager.step m c = Ret m' -> flagsAgree m'.
Proof.
  intros Hm. pose proof Hm as (Hi & Ho & Hdi & Hdo).
  destruct c; cbn [Manager.step].
  - intros [= <-]. unfold Manager.StartInput.
    destruct (Manager.isRunning m) eqn:Hrun; [exact Hm|].
    pose proof (Input_Start_flags (Manager.input m) drv Hdi) as (Hd & Hok & Herr).
    destruct (Input.Start (Manager.input m) drv) as [i [e|]]; cbn [fst snd] in *.
    + rewrite Herr by discriminate. unfold flagsAgree. cbn. auto.
    + specialize (Hok eq_refl). unfold flagsAgree. cbn.
      repeat split; auto; congruence.
  - intros [= <-]. unfold Manager.StartOutput.
    destruct (Manager.isRunning m) eqn:Hrun; cbn [negb]; [|exact Hm].
    pose proof (Output_Start_flags (Manager.output m) drv Hdo) as Hd.
    destruct (Output.Start (Manager.output m) drv) as [o [e|]]; cbn [fst snd] in *;
      unfold flagsAgree; cbn; auto.
  - intros [= <-]. apply Stop_flagsAgree. exact Hm.
  - intros [= <-]. apply Close_flagsAgree. exact Hm.
  - destruct (Manager.UpdateConfig m newConfig) as [[m1 e]|] eqn:Hu; [|discriminate].
    cbn [bind]. intros [= <-]. eapply UpdateConfig_flagsAgree; eauto.
  - intros [= <-]. unfold Manager.SetInputGain, Input.SetGain.
    destruct ((g <? 0)%float || (2 <? g)%float); exact Hm.
  - intros [= <-]. unfold Manager.SetOutputVolume, Output.SetVolume.
    destruct ((v <? 0)%float || (1 <? v)%float); exact Hm.
  - intros [= <-]. exact Hm.
  - intros [= <-]. exact Hm.
  - intros [= <-]. exact Hm.
Qed.

Lemma run_flagsAgree calls : forall m m',
  flagsAgree m -> Manager.run m calls = Ret m' -> flagsAgree m'.
Proof.
  induction calls as [|c rest IH]; intros m m' Hm; cbn [Manager.run].
  - intros [= <-]. exact Hm.
  - destruct (Manager.step m c) as [m1|] eqn:Hs; [|discriminate]. cbn [bind].
    apply IH. eapply step_flagsAgree; eauto.
Qed.

Lemma NewManager_flagsAgree newDeviceManager cfg m :
  Manager.NewManager newDeviceManager cfg = Ret (Some m, None) -> flagsAgree m.
Proof.
  unfold Manager.NewManager, Input.NewInput, Output.NewOutput.
  destruct newDeviceManager; [discriminate|].
  destruct (makeBytes _) as [ibuf|]; [|discriminate]. cbn [bind].
  destruct (makeBytes _) as [obuf|]; [|discriminate]. cbn [bind].
  intros [= <-]. unfold flagsAgree. cbn. intuition congruence.
Qed.

(** X16.  Whatever calls a client makes on a manager it got from
    [NewManager], the capture endpoint runs exactly when the manager
    reports that it is running, and the playback endpoint never runs
    while the capture endpoint is stopped; each endpoint holds a device
    exactly while it runs. *)
Theorem manager_flags_agree
  (newDeviceManager : option error) (cfg : Config) (m0 m : Manager.t)
  (calls : list Manager.Call) :
  Manager.NewManager newDeviceManager cfg = Ret (Some m0, None) ->
  Manager.run m0 calls = Ret m ->
  Input.IsRunning (Manager.input m) = Manager.IsRunning m
  /\ (Output.IsRunning (Manager.output m) = true ->
      Input.IsRunning (Manager.input m) = true)
  /\ Input.device (Manager.input m) = Input.IsRunning (Manager.input m)
  /\ Output.device (Manager.output m) = Output.IsRunning (Manager.output m).
Proof.
  intros Hnew Hrun.
  pose proof (run_flagsAgree calls m0 m
                (NewManager_flagsAgree newDeviceManager cfg m0 Hnew) Hrun)
    as (Hi & Ho & Hdi & Hdo).
  unfold Input.IsRunning, Output.IsRunning, Manager.IsRunning.
  repeat split; auto. intros Hor. rewrite Hi. auto.
Qed.

Lemma manager_flags_agree_witness :
  let i0 := {| Input.config := defaultConfig; Input.device := false;
               Input.isRunning := false; Input.level := 0%float;
               Input.gain := 0x1.3333333333333p+0%float;
               Input.buffer := repeat x00 512 |} in
  let o0 := {| Output.config := defaultConfig; Output.device := false;
               Output.isRunning := false; Output.level := 0%float;
               Output.volume := 0x1.999999999999ap-1%float;
               Output.buffer := repeat x00 512;
               Output.queue := Output.makeChan 10 |} in
  let m0 := {| Manager.config := defaultConfig; Manager.input := i0;
               Manager.output := o0; Manager.aprsProcessor := NewAPRSProcessor;
               Manager.isRunning := false |} in
  let calls := [Manager.CallStartInput workingDriver;
                Manager.CallStartOutput workingDriver;
                Manager.CallSetInputGain 2%float] in
  let m := {| Manager.config := defaultConfig;
              Manager.input := fst (Input.SetGain (fst (Input.Start i0 workingDriver))
                                      2%float);
              Manager.output := fst (Output.Start o0 workingDriver);
              Manager.aprsProcessor := NewAPRSProcessor;
              Manager.isRunning := true |} in
  Manager.NewManager None defaultConfig = Ret (Some m0, None)
  /\ Manager.run m0 calls = Ret m
  /\ Input.IsRunning (Manager.input m) = Manager.IsRunning m
  /\ (Output.IsRunning (Manager.output m) = true ->
      Input.IsRunning (Manager.input m) = true)
  /\ Input.device (Manager.input m) = Input.IsRunning (Manager.input m)
  /\ Output.device (Manager.output m) = Output.IsRunning (Manager.output m).
Proof.
  cbv zeta.
  split; [vm_compute; reflexivity|]. split; [vm_compute; reflexivity|].
  eapply (manager_flags_agree None defaultConfig _ _
            [Manager.CallStartInput workingDriver;
             Manager.CallStartOutput workingDriver;
             Manager.CallSetInputGain 2%float]);
    vm_compute; reflexivity.
Defined.



(** X18.  [Manager.Close] leaves nothing running, whatever the state it
    is called in: the manager and both endpoints are stopped.  It
    returns no error, a second [Close] changes nothing, and the blocks
    in the playback queue, the gain, the volume and the processor stay
    as they were. *)
Theorem Close_stops_everything (m : Manager.t) :
  let m' := fst (Manager.Close m) in
  snd (Manager.Close m) = None
  /\ Manager.IsRunning m' = false
  /\ Input.IsRunning (Manager.input m') = false
  /\ Output.IsRunning (Manager.output m') = false
  /\ Manager.Close m' = (m', None)
  /\ Output.queue (Manager.output m') = Output.queue (Manager.output m)
  /\ Input.GetGain (Manager.input m') = Input.GetGain (Manager.input m)
  /\ Output.GetVolume (Manager.output m') = Output.GetVolume (Manager.output m)
  /\ Manager.aprsProcessor m' = Manager.aprsProcessor m.
Proof.
  cbv zeta. unfold Manager.Close, Manager.Stop, Manager.IsRunning,
    Input.Close, Output.Close, Input.Stop, Output.Stop,
    Input.IsRunning, Output.IsRunning, Input.GetGain, Output.GetVolume.
  destruct (Manager.isRunning m) eqn:Hm;
    destruct (Input.isRunning (Manager.input m)) eqn:Hi;
    destruct (Output.isRunning (Manager.output m)) eqn:Ho;
    cbn; rewrite ?Hm, ?Hi, ?Ho; cbn; rewrite ?Hm, ?Hi, ?Ho; cbn;
    repeat split; auto; discriminate.
Qed.

(** ** A second pass through the gate and the limiter *)

Section SecondPass.
Context `{Runtime}.

Lemma noiseGateLoop_again thr data : forall n j out,
  noiseGateLoop thr n j data = Ret out ->
  forall n' j', noiseGateLoop thr n' j' out = Ret out.
Proof.
  induction data as [|b|b0 b1 rest IH] using list_pair_ind; intros n j out.
  - intros [= <-] n' j'. reflexivity.
  - discriminate.
  - cbn [noiseGateLoop].
    destruct (noiseGateLoop thr n (j + 2) rest) as [rest'|] eqn:Hrest;
      [|destruct (abs (floatOfZ (readSample b0 b1)) <? thr)%float; discriminate].
    specialize (IH _ _ _ Hrest).
    destruct (abs (floatOfZ (readSample b0 b1)) <? thr)%float eqn:Htest;
      cbn [bind]; intros [= <-] n' j'; cbn [noiseGateLoop].
    + rewrite IH. cbn [bind].
      destruct (abs (floatOfZ (readSample x00 x00)) <? thr)%float; reflexivity.
    + rewrite Htest, IH. reflexivity.
Qed.

Lemma limiterLoop_within thr data : forall n j count,
  Nat.even (List.length data) = true ->
  Forall (fun s => exceeds thr s = false) (samples data) ->
  limiterLoop thr n j data count = Ret (data, count).
Proof.
  induction data as [|b|b0 b1 rest IH] using list_pair_ind; intros n j count Hev Hall.
  - reflexivity.
  - discriminate.
  - cbn [samples] in Hall. inversion Hall as [|? ? Hs Hrest]; subst.
    cbn [limiterLoop]. unfold exceeds in Hs. rewrite Hs.
    rewrite IH by assumption. reflexivity.
Qed.

End SecondPass.

(** X19.  The noise gate and the limiter are idempotent.  A block that
    came out of [applyNoiseGate] passes through it again unchanged, for
    every threshold.  A block that came out of [applyLimiter] passes
    through it again unchanged and without the clipping count being
    raised a second time, when [math.Pow] is never negative. *)
Theorem gate_and_limiter_idempotent `{Runtime}
  (ap : APRSProcessor) (data : list byte) :
  Nat.even (List.length data) = true ->
  (forall y, (Pow 10 y <? 0)%float = false) ->
  (exists out,
      applyNoiseGate ap data = Ret out
      /\ applyNoiseGate ap out = Ret out)
  /\ (exists ap' out,
        applyLimiter ap data = Ret (ap', out)
        /\ applyLimiter ap' out = Ret (ap', out)
        /\ GetClippingCount ap' = clippingCount ap').
Proof.
  intros Hev Hpow. split.
  - destruct (applyNoiseGate_length ap data Hev) as (out & Hout & Hlen).
    exists out. split; [exact Hout|].
    unfold applyNoiseGate in *. eapply noiseGateLoop_again. exact Hout.
  - destruct (applyLimiter_spec ap data Hev)
      as (ap' & out & Hout & Hlen & Hap & Hall & _).
    exists ap', out. split; [exact Hout|]. split; [|reflexivity].
    assert (Hthr : ceilingLinear ap' = ceilingLinear ap) by (rewrite Hap; reflexivity).
    unfold applyLimiter. rewrite Hthr.
    rewrite limiterLoop_within.
    + cbn [bind]. clear. destruct ap'. reflexivity.
    + rewrite Hlen. exact Hev.
    + eapply clipped_block_bounded;
        [apply ceilingLinear_not_negative; exact Hpow|apply samples_range|exact Hall].
Qed.

Lemma gate_and_limiter_idempotent_witness :
  let ap := SetPeakThreshold NewAPRSProcessor (-20.0)%float in
  let data := bytesOf [32767; -32767; -32768; 0; 1; -1; 3276; 3277; -3277; 20] in
  Nat.even (List.length data) = true
  /\ (forall y, (Pow 10 y <? 0)%float = false)
  /\ (exists out,
        applyNoiseGate ap data = Ret out
        /\ applyNoiseGate ap out = Ret out)
  /\ (exists ap' out,
        applyLimiter ap data = Ret (ap', out)
        /\ applyLimiter ap' out = Ret (ap', out)
        /\ GetClippingCount ap' = clippingCount ap').
Proof.
  cbv zeta.
  split; [reflexivity|]. split; [exact examplePow_not_negative|].
  apply (gate_and_limiter_idempotent
           (SetPeakThreshold NewAPRSProcessor (-20.0)%float)
           (bytesOf [32767; -32767; -32768; 0; 1; -1; 3276; 3277; -3277; 20]));
    [reflexivity|exact examplePow_not_negative].
Defined.

(** The compressor is not idempotent: a second pass compresses what the
    first left above the knee once more. *)
Example applyCompressor_twice :
  applyCompressor NewAPRSProcessor (bytesOf [-20000; 32767])
  = Ret (bytesOf [-7457; 10649])
  /\ applyCompressor NewAPRSProcessor (bytesOf [-7457; 10649])
     = Ret (bytesOf [-4321; 5119]).
Proof. vm_compute. split; reflexivity. Qed.

Section MeterProps.
Context `{Runtime}.

Lemma applyLimiter_settings ap data ap' out :
  applyLimiter ap data = Ret (ap', out) ->
  ap' = setClippingCount ap (clippingCount ap').
Proof.
  unfold applyLimiter.
  destruct (limiterLoop _ _ _ _ _) as [[out' count]|]; [|discriminate].
  cbn [bind]. intros [= <- <-]. reflexivity.
Qed.

End MeterProps.

Lemma ProcessAudio_writes `{Runtime}
  (ap ap' : APRSProcessor) (input out : list byte) (sampleRate channels : Z) :
  ProcessAudio ap input sampleRate channels = Ret (ap', out) ->
  (exists measured,
      calculateLevels ap input = Ret measured
      /\ GetPeakLevel ap' = GetPeakLevel measured
      /\ GetRMSLevel ap' = GetRMSLevel measured)
  /\ noiseGateThreshold ap' = noiseGateThreshold ap
  /\ compressionRatio ap' = compressionRatio ap
  /\ peakThreshold ap' = peakThreshold ap
  /\ isNoiseGateEnabled ap' = isNoiseGateEnabled ap
  /\ isCompressorEnabled ap' = isCompressorEnabled ap
  /\ isLimiterEnabled ap' = isLimiterEnabled ap
  /\ (isLimiterEnabled ap = false -> GetClippingCount ap' = GetClippingCount ap)
  /\ (isNoiseGateEnabled ap = false -> isCompressorEnabled ap = false ->
      isLimiterEnabled ap = false -> out = input).
Proof.
  unfold ProcessAudio.
  destruct (calculateLevels ap input) as [ap1|] eqn:Hlev; [|discriminate].
  cbn [bind].
  assert (Hset : exists peak rms, ap1 = setLevels ap peak rms).
  { unfold calculateLevels in Hlev.
    destruct (Z.of_nat (List.length input) =? 0); [injection Hlev as <-; eauto|].
    destruct (levelsLoop _ _ _ _ _) as [[sum peak]|]; [|discriminate].
    cbn [bind] in Hlev. injection Hlev as <-. eauto. }
  destruct Hset as (peak & rms & ->).
  cbn [setLevels isNoiseGateEnabled isCompressorEnabled isLimiterEnabled].
  destruct (isNoiseGateEnabled ap) eqn:Hg.
  - destruct (applyNoiseGate _ input) as [o1|]; [|discriminate]. cbn [bind].
    destruct (isCompressorEnabled ap) eqn:Hc.
    + destruct (applyCompressor _ o1) as [o2|]; [|discriminate]. cbn [bind].
      destruct (isLimiterEnabled ap) eqn:Hl.
      * intros Hlim. apply applyLimiter_settings in Hlim. rewrite Hlim.
        split; [eexists; split; [reflexivity|split; reflexivity]|].
        cbn. repeat split; auto; discriminate.
      * intros [= <- <-].
        split; [eexists; split; [reflexivity|split; reflexivity]|].
        cbn. repeat split; auto; discriminate.
    + cbn [bind]. destruct (isLimiterEnabled ap) eqn:Hl.
      * intros Hlim. apply applyLimiter_settings in Hlim. rewrite Hlim.
        split; [eexists; split; [reflexivity|split; reflexivity]|].
        cbn. repeat split; auto; discriminate.
      * intros [= <- <-].
        split; [eexists; split; [reflexivity|split; reflexivity]|].
        cbn. repeat split; auto; discriminate.
  - cbn [bind]. destruct (isCompressorEnabled ap) eqn:Hc.
    + destruct (applyCompressor _ input) as [o2|]; [|discriminate]. cbn [bind].
      destruct (isLimiterEnabled ap) eqn:Hl.
      * intros Hlim. apply applyLimiter_settings in Hlim. rewrite Hlim.
        split; [eexists; split; [reflexivity|split; reflexivity]|].
        cbn. repeat split; auto; discriminate.
      * intros [= <- <-].
        split; [eexists; split; [reflexivity|split; reflexivity]|].
        cbn. repeat split; auto; discriminate.
    + cbn [bind]. destruct (isLimiterEnabled ap) eqn:Hl.
      * intros Hlim. apply applyLimiter_settings in Hlim. rewrite Hlim.
        split; [eexists; split; [reflexivity|split; reflexivity]|].
        cbn. repeat split; auto; discriminate.
      * intros [= <- <-].
        split; [eexists; split; [reflexivity|split; reflexivity]|].
        cbn. repeat split; auto.
Qed.

(** X20.  [ProcessAudio] writes to the processor's two levels and its
    clipping count and to nothing else: thresholds, ratio and the three
    switches stay.  The levels it stores are those of the block as it
    came in, before any stage has worked on it, so a block the limiter
    cut down is still reported with its original peak; with the three
    stages switched off the block is returned byte for byte. *)
Theorem ProcessAudio_meters_the_input `{Runtime}
  (ap : APRSProcessor) (input : list byte) (sampleRate channels : Z) :
  Nat.even (List.length input) = true ->
  exists ap' out measured,
    ProcessAudio ap input sampleRate channels = Ret (ap', out)
    /\ calculateLevels ap input = Ret measured
    /\ GetPeakLevel ap' = GetPeakLevel measured
    /\ GetRMSLevel ap' = GetRMSLevel measured
    /\ noiseGateThreshold ap' = noiseGateThreshold ap
    /\ compressionRatio ap' = compressionRatio ap
    /\ peakThreshold ap' = peakThreshold ap
    /\ isNoiseGateEnabled ap' = isNoiseGateEnabled ap
    /\ isCompressorEnabled ap' = isCompressorEnabled ap
    /\ isLimiterEnabled ap' = isLimiterEnabled ap
    /\ (isLimiterEnabled ap = false -> GetClippingCount ap' = GetClippingCount ap)
    /\ (isNoiseGateEnabled ap = false -> isCompressorEnabled ap = false ->
        isLimiterEnabled ap = false -> out = input).
Proof.
  intros Hev.
  destruct (ProcessAudio_spec ap input sampleRate channels Hev)
    as (ap' & out & Hp & _).
  destruct (ProcessAudio_writes ap ap' input out sampleRate channels Hp)
    as ((measured & Hm & Hpk & Hrms) & Hrest).
  exists ap', out, measured. split; [exact Hp|]. split; [exact Hm|].
  split; [exact Hpk|]. split; [exact Hrms|]. exact Hrest.
Qed.

Lemma ProcessAudio_meters_the_input_witness :
  let ap := SetPeakThreshold NewAPRSProcessor (-20.0)%float in
  let input := bytesOf [32767; -32767; 100; 0; 3277; -20000] in
  Nat.even (List.length input) = true
  /\ exists ap' out measured,
       ProcessAudio ap input 8000 1 = Ret (ap', out)
       /\ calculateLevels ap input = Ret measured
       /\ GetPeakLevel ap' = GetPeakLevel measured
       /\ GetRMSLevel ap' = GetRMSLevel measured
       /\ noiseGateThreshold ap' = noiseGateThreshold ap
       /\ compressionRatio ap' = compressionRatio ap
       /\ peakThreshold ap' = peakThreshold ap
       /\ isNoiseGateEnabled ap' = isNoiseGateEnabled ap
       /\ isCompressorEnabled ap' = isCompressorEnabled ap
       /\ isLimiterEnabled ap' = isLimiterEnabled ap
       /\ (isLimiterEnabled ap = false -> GetClippingCount ap' = GetClippingCount ap)
       /\ (isNoiseGateEnabled ap = false -> isCompressorEnabled ap = false ->
           isLimiterEnabled ap = false -> out = input).
Proof.
  cbv zeta. split; [reflexivity|].
  apply (ProcessAudio_meters_the_input
           (SetPeakThreshold NewAPRSProcessor (-20.0)%float)
           (bytesOf [32767; -32767; 100; 0; 3277; -20000]) 8000 1).
  reflexivity.
Defined.

(** ** The chain only attenuates *)

Lemma attenuated_refl s : attenuated s s.
Proof. unfold attenuated. lia. Qed.

Lemma attenuated_trans a b c : attenuated a b -> attenuated b c -> attenuated a c.
Proof. unfold attenuated. lia. Qed.

Lemma Forall2_attenuated_refl l : Forall2 attenuated l l.
Proof. induction l; constructor; auto using attenuated_refl. Qed.

Lemma Forall2_attenuated_trans l1 : forall l2 l3,
  Forall2 attenuated l1 l2 -> Forall2 attenuated l2 l3 -> Forall2 attenuated l1 l3.
Proof.
  induction l1 as [|a l1 IH]; intros l2 l3 H12 H23.
  - inversion H12; subst. inversion H23; subst. constructor.
  - inversion H12; subst. inversion H23; subst. constructor.
    + eapply attenuated_trans; eauto.
    + eapply IH; eauto.
Qed.

Section Attenuation.
Context `{Runtime}.

Lemma noiseGateLoop_attenuates thr data : forall n j out,
  noiseGateLoop thr n j data = Ret out ->
  Forall2 attenuated (samples data) (samples out).
Proof.
  induction data as [|b|b0 b1 rest IH] using list_pair_ind; intros n j out.
  - intros [= <-]. constructor.
  - discriminate.
  - cbn [noiseGateLoop].
    destruct (noiseGateLoop thr n (j + 2) rest) as [rest'|] eqn:Hrest;
      [|destruct (abs (floatOfZ (readSample b0 b1)) <? thr)%float; discriminate].
    specialize (IH _ _ _ Hrest).
    destruct (abs (floatOfZ (readSample b0 b1)) <? thr)%float;
      cbn [bind]; intros [= <-]; cbn [samples]; constructor; auto.
    + change (readSample x00 x00) with 0. unfold attenuated. lia.
    + apply attenuated_refl.
Qed.

Lemma compress_table :
  allFrom (Z.to_nat 65536) (-32768)
    (fun s =>
       let knee := (0x1.999999999999ap-4 * 32767.0)%float in
       if (knee <? abs (floatOfZ s))%float then
         let o := compressSample knee 4.0 s in
         (Z.abs o <=? Z.abs s) && (Z.sgn o =? Z.sgn s)
       else true) = true.
Proof. vm_compute. reflexivity. Qed.

Lemma compressSample_attenuates s :
  -32768 <= s <= 32767 ->
  let knee := (0x1.999999999999ap-4 * 32767.0)%float in
  (knee <? abs (floatOfZ s))%float = true ->
  attenuated s (compressSample knee 4.0 s).
Proof.
  intros Hs knee Hk.
  pose proof (allFrom_spec _ _ _ compress_table s ltac:(lia)) as Ht.
  cbv beta zeta in Ht. fold knee in Ht. rewrite Hk in Ht.
  apply andb_prop in Ht. destruct Ht as [Habs Hsgn].
  apply Z.leb_le in Habs. apply Z.eqb_eq in Hsgn.
  unfold attenuated. split; [exact Habs|]. lia.
Qed.

Lemma clipSample_attenuates thr s :
  (thr <? 0)%float = false -> -32768 <= s <= 32767 -> exceeds thr s = true ->
  attenuated s (clipSample thr s).
Proof.
  intros Hthr Hs Hex.
  destruct (clipSample_spec thr s Hthr Hs Hex) as (Hrange & Hin & Hpos & Hneg).
  unfold exceeds in Hex, Hin.
  rewrite ltb_ord, ord_sampleAbs in Hex by exact Hs.
  rewrite ltb_ord, ord_sampleAbs in Hin by lia.
  destruct (ord thr) as [a|]; [|discriminate].
  apply Z.ltb_lt in Hex. apply Z.ltb_ge in Hin.
  pose proof unit1074_pos as Hu.
  assert (Habs : Z.abs (clipSample thr s) < Z.abs s) by nia.
  unfold attenuated. split; [lia|]. split; intros Ho.
  - destruct (Z.lt_trichotomy 0 s) as [?|[?|?]]; [assumption| |];
      specialize (Hneg ltac:(lia)); lia.
  - destruct (Z.lt_trichotomy 0 s) as [?|[?|?]]; [specialize (Hpos ltac:(lia)); lia| |lia].
    subst s. cbn in Habs. lia.
Qed.

Lemma Forall2_map_attenuated (f : Z -> Z) ss os :
  Forall (fun s => -32768 <= s <= 32767) ss ->
  (forall s, -32768 <= s <= 32767 -> attenuated s (f s)) ->
  Forall2 (fun s o => o = f s) ss os ->
  Forall2 attenuated ss os.
Proof.
  intros Hall Hf H2. induction H2 as [|s o ss os Ho _ IH]; [constructor|].
  inversion Hall; subst. constructor; auto.
Qed.

End Attenuation.

(** X21.  With the ratio at its default of 4, the chain only
    attenuates: on blocks of whole samples every sample [ProcessAudio]
    returns is no louder than the sample it was made from and never of
    the opposite sign, whatever the gate and limiter thresholds and
    whichever stages are switched on.  [math.Pow(10, -1)] is taken to be
    the binary64 nearest 0.1 and [math.Pow(10, y)] never negative. *)
Theorem ProcessAudio_only_attenuates `{Runtime}
  (ap : APRSProcessor) (input : list byte) (sampleRate channels : Z) :
  (forall y, (Pow 10 y <? 0)%float = false) ->
  Pow 10 (-1)%float = 0x1.999999999999ap-4%float ->
  compressionRatio ap = 4%float ->
  Nat.even (List.length input) = true ->
  exists ap' out,
    ProcessAudio ap input sampleRate channels = Ret (ap', out)
    /\ List.length out = List.length input
    /\ Forall2 attenuated (samples input) (samples out).
Proof.
  intros Hpow Hknee Hratio Hev.
  destruct (ProcessAudio_spec ap input sampleRate channels Hev)
    as (ap' & out & Hp & Hlen & _).
  exists ap', out. split; [exact Hp|]. split; [exact Hlen|].
  unfold ProcessAudio in Hp.
  destruct (calculateLevels_returns ap input Hev) as (peak & rms & Hlev).
  rewrite Hlev in Hp. cbn [bind] in Hp.
  cbn [setLevels isNoiseGateEnabled isCompressorEnabled isLimiterEnabled] in Hp.
  set (ap1 := setLevels ap peak rms) in *.
  assert (Hgate : exists o1,
            (if isNoiseGateEnabled ap then applyNoiseGate ap1 input else Ret input)
            = Ret o1
            /\ List.length o1 = List.length input
            /\ Forall2 attenuated (samples input) (samples o1)).
  { destruct (isNoiseGateEnabled ap).
    - destruct (applyNoiseGate_length ap1 input Hev) as (o1 & Ho1 & Hl1).
      exists o1. split; [exact Ho1|]. split; [exact Hl1|].
      unfold applyNoiseGate in Ho1. eapply noiseGateLoop_attenuates. exact Ho1.
    - exists input. split; [reflexivity|]. split; [reflexivity|].
      apply Forall2_attenuated_refl. }
  destruct Hgate as (o1 & Ho1 & Hl1 & Ha1). rewrite Ho1 in Hp. cbn [bind] in Hp.
  assert (Hev1 : Nat.even (List.length o1) = true) by (rewrite Hl1; exact Hev).
  assert (Hcomp : exists o2,
            (if isCompressorEnabled ap then applyCompressor ap1 o1 else Ret o1)
            = Ret o2
            /\ List.length o2 = List.length o1
            /\ Forall2 attenuated (samples o1) (samples o2)).
  { destruct (isCompressorEnabled ap).
    - unfold applyCompressor.
      destruct (compressorLoop_spec kneeLinear (compressionRatio ap1)
                  (Z.of_nat (List.length o1)) o1 0 Hev1) as (o2 & Ho2 & Hl2 & Hall).
      exists o2. split; [exact Ho2|]. split; [exact Hl2|].
      eapply Forall2_map_attenuated; [apply samples_range| |exact Hall].
      intros s Hs. cbv beta.
      assert (Hk : kneeLinear = (0x1.999999999999ap-4 * 32767.0)%float).
      { unfold kneeLinear. change (-20.0 / 20.0)%float with (-1)%float.
        rewrite Hknee. reflexivity. }
      change (compressionRatio ap1) with (compressionRatio ap).
      rewrite Hratio, Hk.
      destruct (0x1.999999999999ap-4 * 32767.0 <? abs (floatOfZ s))%float eqn:Ht.
      + apply compressSample_attenuates; assumption.
      + apply attenuated_refl.
    - exists o1. split; [reflexivity|]. split; [reflexivity|].
      apply Forall2_attenuated_refl. }
  destruct Hcomp as (o2 & Ho2 & Hl2 & Ha2). rewrite Ho2 in Hp. cbn [bind] in Hp.
  assert (Hev2 : Nat.even (List.length o2) = true) by (rewrite Hl2; exact Hev1).
  assert (Hlim : Forall2 attenuated (samples o2) (samples out)).
  { destruct (isLimiterEnabled ap).
    - destruct (applyLimiter_spec ap1 o2 Hev2)
        as (ap2 & o3 & Ho3 & _ & _ & Hall & _).
      rewrite Ho3 in Hp. injection Hp as <- <-.
      eapply Forall2_map_attenuated; [apply samples_range| |exact Hall].
      intros s Hs. cbv beta.
      destruct (exceeds (ceilingLinear ap1) s) eqn:Hex.
      + apply clipSample_attenuates; auto.
        apply ceilingLinear_not_negative. exact Hpow.
      + apply attenuated_refl.
    - injection Hp as <- <-. apply Forall2_attenuated_refl. }
  eapply Forall2_attenuated_trans; [exact Ha1|].
  eapply Forall2_attenuated_trans; [exact Ha2|exact Hlim].
Qed.

Lemma ProcessAudio_only_attenuates_witness :
  let input := bytesOf [32767; -32768; 100; 0; 3277; -20000; 6553; -327] in
  (forall y, (Pow 10 y <? 0)%float = false)
  /\ Pow 10 (-1)%float = 0x1.999999999999ap-4%float
  /\ compressionRatio (SetPeakThreshold NewAPRSProcessor (-20.0)%float) = 4%float
  /\ Nat.even (List.length input) = true
  /\ exists ap' out,
       ProcessAudio (SetPeakThreshold NewAPRSProcessor (-20.0)%float) input 8000 1
       = Ret (ap', out)
       /\ List.length out = List.length input
       /\ Forall2 attenuated (samples input) (samples out).
Proof.
  cbv zeta.
  split; [exact examplePow_not_negative|]. split; [reflexivity|].
  split; [reflexivity|]. split; [reflexivity|].
  apply (ProcessAudio_only_attenuates (SetPeakThreshold NewAPRSProcessor (-20.0)%float)
           (bytesOf [32767; -32768; 100; 0; 3277; -20000; 6553; -327]) 8000 1);
    [exact examplePow_not_negative|reflexivity|reflexivity|reflexivity].
Defined.

(** The chain with the ceiling at -20 dB on one block: the gate silences
    the two quietest samples, the compressor brings down what is above
    the knee, and the limiter cuts the four samples still above the
    ceiling. *)
Example ProcessAudio_chain :
  match ProcessAudio (SetPeakThreshold NewAPRSProcessor (-20.0)%float)
          (bytesOf [32767; -32768; 100; 0; 3277; -20000; 6553; -327]) 8000 1 with
  | Ret (ap', out) =>
      out = bytesOf [3276; -3276; 0; 0; 3276; -3276; 3276; 0]
      /\ GetClippingCount ap' = 4
  | Panics _ => False
  end.
Proof. vm_compute. split; reflexivity. Qed.

(** ** Endpoints in use *)

Lemma bufferLen_even b c : Z.even (bufferLen b c) = true.
Proof.
  unfold bufferLen, wrapInt.
  rewrite Z.even_sub.
  replace (((b * c + 9223372036854775808) mod 18446744073709551616
            - 9223372036854775808) * 2 + 9223372036854775808)
    with (2 * ((b * c + 9223372036854775808) mod 18446744073709551616
               - 9223372036854775808 + 4611686018427387904)) by lia.
  set (y := (b * c + 9223372036854775808) mod 18446744073709551616
            - 9223372036854775808 + 4611686018427387904).
  replace 18446744073709551616 with (2 * 9223372036854775808) by reflexivity.
  rewrite Z.mul_mod_distr_l by lia.
  rewrite Z.even_mul. reflexivity.
Qed.

Lemma even_of_nat n : Z.even (Z.of_nat n) = Nat.even n.
Proof.
  destruct (Nat.even n) eqn:E.
  - apply Nat.even_spec in E. destruct E as [k ->].
    rewrite Nat2Z.inj_mul, Z.even_mul. reflexivity.
  - assert (Ho : Nat.odd n = true) by (unfold Nat.odd; rewrite E; reflexivity).
    apply Nat.odd_spec in Ho. destruct Ho as [k ->].
    replace (Z.of_nat (2 * k + 1)) with (1 + 2 * Z.of_nat k) by lia.
    rewrite Z.even_add_mul_2. reflexivity.
Qed.

Lemma makeBytes_ret n buf :
  makeBytes n = Ret buf -> Z.of_nat (List.length buf) = n.
Proof.
  unfold makeBytes.
  destruct (Z.ltb_spec n 0); [discriminate|].
  destruct (maxInt <? n); [discriminate|].
  cbn [orb]. intros [= <-]. rewrite repeat_length. lia.
Qed.

Lemma buffer_even (buf : list byte) b c :
  Z.of_nat (List.length buf) = bufferLen b c -> Nat.even (List.length buf) = true.
Proof.
  intros Hlen. rewrite <- even_of_nat, Hlen. apply bufferLen_even.
Qed.

Section EndpointRuns.
Context `{Runtime}.

Lemma Input_calculateLevel_shape i data i' :
  Input.calculateLevel i data = Ret i' -> exists l, i' = Input.setLevel i l.
Proof.
  unfold Input.calculateLevel.
  destruct (Z.of_nat (List.length data) =? 0); [intros [= <-]; eauto|].
  destruct (Input.levelLoop _ _ _ _) as [sum|]; [|discriminate]. cbn [bind].
  destruct (0 <? _)%float; intros [= <-]; eauto.
Qed.

Lemma Output_calculateLevel_shape o data o' :
  Output.calculateLevel o data = Ret o' -> exists l, o' = Output.setLevel o l.
Proof.
  unfold Output.calculateLevel.
  destruct (Z.of_nat (List.length data) =? 0); [intros [= <-]; eauto|].
  destruct (Input.levelLoop _ _ _ _) as [sum|]; [|discriminate]. cbn [bind].
  destruct (0 <? _)%float; intros [= <-]; eauto.
Qed.

Lemma Input_dataCallback_sound i p i' :
  inputSound i -> Input.dataCallback i p = Ret i' -> inputSound i'.
Proof.
  intros (Hlen & Hev & Hdev). unfold Input.dataCallback.
  destruct (Input.isRunning i) eqn:Hrun; cbn [negb];
    [|intros [= <-]; unfold inputSound; rewrite Hrun; auto].
  destruct (Input.calculateLevel _ p) as [i1|] eqn:Hl; [|discriminate].
  cbn [bind]. apply Input_calculateLevel_shape in Hl. destruct Hl as [l ->].
  cbn [Input.setLevel Input.setBuffer Input.gain Input.buffer Input.config
       Input.isRunning Input.device Input.level].
  assert (Hclen : List.length (copyBytes (Input.buffer i) p)
                  = List.length (Input.buffer i)) by apply copyBytes_length.
  destruct (Input.gain i =? 1)%float eqn:Hg; cbn [negb].
  - intros [= <-]. unfold inputSound. cbn. rewrite Hclen, Hrun. auto.
  - unfold Input.applyGain.
    cbn [Input.setLevel Input.setBuffer Input.gain Input.buffer]. rewrite Hg.
    rewrite scaleLoop_spec by (rewrite Hclen; exact Hev). cbn [bind].
    intros [= <-]. unfold inputSound. cbn.
    rewrite scaled_length by (rewrite Hclen; exact Hev).
    rewrite Hclen, Hrun. auto.
Qed.

Lemma Input_UpdateConfig_sound i newConfig i' e :
  inputSound i -> Input.UpdateConfig i newConfig = Ret (i', e) -> inputSound i'.
Proof.
  intros Hs. pose proof Hs as (Hlen & Hev & Hdev). unfold Input.UpdateConfig.
  destruct (Input.isRunning i) eqn:Hrun; [intros [= <- <-]; exact Hs|].
  destruct (makeBytes _) as [buf|] eqn:Hb; [|discriminate]. cbn [bind].
  intros [= <- <-]. apply makeBytes_ret in Hb.
  unfold inputSound. cbn. repeat split; auto.
  eapply buffer_even. exact Hb.
Qed.

Lemma inputStep_sound i c i' :
  inputSound i -> inputStep i c = Ret i' -> inputSound i'.
Proof.
  intros Hs. pose proof Hs as (Hlen & Hev & Hdev). destruct c; cbn [inputStep].
  - intros [= <-]. pose proof (Input_Start_flags i drv Hdev) as (Hd & Hok & Herr).
    destruct (Input.Start i drv) as [i1 [e|]] eqn:Hst; cbn [fst snd] in *.
    + rewrite Herr by discriminate. exact Hs.
    + unfold Input.Start in Hst.
      destruct (Input.isRunning i); [discriminate|].
      destruct (if String.eqb _ _ then _ else _); [|discriminate].
      destruct (negb (IsDeviceSupported _ _ _ _ _ _)); [discriminate|].
      destruct (negb (GetContext drv)); [discriminate|].
      destruct (negb (InitDevice drv)); [discriminate|].
      destruct (negb (DeviceStart drv)); [discriminate|].
      injection Hst as <-. unfold inputSound. cbn. auto.
  - intros [= <-]. unfold Input.Stop.
    destruct (Input.isRunning i) eqn:Hrun; cbn [negb fst]; [|exact Hs].
    unfold inputSound. cbn. auto.
  - intros [= <-]. unfold Input.Close, Input.Stop.
    destruct (Input.isRunning i) eqn:Hrun; cbn [negb fst]; [|exact Hs].
    unfold inputSound. cbn. auto.
  - apply Input_dataCallback_sound. exact Hs.
  - intros [= <-]. unfold Input.SetGain.
    destruct ((g <? 0)%float || (2 <? g)%float); cbn [fst]; exact Hs.
  - destruct (Input.UpdateConfig i newConfig) as [[i1 e]|] eqn:Hu; [|discriminate].
    cbn [bind]. intros [= <-]. eapply Input_UpdateConfig_sound; eauto.
Qed.

Lemma inputRun_sound calls : forall i i',
  inputSound i -> inputRun i calls = Ret i' -> inputSound i'.
Proof.
  induction calls as [|c rest IH]; intros i i' Hs; cbn [inputRun].
  - intros [= <-]. exact Hs.
  - destruct (inputStep i c) as [i1|] eqn:Hst; [|discriminate]. cbn [bind].
    apply IH. eapply inputStep_sound; eauto.
Qed.

Lemma NewInput_sound cfg i : Input.NewInput cfg = Ret i -> inputSound i.
Proof.
  unfold Input.NewInput.
  destruct (makeBytes _) as [buf|] eqn:Hb; [|discriminate]. cbn [bind].
  intros [= <-]. apply makeBytes_ret in Hb.
  unfold inputSound. cbn. repeat split; auto. eapply buffer_even. exact Hb.
Qed.

Lemma Output_dataCallback_sound o p o' p' :
  outputSound o -> Output.dataCallback o p = Ret (o', p') ->
  outputSound o' /\ List.length p' = List.length p
  /\ (Output.len (Output.queue o') <= Output.len (Output.queue o))%nat.
Proof.
  intros Hs. pose proof Hs as (Hlen & Hev & Hdev & Hcap & Hq).
  unfold Output.dataCallback.
  destruct (Output.isRunning o) eqn:Hrun; cbn [negb];
    [|intros [= <- <-]; auto].
  unfold Output.tryReceive, Output.len in *.
  destruct (Output.held (Output.queue o)) as [|data rest] eqn:Hheld.
  - intros [= <- <-]. rewrite repeat_length.
    unfold outputSound, Output.len. cbn. rewrite Hheld, Hrun. cbn. auto 10.
  - cbn [Output.setQueue Output.volume].
    destruct (if negb _ then _ else _) as [data'|]; [|discriminate]. cbn [bind].
    destruct (Output.calculateLevel _ data') as [o1|] eqn:Hl; [|discriminate].
    cbn [bind]. apply Output_calculateLevel_shape in Hl. destruct Hl as [l ->].
    intros [= <- <-]. rewrite copyBytes_length.
    unfold outputSound, Output.len. cbn. cbn in Hq. rewrite Hrun.
    repeat split; auto; lia.
Qed.

Lemma Output_Start_sound o drv :
  outputSound o -> outputSound (fst (Output.Start o drv)).
Proof.
  intros Hs. pose proof Hs as (Hlen & Hev & Hdev & Hcap & Hq). unfold Output.Start.
  destruct (Output.isRunning o) eqn:Hrun; [exact Hs|].
  destruct (if String.eqb _ _ then _ else _); [|exact Hs].
  destruct (negb (IsDeviceSupported _ _ _ _ _ _)); [exact Hs|].
  destruct (negb (GetContext drv)); [exact Hs|].
  destruct (negb (InitDevice drv)); [exact Hs|].
  destruct (negb (DeviceStart drv)); [exact Hs|].
  unfold outputSound. cbn. auto.
Qed.

Lemma Output_Stop_sound o : outputSound o -> outputSound (fst (Output.Stop o)).
Proof.
  intros Hs. pose proof Hs as (Hlen & Hev & Hdev & Hcap & Hq). unfold Output.Stop.
  destruct (Output.isRunning o) eqn:Hrun; cbn [negb fst]; [|exact Hs].
  unfold outputSound. cbn. auto.
Qed.

Lemma Output_PlayAudio_sound o data :
  outputSound o -> outputSound (fst (Output.PlayAudio o data)).
Proof.
  intros Hs. pose proof Hs as (Hlen & Hev & Hdev & Hcap & Hq).
  unfold Output.PlayAudio, Output.trySend.
  destruct (Output.isRunning o) eqn:Hrun; cbn [negb fst]; [|exact Hs].
  destruct (Nat.ltb_spec (Output.len (Output.queue o)) (Output.capacity (Output.queue o)));
    cbn [fst]; [|exact Hs].
  unfold outputSound, Output.len in *. cbn. rewrite length_app. cbn [List.length].
  rewrite Hrun. repeat split; auto; lia.
Qed.

Lemma Output_UpdateConfig_sound o newConfig o' e :
  outputSound o -> Output.UpdateConfig o newConfig = Ret (o', e) -> outputSound o'.
Proof.
  intros Hs. pose proof Hs as (Hlen & Hev & Hdev & Hcap & Hq).
  unfold Output.UpdateConfig.
  destruct (Output.isRunning o) eqn:Hrun; [intros [= <- <-]; exact Hs|].
  destruct (makeBytes _) as [buf|] eqn:Hb; [|discriminate]. cbn [bind].
  intros [= <- <-]. apply makeBytes_ret in Hb.
  unfold outputSound. cbn. repeat split; auto.
  eapply buffer_even. exact Hb.
Qed.

Lemma outputStep_sound o c o' :
  outputSound o -> outputStep o c = Ret o' -> outputSound o'.
Proof.
  intros Hs. pose proof Hs as (Hlen & Hev & Hdev & Hcap & Hq).
  destruct c; cbn [outputStep].
  - intros [= <-]. apply Output_Start_sound. exact Hs.
  - intros [= <-]. apply Output_Stop_sound. exact Hs.
  - intros [= <-]. apply Output_Stop_sound. exact Hs.
  - intros [= <-]. apply Output_PlayAudio_sound. exact Hs.
  - destruct (Output.dataCallback o pOutputSample) as [[o1 p1]|] eqn:Hd;
      [|discriminate].
    cbn [bind]. intros [= <-].
    apply (Output_dataCallback_sound o pOutputSample o1 p1 Hs Hd).
  - intros [= <-]. unfold Output.SetVolume.
    destruct ((v <? 0)%float || (1 <? v)%float); cbn [fst]; exact Hs.
  - destruct (Output.UpdateConfig o newConfig) as [[o1 e]|] eqn:Hu; [|discriminate].
    cbn [bind]. intros [= <-]. eapply Output_UpdateConfig_sound; eauto.
  - intros [= <-]. unfold outputSound, Output.ClearQueue, Output.len. cbn.
    repeat split; auto. lia.
Qed.

Lemma outputRun_sound calls : forall o o',
  outputSound o -> outputRun o calls = Ret o' -> outputSound o'.
Proof.
  induction calls as [|c rest IH]; intros o o' Hs; cbn [outputRun].
  - intros [= <-]. exact Hs.
  - destruct (outputStep o c) as [o1|] eqn:Hst; [|discriminate]. cbn [bind].
    apply IH. eapply outputStep_sound; eauto.
Qed.

Lemma NewOutput_sound cfg o : Output.NewOutput cfg = Ret o -> outputSound o.
Proof.
  unfold Output.NewOutput.
  destruct (makeBytes _) as [buf|] eqn:Hb; [|discriminate]. cbn [bind].
  intros [= <-]. apply makeBytes_ret in Hb.
  unfold outputSound, Output.len. cbn. repeat split; auto; [|lia].
  eapply buffer_even. exact Hb.
Qed.

End EndpointRuns.

(** X22.  A capture endpoint in use.  Whatever calls its client and the
    capture device make on an endpoint from [NewInput] ([Start], [Stop],
    [Close], [SetGain], [UpdateConfig], device callbacks), its buffer
    has the byte length computed from the configuration it holds, which
    is even, and it holds a device exactly while it runs.  So a device
    callback with a block of whole samples never panics, and one with a
    block of odd byte length panics exactly when the endpoint runs. *)
Theorem capture_endpoint_in_use `{Runtime}
  (cfg : Config) (i0 i : Input.t) (calls : list InputCall) :
  Input.NewInput cfg = Ret i0 ->
  inputRun i0 calls = Ret i ->
  Z.of_nat (List.length (Input.GetBuffer i))
  = bufferLen (inBufferSize (AudioInput (Input.GetConfig i)))
              (inChannels (AudioInput (Input.GetConfig i)))
  /\ Nat.even (List.length (Input.GetBuffer i)) = true
  /\ Input.device i = Input.IsRunning i
  /\ (forall pInputSamples,
        Nat.even (List.length pInputSamples) = true ->
        exists i', Input.dataCallback i pInputSamples = Ret i')
  /\ (forall pInputSamples,
        Nat.even (List.length pInputSamples) = false ->
        if Input.IsRunning i
        then exists p, Input.dataCallback i pInputSamples = Panics p
        else Input.dataCallback i pInputSamples = Ret i).
Proof.
  intros Hnew Hrun.
  pose proof (inputRun_sound calls i0 i (NewInput_sound cfg i0 Hnew) Hrun)
    as (Hlen & Hev & Hdev).
  unfold Input.GetBuffer, Input.GetConfig, Input.IsRunning.
  split; [exact Hlen|]. split; [exact Hev|]. split; [exact Hdev|]. split.
  - intros p Hp. destruct (Input.isRunning i) eqn:Hr.
    + destruct (Input_dataCallback_result i p Hr Hev Hp) as (l & _ & Hcb). eauto.
    + exists i. unfold Input.dataCallback. rewrite Hr. reflexivity.
  - intros p Hp. unfold Input.dataCallback.
    destruct (Input.isRunning i); cbn [negb]; [|reflexivity].
    unfold Input.calculateLevel.
    destruct (Z.eqb_spec (Z.of_nat (List.length p)) 0) as [Hz|Hz].
    + destruct p; [discriminate|cbn in Hz; lia].
    + rewrite Input_levelLoop_odd by (auto; lia). cbn [bind]. eauto.
Qed.

Lemma capture_endpoint_in_use_witness :
  let i0 := {| Input.config := defaultConfig; Input.device := false;
               Input.isRunning := false; Input.level := 0%float;
               Input.gain := 0x1.3333333333333p+0%float;
               Input.buffer := repeat x00 512 |} in
  let newConfig := {|
    AudioInput := {| inDeviceName := ""; inSampleRate := 8000; inChannels := 2;
                     inBufferSize := 1; inGain := 2%float; inFormat := "int16" |};
    AudioOutput := AudioOutput defaultConfig |} in
  let calls := [InputUpdateConfig newConfig; InputStart workingDriver;
                InputDataCallback (bytesOf [20000; -3; 7])] in
  let i := {| Input.config := newConfig; Input.device := true;
              Input.isRunning := true;
              Input.level := (-96.0)%float;
              Input.gain := 2%float;
              Input.buffer := bytesOf [32767; -6] |} in
  Input.NewInput defaultConfig = Ret i0
  /\ inputRun i0 calls = Ret i
  /\ Z.of_nat (List.length (Input.GetBuffer i))
     = bufferLen (inBufferSize (AudioInput (Input.GetConfig i)))
                 (inChannels (AudioInput (Input.GetConfig i)))
  /\ Nat.even (List.length (Input.GetBuffer i)) = true
  /\ Input.device i = Input.IsRunning i
  /\ (forall pInputSamples,
        Nat.even (List.length pInputSamples) = true ->
        exists i', Input.dataCallback i pInputSamples = Ret i')
  /\ (forall pInputSamples,
        Nat.even (List.length pInputSamples) = false ->
        if Input.IsRunning i
        then exists p, Input.dataCallback i pInputSamples = Panics p
        else Input.dataCallback i pInputSamples = Ret i).
Proof.
  intros i0 newConfig calls i.
  assert (HA : Input.NewInput defaultConfig = Ret i0) by (vm_compute; reflexivity).
  assert (HB : inputRun i0 calls = Ret i) by (vm_compute; reflexivity).
  split; [exact HA|]. split; [exact HB|].
  exact (capture_endpoint_in_use defaultConfig i0 i calls HA HB).
Defined.

(** X23.  A playback endpoint in use.  Whatever calls its client and the
    playback device make on an endpoint from [NewOutput], the queue
    keeps its capacity of 10 and never holds more than 10 blocks, the
    buffer has the byte length computed from the configuration held,
    and the endpoint holds a device exactly while it runs.  While it
    runs with fewer than 10 blocks queued [PlayAudio] accepts any block
    and the queue grows by one; [ClearQueue] always empties it. *)
Theorem playback_endpoint_in_use `{Runtime}
  (cfg : Config) (o0 o : Output.t) (calls : list OutputCall) :
  Output.NewOutput cfg = Ret o0 ->
  outputRun o0 calls = Ret o ->
  0 <= Output.GetQueueSize o <= 10
  /\ Output.capacity (Output.queue o) = 10%nat
  /\ Z.of_nat (List.length (Output.GetBuffer o))
     = bufferLen (outBufferSize (AudioOutput (Output.GetConfig o)))
                 (outChannels (AudioOutput (Output.GetConfig o)))
  /\ Output.device o = Output.IsRunning o
  /\ (Output.IsRunning o = true -> Output.GetQueueSize o < 10 ->
      forall data,
        snd (Output.PlayAudio o data) = None
        /\ Output.GetQueueSize (fst (Output.PlayAudio o data))
           = Output.GetQueueSize o + 1)
  /\ Output.GetQueueSize (Output.ClearQueue o) = 0.
Proof.
  intros Hnew Hrun.
  pose proof (outputRun_sound calls o0 o (NewOutput_sound cfg o0 Hnew) Hrun)
    as (Hlen & Hev & Hdev & Hcap & Hq).
  unfold Output.GetQueueSize, Output.GetBuffer, Output.GetConfig, Output.IsRunning.
  split; [lia|]. split; [exact Hcap|]. split; [exact Hlen|]. split; [exact Hdev|].
  split; [|reflexivity].
  intros Hr Hroom data. unfold Output.len in *.
  rewrite PlayAudio_appends by (auto; lia).
  cbn [fst snd Output.setQueue Output.queue Output.held].
  rewrite length_app. cbn [List.length]. split; [reflexivity|lia].
Qed.

Lemma playback_endpoint_in_use_witness :
  let o0 := {| Output.config := defaultConfig; Output.device := false;
               Output.isRunning := false; Output.level := 0%float;
               Output.volume := 0x1.999999999999ap-1%float;
               Output.buffer := repeat x00 512;
               Output.queue := Output.makeChan 10 |} in
  let calls := [OutputPlayAudio [x01; x02]; OutputStart workingDriver;
                OutputPlayAudio [x00; x00]; OutputPlayAudio [x05; x06];
                OutputDataCallback (repeat xff 4); OutputSetVolume 1%float] in
  let o := {| Output.config := defaultConfig; Output.device := true;
              Output.isRunning := true; Output.level := (-96.0)%float;
              Output.volume := 1%float;
              Output.buffer := repeat x00 512;
              Output.queue := {| Output.held := [[x05; x06]];
                                 Output.capacity := 10 |} |} in
  Output.NewOutput defaultConfig = Ret o0
  /\ outputRun o0 calls = Ret o
  /\ 0 <= Output.GetQueueSize o <= 10
  /\ Output.capacity (Output.queue o) = 10%nat
  /\ Z.of_nat (List.length (Output.GetBuffer o))
     = bufferLen (outBufferSize (AudioOutput (Output.GetConfig o)))
                 (outChannels (AudioOutput (Output.GetConfig o)))
  /\ Output.device o = Output.IsRunning o
  /\ (Output.IsRunning o = true -> Output.GetQueueSize o < 10 ->
      forall data,
        snd (Output.PlayAudio o data) = None
        /\ Output.GetQueueSize (fst (Output.PlayAudio o data))
           = Output.GetQueueSize o + 1)
  /\ Output.GetQueueSize (Output.ClearQueue o) = 0.
Proof.
  intros o0 calls o.
  assert (HA : Output.NewOutput defaultConfig = Ret o0) by (vm_compute; reflexivity).
  assert (HB : outputRun o0 calls = Ret o) by (vm_compute; reflexivity).
  split; [exact HA|]. split; [exact HB|].
  exact (playback_endpoint_in_use defaultConfig o0 o calls HA HB).
Defined.

(** X24.  [Stop] keeps the queue.  A block queued on a running endpoint
    is still queued after [Stop]; while the endpoint is stopped the
    device callback leaves the queue and the device buffer untouched;
    and after the next successful [Start] the first callback plays that
    block. *)
Theorem queued_block_survives_restart `{Runtime}
  (o : Output.t) (drv : Driver) (data pOutputSample : list byte) :
  let o1 := fst (Output.PlayAudio o data) in
  let o2 := fst (Output.Stop o1) in
  let o3 := fst (Output.Start o2 drv) in
  Output.isRunning o = true ->
  Output.GetQueueSize o = 0 ->
  (0 < Output.capacity (Output.queue o))%nat ->
  Output.volume o = 1%float ->
  Nat.even (List.length data) = true ->
  List.length data = List.length pOutputSample ->
  snd (Output.Start o2 drv) = None ->
  snd (Output.PlayAudio o data) = None
  /\ Output.GetQueueSize o2 = 1
  /\ Output.dataCallback o2 pOutputSample = Ret (o2, pOutputSample)
  /\ snd (Output.PlayAudio o2 data) = Some OutputNotRunning
  /\ exists o4,
       Output.dataCallback o3 pOutputSample = Ret (o4, data)
       /\ Output.GetQueueSize o4 = 0.
Proof.
  intros o1 o2 o3 Hrun Hempty Hcap Hvol Hev Hlen Hstart.
  assert (Hheld : Output.held (Output.queue o) = []).
  { unfold Output.GetQueueSize, Output.len in Hempty.
    destruct (Output.held (Output.queue o)); [reflexivity|cbn in Hempty; lia]. }
  assert (Ho1 : o1 = Output.setQueue o
                       {| Output.held := [data];
                          Output.capacity := Output.capacity (Output.queue o) |}).
  { subst o1. rewrite PlayAudio_appends by (auto; rewrite Hheld; cbn; lia).
    rewrite Hheld. reflexivity. }
  assert (Ho2 : Output.isRunning o2 = false /\ Output.volume o2 = 1%float
                /\ Output.held (Output.queue o2) = [data]).
  { subst o2. rewrite Ho1. unfold Output.Stop.
    cbn [Output.setQueue Output.isRunning]. rewrite Hrun. cbn. auto. }
  destruct Ho2 as (Hr2 & Hv2 & Hh2).
  assert (Ho3 : Output.isRunning o3 = true /\ Output.volume o3 = 1%float
                /\ Output.held (Output.queue o3) = [data]).
  { subst o3. unfold Output.Start in *. rewrite Hr2 in *.
    destruct (if String.eqb _ _ then _ else _); [|discriminate].
    destruct (negb (IsDeviceSupported _ _ _ _ _ _)); [discriminate|].
    destruct (negb (GetContext drv)); [discriminate|].
    destruct (negb (InitDevice drv)); [discriminate|].
    destruct (negb (DeviceStart drv)); [discriminate|].
    cbn. auto. }
  destruct Ho3 as (Hr3 & Hv3 & Hh3).
  split.
  { fold o1. unfold Output.PlayAudio, Output.trySend, Output.len.
    rewrite Hrun, Hheld. cbn [negb List.length].
    destruct (Nat.ltb_spec 0 (Output.capacity (Output.queue o))); [reflexivity|lia]. }
  split; [unfold Output.GetQueueSize, Output.len; rewrite Hh2; reflexivity|].
  split; [unfold Output.dataCallback; rewrite Hr2; reflexivity|].
  split; [unfold Output.PlayAudio; rewrite Hr2; reflexivity|].
  destruct (dataCallback_unity o3 data [] pOutputSample Hr3 Hv3 Hh3 Hev) as [l Hcb].
  rewrite copyBytes_same_length in Hcb by (symmetry; exact Hlen).
  eexists. split; [exact Hcb|]. reflexivity.
Qed.

Lemma queued_block_survives_restart_witness :
  let o := {| Output.config := defaultConfig; Output.device := true;
              Output.isRunning := true; Output.level := 0%float;
              Output.volume := 1%float; Output.buffer := repeat x00 4;
              Output.queue := Output.makeChan 10 |} in
  let data := bytesOf [1000; -2000] in
  let pOutputSample := repeat xff 4 in
  let o1 := fst (Output.PlayAudio o data) in
  let o2 := fst (Output.Stop o1) in
  let o3 := fst (Output.Start o2 workingDriver) in
  Output.isRunning o = true
  /\ Output.GetQueueSize o = 0
  /\ (0 < Output.capacity (Output.queue o))%nat
  /\ Output.volume o = 1%float
  /\ Nat.even (List.length data) = true
  /\ List.length data = List.length pOutputSample
  /\ snd (Output.Start o2 workingDriver) = None
  /\ snd (Output.PlayAudio o data) = None
  /\ Output.GetQueueSize o2 = 1
  /\ Output.dataCallback o2 pOutputSample = Ret (o2, pOutputSample)
  /\ snd (Output.PlayAudio o2 data) = Some OutputNotRunning
  /\ exists o4,
       Output.dataCallback o3 pOutputSample = Ret (o4, data)
       /\ Output.GetQueueSize o4 = 0.
Proof.
  cbv zeta.
  split; [reflexivity|]. split; [reflexivity|]. split; [cbn; lia|].
  split; [reflexivity|]. split; [reflexivity|]. split; [reflexivity|].
  split; [reflexivity|].
  apply (queued_block_survives_restart
    {| Output.config := defaultConfig; Output.device := true;
       Output.isRunning := true; Output.level := 0%float;
       Output.volume := 1%float; Output.buffer := repeat x00 4;
       Output.queue := Output.makeChan 10 |}
    workingDriver (bytesOf [1000; -2000]) (repeat xff 4));
    [reflexivity|reflexivity|cbn; lia|reflexivity|reflexivity|reflexivity|reflexivity].
Defined.

(** ** The processor's peak meter *)

Lemma abs_table :
  allFrom (Z.to_nat 65536) (-32768)
    (fun s => PrimFloat.Leibniz.eqb (abs (floatOfZ s)) (floatOfZ (Z.abs s))) = true.
Proof. vm_compute. reflexivity. Qed.

Lemma abs_floatOfZ s :
  -32768 <= s <= 32767 -> abs (floatOfZ s) = floatOfZ (Z.abs s).
Proof.
  intros Hs. apply FloatAxioms.Leibniz.eqb_spec.
  apply (allFrom_spec _ _ _ abs_table s). lia.
Qed.

Lemma ord_magnitude m :
  0 <= m <= 32768 -> ord (floatOfZ m) = Some (m * unit1074).
Proof.
  intros Hm. replace m with (Z.abs (- m)) by lia.
  rewrite <- abs_floatOfZ by lia. apply ord_sampleAbs. lia.
Qed.

Lemma magnitude_ltb m k :
  0 <= m <= 32768 -> 0 <= k <= 32768 ->
  (floatOfZ m <? floatOfZ k)%float = (m <? k).
Proof.
  intros Hm Hk. rewrite ltb_ord, !ord_magnitude by assumption.
  pose proof unit1074_pos.
  destruct (Z.ltb_spec m k); [apply Z.ltb_lt|apply Z.ltb_ge]; nia.
Qed.

Lemma fold_max_bounds ss : forall m,
  0 <= m <= 32768 -> Forall (fun s => -32768 <= s <= 32767) ss ->
  0 <= fold_left (fun m s => Z.max m (Z.abs s)) ss m <= 32768.
Proof.
  induction ss as [|s rest IH]; intros m Hm Hall; cbn [fold_left]; [exact Hm|].
  inversion Hall; subst. apply IH; [lia|assumption].
Qed.

Lemma levelsLoop_peak `{Runtime} n data : forall j sum m,
  Nat.even (List.length data) = true ->
  0 <= m <= 32768 ->
  exists sum',
    levelsLoop n j data sum (floatOfZ m)
    = Ret (sum', floatOfZ (fold_left (fun m s => Z.max m (Z.abs s)) (samples data) m)).
Proof.
  induction data as [|b|b0 b1 rest IH] using list_pair_ind; intros j sum m Hev Hm.
  - eexists. reflexivity.
  - discriminate.
  - cbn [levelsLoop samples fold_left].
    pose proof (readSample_range b0 b1) as Hs.
    rewrite abs_floatOfZ by exact Hs.
    rewrite magnitude_ltb by lia.
    destruct (Z.ltb_spec m (Z.abs (readSample b0 b1))).
    + replace (Z.max m (Z.abs (readSample b0 b1))) with (Z.abs (readSample b0 b1))
        by lia.
      apply IH; [exact Hev|lia].
    + replace (Z.max m (Z.abs (readSample b0 b1))) with m by lia.
      apply IH; [exact Hev|lia].
Qed.

(** X25.  The processor's peak meter is right on every block of whole
    samples: the peak level [calculateLevels] stores is the level of
    the loudest sample of the block, 20 * log10(max|s| / 32767) when
    some sample is not 0, and the -96.0 floor when every sample is 0. *)
Theorem processor_peak_is_loudest_sample `{Runtime}
  (ap : APRSProcessor) (data : list byte) :
  let loudest := maxAbs (samples data) in
  data <> [] ->
  Nat.even (List.length data) = true ->
  exists ap',
    calculateLevels ap data = Ret ap'
    /\ Forall (fun s => Z.abs s <= loudest) (samples data)
    /\ (loudest = 0 \/ In loudest (map Z.abs (samples data)))
    /\ (loudest = 0 -> GetPeakLevel ap' = (-96.0)%float)
    /\ (0 < loudest ->
        GetPeakLevel ap' = (20 * Log10 (floatOfZ loudest / 32767.0))%float).
Proof.
  intros loudest Hne Hev.
  assert (Hn : (Z.of_nat (List.length data) =? 0) = false).
  { destruct data; [contradiction|]. reflexivity. }
  unfold calculateLevels. rewrite Hn.
  destruct (levelsLoop_peak (Z.of_nat (List.length data)) data 0 0%float 0 Hev
              ltac:(lia)) as [sum Hloop].
  change (floatOfZ 0) with 0%float in Hloop. rewrite Hloop. cbn [bind].
  fold (maxAbs (samples data)). fold loudest.
  eexists. split; [reflexivity|].
  assert (Hb : 0 <= loudest <= 32768).
  { apply fold_max_bounds; [lia|apply samples_range]. }
  assert (Hfold : forall ss m,
            Forall (fun s => Z.abs s <= fold_left (fun m s => Z.max m (Z.abs s)) ss m) ss
            /\ m <= fold_left (fun m s => Z.max m (Z.abs s)) ss m
            /\ (fold_left (fun m s => Z.max m (Z.abs s)) ss m = m
                \/ In (fold_left (fun m s => Z.max m (Z.abs s)) ss m) (map Z.abs ss))).
  { induction ss as [|s rest IH]; intros m; cbn [fold_left map].
    - split; [constructor|]. split; [lia|]. left. reflexivity.
    - destruct (IH (Z.max m (Z.abs s))) as (Hall & Hle & Hin).
      split; [constructor; [lia|exact Hall]|]. split; [lia|].
      destruct Hin as [Heq|Hin]; [|right; right; exact Hin].
      rewrite Heq. destruct (Z.max_spec m (Z.abs s)) as [[_ ->]|[_ ->]];
        [right; left; reflexivity|left; reflexivity]. }
  destruct (Hfold (samples data) 0) as (Hall & _ & Hin).
  split; [exact Hall|]. split; [exact Hin|].
  unfold GetPeakLevel. cbn [setLevels peakLevel]. unfold levelOf.
  change 0%float with (floatOfZ 0). rewrite magnitude_ltb by lia.
  split.
  - intros ->. reflexivity.
  - intros Hpos. destruct (Z.ltb_spec 0 loudest); [reflexivity|lia].
Qed.

Lemma processor_peak_is_loudest_sample_witness :
  let data := bytesOf [100; -20000; 327; 19999] in
  data <> []
  /\ Nat.even (List.length data) = true
  /\ maxAbs (samples data) = 20000
  /\ exists ap',
       calculateLevels NewAPRSProcessor data = Ret ap'
       /\ Forall (fun s => Z.abs s <= maxAbs (samples data)) (samples data)
       /\ (maxAbs (samples data) = 0
           \/ In (maxAbs (samples data)) (map Z.abs (samples data)))
       /\ (maxAbs (samples data) = 0 -> GetPeakLevel ap' = (-96.0)%float)
       /\ (0 < maxAbs (samples data) ->
           GetPeakLevel ap'
           = (20 * Log10 (floatOfZ (maxAbs (samples data)) / 32767.0))%float).
Proof.
  cbv zeta.
  split; [discriminate|]. split; [reflexivity|]. split; [reflexivity|].
  apply (processor_peak_is_loudest_sample NewAPRSProcessor
           (bytesOf [100; -20000; 327; 19999])); [discriminate|reflexivity].
Defined.

(** ** Sums of integers in binary64

    An integer below [2^53] is held exactly by a binary64 value: its
    mantissa shifted up to 53 bits.  The sum of two of them, when it is
    below [2^53] as well, is rounded to itself. *)

Lemma iter_pos_iter (A : Type) (f : A -> A) p : forall x,
  iter_pos f p x = Pos.iter f x p.
Proof.
  induction p as [p IH|p IH|]; intros x; cbn [iter_pos Pos.iter].
  - rewrite !IH, !Pos.iter_swap. reflexivity.
  - rewrite !IH. reflexivity.
  - reflexivity.
Qed.

Lemma iter_pos_nat (A : Type) (f : A -> A) p x :
  iter_pos f p x = Nat.iter (Pos.to_nat p) f x.
Proof. rewrite iter_pos_iter. apply Pos2Nat.inj_iter. Qed.

Lemma Pos_iter_nat (A : Type) (f : A -> A) p x :
  Pos.iter f x p = Nat.iter (Pos.to_nat p) f x.
Proof. apply Pos2Nat.inj_iter. Qed.

Lemma iter_add (A : Type) (f : A -> A) n m x :
  Nat.iter (n + m) f x = Nat.iter n f (Nat.iter m f x).
Proof.
  induction n as [|n IH]; [reflexivity|].
  change (f (Nat.iter (n + m) f x) = f (Nat.iter n f (Nat.iter m f x))).
  rewrite IH. reflexivity.
Qed.

Lemma iter_succ_r (A : Type) (f : A -> A) n x :
  Nat.iter (S n) f x = Nat.iter n f (f x).
Proof.
  replace (S n) with (n + 1)%nat by lia. apply iter_add.
Qed.

Lemma shifted_value k V :
  Z.pos (Nat.iter k xO V) = Z.pos V * 2 ^ Z.of_nat k.
Proof.
  induction k as [|k IH].
  - cbn. lia.
  - change (Nat.iter (S k) xO V) with (xO (Nat.iter k xO V)).
    rewrite Pos2Z.inj_xO, IH, Nat2Z.inj_succ, Z.pow_succ_r by lia. lia.
Qed.

Lemma shifted_size k V :
  Pos.size (Nat.iter k xO V) = (Pos.size V + Pos.of_succ_nat k - 1)%positive.
Proof.
  induction k as [|k IH].
  - cbn. lia.
  - change (Nat.iter (S k) xO V) with (xO (Nat.iter k xO V)).
    cbn [Pos.size]. rewrite IH. lia.
Qed.

Lemma shifted_digits k V :
  Z.pos (digits2_pos (Nat.iter k xO V)) = Z.pos (Pos.size V) + Z.of_nat k.
Proof. rewrite digits2_pos_size, shifted_size. lia. Qed.

Lemma shr_exact k V :
  Nat.iter k shr_1 {| shr_m := Z.pos (Nat.iter k xO V); shr_r := false; shr_s := false |}
  = {| shr_m := Z.pos V; shr_r := false; shr_s := false |}.
Proof.
  induction k as [|k IH]; [reflexivity|].
  rewrite iter_succ_r.
  change (Nat.iter (S k) xO V) with (xO (Nat.iter k xO V)).
  cbn [shr_1 orb]. exact IH.
Qed.

(** The binary64 value that holds the positive integer [V], of at most
    53 bits. *)
Lemma binary_round_integer V k :
  let d := Pos.to_nat (Pos.size V) in
  (d <= 53)%nat -> (k <= 1000)%nat ->
  binary_round prec emax false (Nat.iter k xO V) (- Z.of_nat k)
  = S754_finite false (Nat.iter (53 - d) xO V) (Z.of_nat d - 53).
Proof.
  intros d Hd Hk.
  assert (Hd1 : (1 <= d)%nat) by (subst d; lia).
  assert (Hsize : Z.pos (Pos.size V) = Z.of_nat d) by (subst d; lia).
  assert (Hshift : fexp prec emax (Z.of_nat d + Z.of_nat (53 - d) + (Z.of_nat d - 53))
                   - (Z.of_nat d - 53) = 0)
    by (unfold fexp, SpecFloat.emin, prec, emax; lia).
  assert (Hlast : (let '(mrs, e) :=
                     shr_fexp prec emax (Z.pos (Nat.iter (53 - d) xO V))
                       (Z.of_nat d - 53) loc_Exact in
                   match shr_m mrs with
                   | 0 => S754_zero false
                   | Z.pos m =>
                       if e <=? emax - prec then S754_finite false m e
                       else S754_infinity false
                   | Z.neg _ => S754_nan
                   end)
                  = S754_finite false (Nat.iter (53 - d) xO V) (Z.of_nat d - 53)).
  { unfold shr_fexp. cbn [Zdigits2]. rewrite shifted_digits, Hsize, Hshift.
    cbn [shr shr_record_of_loc shr_m].
    destruct (Z.leb_spec (Z.of_nat d - 53) (emax - prec)); [reflexivity|].
    unfold emax, prec in *. lia. }
  assert (Hcanon : binary_round_aux prec emax false
                     (Z.pos (Nat.iter (53 - d) xO V)) (Z.of_nat d - 53) loc_Exact
                   = S754_finite false (Nat.iter (53 - d) xO V) (Z.of_nat d - 53)).
  { unfold binary_round_aux, shr_fexp at 1. cbn [Zdigits2].
    rewrite shifted_digits, Hsize, Hshift.
    cbn [shr shr_record_of_loc shr_m loc_of_shr_record round_nearest_even].
    exact Hlast. }
  unfold binary_round. rewrite shifted_digits, Hsize.
  replace (fexp prec emax (Z.of_nat d + Z.of_nat k + - Z.of_nat k))
    with (Z.of_nat d - 53) by (unfold fexp, SpecFloat.emin, prec, emax; lia).
  unfold shl_align.
  destruct (Z.of_nat d - 53 - - Z.of_nat k) as [|q|q] eqn:Hq.
  - replace k with (53 - d)%nat by lia.
    replace (- Z.of_nat (53 - d)) with (Z.of_nat d - 53) by lia. exact Hcanon.
  - unfold binary_round_aux at 1, shr_fexp at 1. cbn [Zdigits2].
    rewrite shifted_digits, Hsize.
    replace (fexp prec emax (Z.of_nat d + Z.of_nat k + - Z.of_nat k) - - Z.of_nat k)
      with (Z.pos q) by (unfold fexp, SpecFloat.emin, prec, emax; lia).
    cbn [shr shr_record_of_loc]. rewrite iter_pos_nat.
    replace (Nat.iter k xO V)
      with (Nat.iter (Pos.to_nat q) xO (Nat.iter (53 - d) xO V))
      by (rewrite <- iter_add; f_equal; lia).
    rewrite shr_exact.
    cbn [shr_m loc_of_shr_record round_nearest_even].
    replace (- Z.of_nat k + Z.pos q) with (Z.of_nat d - 53) by lia.
    exact Hlast.
  - rewrite Pos_iter_nat, <- iter_add.
    replace (Pos.to_nat q + k)%nat with (53 - d)%nat by lia. exact Hcanon.
Qed.

Lemma size_bound V : Z.pos V < 2 ^ 53 -> (Pos.to_nat (Pos.size V) <= 53)%nat.
Proof.
  intros HV. pose proof (Pos.size_le V) as Hle.
  apply Pos2Z.pos_le_pos in Hle. rewrite Pos2Z.inj_pow in Hle.
  change (Z.pos 2) with 2 in Hle.
  assert (Hlt : 2 ^ Z.pos (Pos.size V) < 2 ^ 54).
  { change (2 ^ 54) with (2 * 2 ^ 53). lia. }
  apply (Z.pow_lt_mono_r_iff 2 (Z.pos (Pos.size V)) 54) in Hlt; [|lia|lia].
  lia.
Qed.

Lemma normalize_integer V :
  Z.pos V < 2 ^ 53 ->
  binary_normalize prec emax (Z.pos V) 0 false
  = S754_finite false (Nat.iter (53 - Pos.to_nat (Pos.size V)) xO V)
      (Z.of_nat (Pos.to_nat (Pos.size V)) - 53).
Proof.
  intros HV. apply (binary_round_integer V 0); [apply size_bound; exact HV|lia].
Qed.

Lemma shl_align_value m e e' :
  e' <= e -> Z.pos (fst (shl_align m e e')) = Z.pos m * 2 ^ (e - e').
Proof.
  intros He. unfold shl_align. destruct (e' - e) as [|q|q] eqn:Hq; try lia.
  - cbn [fst]. replace (e - e') with 0 by lia. lia.
  - cbn [fst]. rewrite Pos_iter_nat, shifted_value.
    replace (Z.of_nat (Pos.to_nat q)) with (e - e') by lia. reflexivity.
Qed.

Lemma SFadd_integers A B :
  Z.pos (A + B) < 2 ^ 53 ->
  SFadd prec emax (binary_normalize prec emax (Z.pos A) 0 false)
    (binary_normalize prec emax (Z.pos B) 0 false)
  = binary_normalize prec emax (Z.pos (A + B)) 0 false.
Proof.
  intros HW.
  assert (HA : Z.pos A < 2 ^ 53) by lia.
  assert (HB : Z.pos B < 2 ^ 53) by lia.
  pose proof (size_bound A HA) as HdA. pose proof (size_bound B HB) as HdB.
  pose proof (size_bound (A + B) HW) as HdW.
  rewrite (normalize_integer A HA), (normalize_integer B HB), (normalize_integer _ HW).
  set (dA := Pos.to_nat (Pos.size A)) in *.
  set (dB := Pos.to_nat (Pos.size B)) in *.
  assert (HdA1 : (1 <= dA)%nat) by (subst dA; lia).
  assert (HdB1 : (1 <= dB)%nat) by (subst dB; lia).
  unfold SFadd. cbn [cond_Zopp].
  change IntDef.Z.min with Z.min.
  set (ez := Z.min (Z.of_nat dA - 53) (Z.of_nat dB - 53)).
  cbv zeta.
  assert (Hez : ez = - Z.of_nat (Z.to_nat (- ez))) by lia.
  assert (Hsum : Z.pos (fst (shl_align (Nat.iter (53 - dA)%nat xO A) (Z.of_nat dA - 53) ez))
                 + Z.pos (fst (shl_align (Nat.iter (53 - dB)%nat xO B) (Z.of_nat dB - 53) ez))
                 = Z.pos (Nat.iter (Z.to_nat (- ez)) xO (A + B)%positive)).
  { rewrite !shl_align_value, !shifted_value by lia.
    rewrite <- !Z.mul_assoc, <- !Z.pow_add_r by lia.
    replace (Z.of_nat (53 - dA) + (Z.of_nat dA - 53 - ez)) with (- ez) by lia.
    replace (Z.of_nat (53 - dB) + (Z.of_nat dB - 53 - ez)) with (- ez) by lia.
    replace (Z.of_nat (Z.to_nat (- ez))) with (- ez) by lia.
    rewrite Pos2Z.inj_add. lia. }
  rewrite Hsum. unfold binary_normalize. rewrite Hez at 2.
  apply binary_round_integer; [exact HdW|lia].
Qed.

Lemma floatOfZ_normalize a :
  0 <= a < 2 ^ 53 -> Prim2SF (floatOfZ a) = binary_normalize prec emax a 0 false.
Proof.
  intros Ha. unfold floatOfZ.
  destruct (Z.ltb_spec a 0); [lia|].
  rewrite of_uint63_spec, Uint63.of_Z_spec, Z.mod_small; [reflexivity|].
  split; [lia|]. apply Z.lt_le_trans with (2 ^ 53); [lia|].
  unfold Uint63.wB. apply Z.pow_le_mono_r; cbn; lia.
Qed.

(** Adding two integers held as binary64 values gives their sum, without
    rounding, as long as it stays below [2^53]. *)
Lemma floatOfZ_add a b :
  0 <= a -> 0 <= b -> a + b < 2 ^ 53 ->
  (floatOfZ a + floatOfZ b)%float = floatOfZ (a + b).
Proof.
  intros Ha Hb Hab. apply Prim2SF_inj.
  rewrite add_spec, !floatOfZ_normalize by lia.
  destruct a as [|A|A]; [|destruct b as [|B|B]|]; try lia.
  - destruct b as [|B|B]; try lia; [reflexivity|].
    cbn [Z.add]. rewrite normalize_integer by lia. reflexivity.
  - rewrite Z.add_0_r. rewrite normalize_integer by lia. reflexivity.
  - apply SFadd_integers. exact Hab.
Qed.

Lemma square_table :
  allFrom (Z.to_nat 65536) (-32768)
    (fun s => PrimFloat.Leibniz.eqb (abs (floatOfZ s) * abs (floatOfZ s))%float
                (floatOfZ (s * s))) = true.
Proof. vm_compute. reflexivity. Qed.

Lemma square_floatOfZ s :
  -32768 <= s <= 32767 ->
  (abs (floatOfZ s) * abs (floatOfZ s))%float = floatOfZ (s * s).
Proof.
  intros Hs. apply FloatAxioms.Leibniz.eqb_spec.
  apply (allFrom_spec _ _ _ square_table s). lia.
Qed.

(** ** The processor's RMS meter *)

Lemma fold_squares_bounds ss : forall a,
  0 <= a -> Forall (fun s => -32768 <= s <= 32767) ss ->
  a <= fold_left (fun a s => a + s * s) ss a
       <= a + 2 ^ 30 * Z.of_nat (List.length ss).
Proof.
  induction ss as [|s rest IH]; intros a Ha Hall; cbn [fold_left List.length].
  - lia.
  - inversion Hall as [|? ? Hs Hrest]; subst.
    assert (Hsq : 0 <= s * s <= 2 ^ 30) by (change (2 ^ 30) with (32768 * 32768); nia).
    specialize (IH (a + s * s) ltac:(lia) Hrest).
    rewrite Nat2Z.inj_succ. lia.
Qed.

Lemma samples_count data :
  Nat.even (List.length data) = true ->
  Z.of_nat (List.length (samples data)) = Z.of_nat (List.length data) / 2.
Proof.
  intros Hev. pose proof (samples_length data Hev) as Hlen.
  rewrite <- Hlen, Nat2Z.inj_mul, Z.mul_comm, Z.div_mul by lia. reflexivity.
Qed.

Lemma levelsLoop_sum `{Runtime} n data : forall j a peak,
  Nat.even (List.length data) = true ->
  0 <= a ->
  a + 2 ^ 30 * Z.of_nat (List.length (samples data)) < 2 ^ 53 ->
  exists peak',
    levelsLoop n j data (floatOfZ a) peak
    = Ret (floatOfZ (fold_left (fun a s => a + s * s) (samples data) a), peak').
Proof.
  induction data as [|b|b0 b1 rest IH] using list_pair_ind; intros j a peak Hev Ha Hb.
  - eexists. reflexivity.
  - discriminate.
  - cbn [levelsLoop samples fold_left].
    pose proof (readSample_range b0 b1) as Hs.
    cbn [samples List.length] in Hb. rewrite Nat2Z.inj_succ in Hb.
    assert (Hsq : 0 <= readSample b0 b1 * readSample b0 b1 <= 2 ^ 30)
      by (change (2 ^ 30) with (32768 * 32768); nia).
    rewrite square_floatOfZ by exact Hs.
    rewrite floatOfZ_add by lia.
    apply IH; [exact Hev|lia|lia].
Qed.

(** X26.  The processor's RMS meter adds the squares without rounding:
    on a block of whole samples shorter than 16 MiB the level it stores
    is the level of sqrt(S / n), with S the exact sum of the squares of
    the samples and n their number, both converted to float64. *)
Theorem processor_rms_from_exact_sum `{Runtime}
  (ap : APRSProcessor) (data : list byte) :
  let n := Z.of_nat (List.length data) in
  data <> [] ->
  Nat.even (List.length data) = true ->
  n < 2 ^ 24 ->
  exists ap',
    calculateLevels ap data = Ret ap'
    /\ 0 <= sumSquares (samples data) < 2 ^ 53
    /\ GetRMSLevel ap'
       = levelOf (sqrt (floatOfZ (sumSquares (samples data)) / floatOfZ (n / 2))).
Proof.
  intros n Hne Hev Hlen.
  assert (Hn : (n =? 0) = false).
  { subst n. destruct data; [contradiction|]. reflexivity. }
  pose proof (samples_count data Hev) as Hcount. fold n in Hcount.
  assert (Hroom : 0 + 2 ^ 30 * Z.of_nat (List.length (samples data)) < 2 ^ 53).
  { rewrite Hcount.
    assert (n / 2 < 2 ^ 23) by (apply Z.div_lt_upper_bound; [lia|exact Hlen]).
    change (2 ^ 53) with (2 ^ 30 * 2 ^ 23). lia. }
  unfold calculateLevels. fold n. rewrite Hn.
  destruct (levelsLoop_sum n data 0 0 0%float Hev ltac:(lia) Hroom) as [peak Hloop].
  change (floatOfZ 0) with 0%float in Hloop. rewrite Hloop. cbn [bind].
  fold (sumSquares (samples data)).
  eexists. split; [reflexivity|]. split.
  - pose proof (fold_squares_bounds (samples data) 0 ltac:(lia) (samples_range data)).
    unfold sumSquares. lia.
  - reflexivity.
Qed.

Lemma processor_rms_from_exact_sum_witness :
  let data := bytesOf [100; -20000; 327; 19999] in
  data <> []
  /\ Nat.even (List.length data) = true
  /\ Z.of_nat (List.length data) < 2 ^ 24
  /\ sumSquares (samples data) = 800076930
  /\ exists ap',
       calculateLevels NewAPRSProcessor data = Ret ap'
       /\ 0 <= sumSquares (samples data) < 2 ^ 53
       /\ GetRMSLevel ap'
          = levelOf (sqrt (floatOfZ (sumSquares (samples data))
                           / floatOfZ (Z.of_nat (List.length data) / 2))).
Proof.
  cbv zeta.
  split; [discriminate|]. split; [reflexivity|]. split; [reflexivity|].
  split; [reflexivity|].
  apply (processor_rms_from_exact_sum NewAPRSProcessor
           (bytesOf [100; -20000; 327; 19999])); [discriminate|reflexivity|reflexivity].
Defined.
